(** * preppy: a shallow embedding of the template preprocessor

    The development follows [src/preppy.py] (version 4.3.0) on its
    Python 3 branch ([isPy3 = True]): the runtime helpers (conversion and
    quoting functions, the whitespace controller), the lexer
    [PreppyParser.__tokenize], the recursive-descent parser
    [PreppyParser.__preppy] with its handlers, the prologue of the generated
    [run] procedure and the module cache of [getModule].

    Text ([str]) is a list of Unicode code points, [bytes] a list of
    [Byte.byte].  Exceptions are explicit: a computation returns [Ok v] or
    [Raise e].  Mutable objects (the whitespace controller, the parser, the
    module caches) are records passed in and out of each operation. *)

From Stdlib Require Import List String Ascii NArith ZArith Bool Lia DecimalString.
From stdpp Require Import gmap strings list.

Set Warnings "-register-all".

Local Open Scope N_scope.

(** ** Text, bytes and exceptions *)

(** A Python 3 [str]: the sequence of its code points. *)
Abbreviation ustr := (list N).

(** A Python 3 [bytes]. *)
Abbreviation bstr := (list Byte.byte).

(** [u "abc"] is the text whose code points are the characters of an ASCII
    literal. *)
Definition u (s : string) : ustr := map N_of_ascii (list_ascii_of_string s).

(** The exceptions the embedded code can raise.  Three of them are Python's
    [SyntaxError]: [SyntaxError msg pos] is what
    [PreppyParser.__lexerror(msg, pos)] raises, kept as the message passed to
    it and the source offset it is reported at (the formatted text,
    [lexerror_text] below, is computed from these two, the source and the
    file name); [ErrorSyntaxError msg pos] is what [PreppyParser.__error(msg)]
    raises when the current token starts at [pos] (its text also quotes the
    exception being handled); [AstSyntaxError] is the one [ast.parse] raises.
    [OutOfFuel] is no exception of the code: it marks the bound put on the
    recursion of the parser, which [parse] never reaches. *)
Inductive pyexc : Type :=
| IndexError
| KeyError
| TypeError
| AttributeError
| UnicodeDecodeError
| UnicodeEncodeError
| ValueError (msg : ustr)
| SyntaxError (msg : ustr) (pos : nat)
| ErrorSyntaxError (msg : ustr) (pos : nat)
| AstSyntaxError
| AssertionError
| UnboundLocalError
| OSError
| OutOfFuel.

Inductive res (A : Type) : Type :=
| Ok (v : A)
| Raise (e : pyexc).
Arguments Ok {A} v.
Arguments Raise {A} e.

Definition bind {A B : Type} (r : res A) (k : A -> res B) : res B :=
  match r with
  | Ok v => k v
  | Raise e => Raise e
  end.

Notation "x <- r ;; k" := (bind r (fun x => k))
  (at level 100, r at next level, right associativity).

Definition option_res {A : Type} (r : res A) : res (option A) :=
  match r with
  | Ok v => Ok (Some v)
  | Raise e => Raise e
  end.

Definition is_ok {A : Type} (r : res A) : bool :=
  match r with Ok _ => true | Raise _ => false end.

(** ** The utf8 codec

    [s.encode('utf8')] and [b.decode('utf8')] of the Python runtime, in
    their strict form: surrogates are not encodable, and overlong forms,
    surrogates and values above U+10FFFF are not decodable. *)

Definition byte_of (n : N) : Byte.byte :=
  match Byte.of_N (n mod 256) with
  | Some b => b
  | None => Byte.x00
  end.

Definition is_surrogate (c : N) : bool := (0xD800 <=? c) && (c <=? 0xDFFF).

Definition utf8_encode_cp (c : N) : option bstr :=
  if c <? 0x80 then Some [byte_of c]
  else if c <? 0x800 then
    Some [byte_of (0xC0 + c / 64); byte_of (0x80 + c mod 64)]
  else if c <? 0x10000 then
    if is_surrogate c then None
    else Some [byte_of (0xE0 + c / 4096); byte_of (0x80 + (c / 64) mod 64);
               byte_of (0x80 + c mod 64)]
  else if c <? 0x110000 then
    Some [byte_of (0xF0 + c / 262144); byte_of (0x80 + (c / 4096) mod 64);
          byte_of (0x80 + (c / 64) mod 64); byte_of (0x80 + c mod 64)]
  else None.

Fixpoint utf8_encode (s : ustr) : option bstr :=
  match s with
  | [] => Some []
  | c :: s' =>
      match utf8_encode_cp c, utf8_encode s' with
      | Some b, Some bs => Some (b ++ bs)
      | _, _ => None
      end
  end.

Definition is_cont (b : N) : bool := (0x80 <=? b) && (b <? 0xC0).

Fixpoint utf8_decode (b : bstr) : option ustr :=
  match b with
  | [] => Some []
  | b0 :: r0 =>
      let n0 := Byte.to_N b0 in
      if n0 <? 0x80 then option_map (cons n0) (utf8_decode r0)
      else
        match r0 with
        | [] => None
        | b1 :: r1 =>
            let n1 := Byte.to_N b1 in
            if negb (is_cont n1) then None
            else if (0xC0 <=? n0) && (n0 <? 0xE0) then
              let c := (n0 - 0xC0) * 64 + (n1 - 0x80) in
              if c <? 0x80 then None
              else option_map (cons c) (utf8_decode r1)
            else
              match r1 with
              | [] => None
              | b2 :: r2 =>
                  let n2 := Byte.to_N b2 in
                  if negb (is_cont n2) then None
                  else if (0xE0 <=? n0) && (n0 <? 0xF0) then
                    let c := (n0 - 0xE0) * 4096 + (n1 - 0x80) * 64
                             + (n2 - 0x80) in
                    if (c <? 0x800) || is_surrogate c then None
                    else option_map (cons c) (utf8_decode r2)
                  else
                    match r2 with
                    | [] => None
                    | b3 :: r3 =>
                        let n3 := Byte.to_N b3 in
                        if negb (is_cont n3) then None
                        else if (0xF0 <=? n0) && (n0 <? 0xF8) then
                          let c := (n0 - 0xF0) * 262144 + (n1 - 0x80) * 4096
                                   + (n2 - 0x80) * 64 + (n3 - 0x80) in
                          if (c <? 0x10000) || (0x10FFFF <? c) then None
                          else option_map (cons c) (utf8_decode r3)
                        else None
                    end
              end
        end
  end.

(** ** Python values

    The values the runtime helpers receive.  [PSafeUnicode] and
    [PSafeString] are the classes [SafeUnicode(str)] and [SafeString(bytes)];
    [PIgnore] is [__wsscontroller__.ignore(str)].  [PObj ucv bcv sv] stands
    for any object that is neither [None] nor a string: [ucv] is what its
    [__str__] method returns when [getattr(s,'__str__',None)] is true, [bcv]
    the same for [__bytes__], and [sv] is [str(s)]. *)
Inductive pyval : Type :=
| PNone
| PStr (s : ustr)
| PBytes (b : bstr)
| PSafeUnicode (s : ustr)
| PSafeString (b : bstr)
| PIgnore (s : ustr)
| PObj (ucv bcv : option pyval) (sv : ustr).

(** [isinstance(s, bytesT)], with [bytesT = bytes]. *)
Definition is_bytesT (s : pyval) : bool :=
  match s with
  | PBytes _ | PSafeString _ => true
  | _ => false
  end.

(** [isinstance(s, unicodeT)], with [unicodeT = str]. *)
Definition is_unicodeT (s : pyval) : bool :=
  match s with
  | PStr _ | PSafeUnicode _ | PIgnore _ => true
  | _ => false
  end.

(** [isinstance(s, strTypes)], with [strTypes = (str, bytes)]. *)
Definition is_strTypes (s : pyval) : bool := is_unicodeT s || is_bytesT s.

(** [isinstance(s, _safeBase)], with [_safeBase = SafeString, SafeUnicode]. *)
Definition is_safeBase (s : pyval) : bool :=
  match s with
  | PSafeUnicode _ | PSafeString _ => true
  | _ => false
  end.

(** [s.encode('utf8')]: a method of [str] only. *)
Definition py_encode (s : pyval) : res pyval :=
  match s with
  | PStr t | PSafeUnicode t | PIgnore t =>
      match utf8_encode t with
      | Some b => Ok (PBytes b)
      | None => Raise UnicodeEncodeError
      end
  | _ => Raise AttributeError
  end.

(** [s.decode('utf8')]: a method of [bytes] only. *)
Definition py_decode (s : pyval) : res pyval :=
  match s with
  | PBytes b | PSafeString b =>
      match utf8_decode b with
      | Some t => Ok (PStr t)
      | None => Raise UnicodeDecodeError
      end
  | _ => Raise AttributeError
  end.

Definition asUtf8 (s : pyval) : res pyval :=
  if is_bytesT s then Ok s else py_encode s.

Definition asUnicode (s : pyval) : res pyval :=
  if is_unicodeT s then Ok s else py_decode s.

(** ** String helpers of the Python runtime *)

Fixpoint starts_with (p s : ustr) : bool :=
  match p, s with
  | [], _ => true
  | _ :: _, [] => false
  | a :: p', b :: s' => (a =? b) && starts_with p' s'
  end.

(** [s.replace(old, new)]: the occurrences of [old] are found from left to
    right and do not overlap.  [skip] counts the characters of an occurrence
    that are still to be dropped. *)
Fixpoint replace_from (old new s : ustr) (skip : nat) : ustr :=
  match s with
  | [] => []
  | c :: s' =>
      match skip with
      | S k => replace_from old new s' k
      | O =>
          if starts_with old s
          then new ++ replace_from old new s' (Nat.pred (length old))
          else c :: replace_from old new s' O
      end
  end.

Definition str_replace (old new s : ustr) : ustr :=
  match old with
  | [] => new ++ flat_map (fun c => c :: new) s
  | _ :: _ => replace_from old new s O
  end.

(** [xml.sax.saxutils.escape] of the Python library, called without an
    entity table: three replacements, the ampersand first. *)
Definition xmlEscape (s : ustr) : ustr :=
  str_replace (u "<") (u "&lt;")
    (str_replace (u ">") (u "&gt;")
       (str_replace (u "&") (u "&amp;") s)).

Definition hex_digit (n : N) : N :=
  if n <? 10 then 48 + n else 87 + n.

(** [repr(b)] of a [bytes] value, which is what [str(b)] returns. *)
Definition bytes_repr (b : bstr) : ustr :=
  let ns := map Byte.to_N b in
  let q := if existsb (N.eqb 39) ns && negb (existsb (N.eqb 34) ns)
           then 34 else 39 in
  let esc (c : N) : ustr :=
    if (c =? q) || (c =? 92) then [92; c]
    else if c =? 9 then [92; 116]
    else if c =? 10 then [92; 110]
    else if c =? 13 then [92; 114]
    else if (c <? 32) || (127 <=? c)
    then [92; 120; hex_digit (c / 16); hex_digit (c mod 16)]
    else [c] in
  98 :: q :: flat_map esc ns ++ [q].

(** ** Conversion and quoting functions *)

(** The step [s = cnv() if cnv else str(s)] of [uStdConv] and [uStdQuote],
    reached for a value that is neither a string nor [None]. *)
Definition obj_convert (s : pyval) : pyval :=
  match s with
  | PObj (Some r) _ _ => r
  | PObj None (Some r) _ => r
  | PObj None None sv => PStr sv
  | _ => s
  end.

Definition uStdConv (s : pyval) : res pyval :=
  match s with
  | PNone => Ok (PStr [])
  | _ =>
      let s1 := if negb (is_strTypes s) then obj_convert s else s in
      if negb (is_unicodeT s1) then py_decode s1 else Ok s1
  end.

Definition bStdConv (s : pyval) : res pyval :=
  r <- uStdConv s ;; py_encode r.

(** [xmlEscape(s)] on a value: [str.replace] is a method of text, and its
    result is a plain [str]. *)
Definition py_xmlEscape (s : pyval) : res pyval :=
  match s with
  | PStr t | PSafeUnicode t | PIgnore t => Ok (PStr (xmlEscape t))
  | _ => Raise AttributeError
  end.

Definition uStdQuote (s : pyval) : res pyval :=
  match s with
  | PNone => Ok (PStr [])
  | _ =>
      let s1 := if negb (is_strTypes s) then obj_convert s else s in
      if is_safeBase s1 then
        match s1 with
        | PSafeString _ => py_decode s1
        | _ => Ok s1
        end
      else
        s2 <- (if negb (is_unicodeT s1) then py_decode s1 else Ok s1) ;;
        py_xmlEscape s2
  end.

Definition bStdQuote (s : pyval) : res pyval :=
  r <- uStdQuote s ;; py_encode r.

Definition stdQuote := bStdQuote.

(** [bytes(s)] and [str(s)], the default literal converters. *)
Definition py_bytes (s : pyval) : res pyval :=
  match s with
  | PBytes b | PSafeString b => Ok (PBytes b)
  | PObj _ (Some (PBytes b)) _ => Ok (PBytes b)
  | _ => Raise TypeError
  end.

Definition py_str (s : pyval) : res pyval :=
  match s with
  | PNone => Ok (PStr (u "None"))
  | PStr t | PSafeUnicode t | PIgnore t => Ok (PStr t)
  | PBytes b | PSafeString b => Ok (PStr (bytes_repr b))
  | PObj _ _ sv => Ok (PStr sv)
  end.

(** A quote or conversion function: one of the functions of the module, or
    one supplied by the caller, which is any function from values to
    results. *)
Inductive convfn : Type :=
| F_asUtf8
| F_asUnicode
| F_bStdConv
| F_uStdConv
| F_bytesT
| F_unicodeT
| F_user (f : pyval -> res pyval).

Definition call (f : convfn) (x : pyval) : res pyval :=
  match f with
  | F_asUtf8 => asUtf8 x
  | F_asUnicode => asUnicode x
  | F_bStdConv => bStdConv x
  | F_uStdConv => uStdConv x
  | F_bytesT => py_bytes x
  | F_unicodeT => py_str x
  | F_user g => g x
  end.

(** [__get_conv__(qf, lqf, b)].  An argument that is [None] (or false) is
    [None] here.  The probe is the call [qf('')], resp. [lqf('')]. *)
Definition __get_conv__ (qf lqf : option convfn) (b : bool)
  : res (convfn * convfn) :=
  match qf, lqf with
  | Some q, None =>
      r <- call q (PStr []) ;;
      Ok (q, if is_bytesT r then F_asUtf8 else F_asUnicode)
  | None, Some l =>
      r <- call l (PStr []) ;;
      Ok (if is_bytesT r then F_bStdConv else F_uStdConv, l)
  | None, None =>
      if b then Ok (F_bStdConv, F_bytesT) else Ok (F_uStdConv, F_unicodeT)
  | Some q, Some l => Ok (q, l)
  end.

(** ** The whitespace controller *)

Module __wsscontroller__.

(** [__wsscontroller__.wsc]: the line feed is left out of the class. *)
Definition wsc : ustr :=
  [0x9; 0xB; 0xC; 0xD; 0x1C; 0x1D; 0x1E; 0x1F; 0x20; 0x85; 0xA0; 0x1680;
   0x2000; 0x2001; 0x2002; 0x2003; 0x2004; 0x2005; 0x2006; 0x2007; 0x2008;
   0x2009; 0x200A; 0x200B; 0x2028; 0x2029; 0x202F; 0x205F; 0x3000].

Definition in_class (cls : ustr) (c : N) : bool := existsb (N.eqb c) cls.

(** [re.compile('^[cls]*').sub('', s)]: the pattern matches once, at the
    start of the text, the longest run of characters of the class. *)
Fixpoint lstrip_class (cls s : ustr) : ustr :=
  match s with
  | [] => []
  | c :: s' => if in_class cls c then lstrip_class cls s' else s
  end.

(** [__wsscontroller__.pats]: the character class of each pattern. *)
Definition pats (k : Z) : option ustr :=
  if (k =? 1)%Z then Some wsc
  else if (k =? 2)%Z then Some (wsc ++ [0xA])
  else None.

(** [self.pats[ws].sub('', s)]. *)
Definition pats_sub (k : Z) (s : pyval) : res ustr :=
  match pats k with
  | None => Raise KeyError
  | Some cls =>
      match s with
      | PStr t | PSafeUnicode t | PIgnore t => Ok (lstrip_class cls t)
      | _ => Raise TypeError
      end
  end.

Record t : Type := { ws : Z }.

(** [__init__] *)
Definition init : t := {| ws := 0 |}.

Definition dnl (self : t) : t * pyval :=
  ({| ws := 1 |}, PIgnore []).

Definition dws (self : t) : t * pyval :=
  ({| ws := 2 |}, PIgnore []).

Definition x (self : t) (s : pyval) : t * pyval :=
  match s with
  | PIgnore _ => (self, s)
  | _ => ({| ws := 0 |}, s)
  end.

(** [__wsscontroller__.c]: [self.ws] is cleared before anything else, so the
    new state is the same whether the rest returns or raises. *)
Definition c (self : t) (s : pyval)
  : t * res pyval :=
  let ws0 := ws self in
  ({| ws := 0 |},
   if (ws0 =? 0)%Z then Ok s
   else
     let b := is_bytesT s in
     s1 <- (if b then asUnicode s else Ok s) ;;
     t <- pats_sub ws0 s1 ;;
     t' <- (if (ws0 =? 1)%Z then
              match t with
              | [] => Raise IndexError
              | c0 :: tl => if c0 =? 0xA then Ok tl else Ok t
              end
            else Ok t) ;;
     if b then asUtf8 (PStr t') else Ok (PStr t')).

End __wsscontroller__.

(** ** Text helpers used by the lexer and the parser *)

(** [c.isspace()], which is also the class [\s] of a [str] pattern. *)
Definition is_space (c : N) : bool :=
  ((9 <=? c) && (c <=? 13)) || ((28 <=? c) && (c <=? 32))
  || (c =? 0x85) || (c =? 0xA0) || (c =? 0x1680)
  || ((0x2000 <=? c) && (c <=? 0x200A))
  || (c =? 0x2028) || (c =? 0x2029) || (c =? 0x202F) || (c =? 0x205F)
  || (c =? 0x3000).

Fixpoint ustr_eqb (a b : ustr) : bool :=
  match a, b with
  | [], [] => true
  | c :: a', d :: b' => (c =? d) && ustr_eqb a' b'
  | _, _ => false
  end.

Definition kind_in (k : ustr) (l : list ustr) : bool := existsb (ustr_eqb k) l.

Fixpoint take_while (p : N -> bool) (s : ustr) : ustr :=
  match s with
  | [] => []
  | c :: s' => if p c then c :: take_while p s' else []
  end.

Fixpoint drop_while (p : N -> bool) (s : ustr) : ustr :=
  match s with
  | [] => []
  | c :: s' => if p c then drop_while p s' else s
  end.

(** [s.strip()] *)
Definition py_strip (s : ustr) : ustr :=
  rev (drop_while is_space (rev (drop_while is_space s))).

(** [s[a:b]] for [0 <= a] and [0 <= b]. *)
Definition slice (s : ustr) (a b : nat) : ustr := firstn (b - a) (skipn a s).

Definition is_empty (s : ustr) : bool :=
  match s with [] => true | _ :: _ => false end.

(** [s.split(sep)] for a separator of one character. *)
Fixpoint split_on (sep : N) (s : ustr) : list ustr :=
  match s with
  | [] => [[]]
  | c :: s' =>
      if c =? sep then [] :: split_on sep s'
      else
        match split_on sep s' with
        | w :: ws => (c :: w) :: ws
        | [] => [[c]]
        end
  end.

(** The alternatives [a|b|c] of a group of keywords, and the words of a
    list written [a b c]. *)
Definition alts (s : string) : list ustr := split_on 124 (u s).
Definition words (s : string) : list ustr := split_on 32 (u s).

(** ** The lexer *)

Record Token : Type := { kind : ustr; start : nat; end_ : nat }.

(** [_pat = re.compile('{{\\s*|}}', re.M)]: one match of [_pat.finditer].
    [m_open] tells the first alternative from the second, that is whether
    [i.group() != '}}']. *)
Record pat_match : Type := { m_start : nat; m_end : nat; m_open : bool }.

(** [_pat.finditer(text)]: the matches from left to right, without overlap.
    [pos] is the offset of the first character of [s]; [skip] counts the
    characters that belong to the match found last. *)
Fixpoint finditer_from (s : ustr) (pos skip : nat) : list pat_match :=
  match s with
  | [] => []
  | _ :: s' =>
      match skip with
      | S k => finditer_from s' (S pos) k
      | O =>
          if starts_with (u "{{") s then
            let n := length (take_while is_space (skipn 1 s')) in
            {| m_start := pos; m_end := pos + 2 + n; m_open := true |}
              :: finditer_from s' (S pos) (S n)
          else if starts_with (u "}}") s then
            {| m_start := pos; m_end := pos + 2; m_open := false |}
              :: finditer_from s' (S pos) 1
          else finditer_from s' (S pos) O
      end
  end.

Definition finditer (text : ustr) : list pat_match := finditer_from text 0 0.

(** What [_s.match(body)] tells the lexer: the alternative that matched and
    the groups the lexer reads.  In the [tdef] alternative both groups are
    never empty (the first holds [def], the second a parenthesis), so the
    test [not m.group('tdefend')] never holds and the groups are left out. *)
Inductive s_match : Type :=
| M_start (t : ustr) (startend : ustr)
| M_tdef
| M_def (t : ustr) (defend : ustr)
| M_end (t : ustr) (endend : option ustr).

(** Where [\s*$] matches under [re.M]: after some white space the text ends
    or a line feed follows. *)
Fixpoint ws_eol (s : ustr) : bool :=
  match s with
  | [] => true
  | c :: s' => (c =? 10) || (is_space c && ws_eol s')
  end.

(** [.*\)\s*$] under [re.DOTALL]: some closing parenthesis is followed by
    white space up to the end of a line. *)
Fixpoint has_close (s : ustr) : bool :=
  match s with
  | [] => false
  | c :: s' => ((c =? 41) && ws_eol s') || has_close s'
  end.

(** The longest [p] such that [w] is [p], a line feed, and more: where
    [\s*] stops when it has to give characters back for [$]. *)
Fixpoint last_nl_prefix (w : ustr) : option ustr :=
  match w with
  | [] => None
  | c :: w' =>
      match last_nl_prefix w' with
      | Some p => Some (c :: p)
      | None => if c =? 10 then Some [] else None
      end
  end.

Fixpoint first_keyword (kws : list ustr) (ok : ustr -> bool) (body : ustr)
  : option (ustr * ustr) :=
  match kws with
  | [] => None
  | kw :: kws' =>
      let rest := skipn (length kw) body in
      if starts_with kw body && ok rest then Some (kw, rest)
      else first_keyword kws' ok body
  end.

Section Lexer.

(** The interpreter is Python 3.10 or later: [match] and [case] exist. *)
Variable isPy310 : bool.

(** [c.isalnum()] for a character outside ASCII, from the Unicode
    database of the interpreter. *)
Variable unicode_isalnum : N -> bool.

Definition is_ascii_letter (c : N) : bool :=
  ((65 <=? c) && (c <=? 90)) || ((97 <=? c) && (c <=? 122)) || (c =? 95).

(** The class [\w] of a [str] pattern. *)
Definition is_word (c : N) : bool :=
  if c <? 128 then is_ascii_letter c || ((48 <=? c) && (c <=? 57))
  else unicode_isalnum c.

Definition start_keywords : list ustr :=
  alts "while|if|elif|for|continue|break|try|except|raise|with|import|from|assert|return"
  ++ (if isPy310 then alts "match|case" else []).

Definition end_keywords : list ustr :=
  alts "else|script|eval|endwhile|endif|endscript|endeval|endfor|finally|endtry|endwith|enddef"
  ++ (if isPy310 then alts "endmatch" else []).

(** [(?P<startend>\s+|$)] *)
Definition startend_ok (rest : ustr) : bool :=
  match rest with
  | [] => true
  | c :: _ => is_space c
  end.

(** [\(.*\)\s*$] *)
Definition m_paren (s : ustr) : bool :=
  match s with
  | c :: s' => (c =? 40) && has_close s'
  | [] => false
  end.

(** [\s*\(.*\)\s*$] *)
Fixpoint m_space (s : ustr) : bool :=
  m_paren s ||
  match s with
  | c :: s' => is_space c && m_space s'
  | [] => false
  end.

(** [\w*\s*\(.*\)\s*$] *)
Fixpoint m_word (s : ustr) : bool :=
  m_space s ||
  match s with
  | c :: s' => is_word c && m_word s'
  | [] => false
  end.

(** The alternative of the groups [tdef] and [tdefend]: the word [def],
    white space, a letter or underscore, then [m_word]. *)
Definition tdef_matches (body : ustr) : bool :=
  starts_with (u "def") body &&
  match drop_while is_space (skipn 3 body) with
  | c :: s' => is_ascii_letter c && m_word s'
  | [] => false
  end.

(** The alternative of the groups [def] and [defend]: the word [def],
    white space, then an opening parenthesis or the end of a line. *)
Definition def_match (body : ustr) : option s_match :=
  if starts_with (u "def") body then
    let w := take_while is_space (skipn 3 body) in
    match drop_while is_space (skipn 3 body) with
    | [] => Some (M_def (u "def" ++ w) [])
    | c :: _ =>
        if c =? 40 then Some (M_def (u "def" ++ w) (u "("))
        else
          match last_nl_prefix w with
          | Some p => Some (M_def (u "def" ++ p) [])
          | None => None
          end
    end
  else None.

(** [_s.match(body)]: the alternatives in the order of the pattern. *)
Definition _s_match (body : ustr) : option s_match :=
  match first_keyword start_keywords startend_ok body with
  | Some (t, rest) => Some (M_start t (take_while is_space rest))
  | None =>
      if tdef_matches body then Some M_tdef
      else
        match def_match body with
        | Some m => Some m
        | None =>
            match first_keyword end_keywords (fun _ => true) body with
            | Some (t, rest) =>
                Some (M_end t (if ws_eol rest then None else Some rest))
            | None => None
            end
        end
  end.

(** [self.__lexerror(msg, pos)] always raises. *)
Definition lexerror {A : Type} (msg : ustr) (pos : nat) : res A :=
  Raise (SyntaxError msg pos).

(** The body of the branch of [__tokenize] where a preppy token is
    finalized: the kind of the tag with text [body] that closes at offset
    [i0], and the new value of [self._defSeen], before the test
    [if not self._defSeen]. *)
Definition classify (defSeen : Z) (body : ustr) (i0 : nat)
  : res (ustr * Z) :=
  match _s_match body with
  | Some (M_start t startend) =>
      if is_empty startend
         && negb (kind_in t (words "continue break try except return raise"))
      then lexerror (u "Bad " ++ t) i0
      else Ok (t, defSeen)
  | Some (M_end t endend) =>
      match endend with
      | Some ee =>
          if negb (is_empty ee) && negb (ustr_eqb t (u "else"))
             && negb (ustr_eqb (py_strip ee) (u ":"))
          then lexerror (u "Bad " ++ t) i0
          else Ok (t, defSeen)
      | None => Ok (t, defSeen)
      end
  | Some (M_def t defend) =>
      if is_empty defend then lexerror (u "Bad " ++ t) i0
      else if negb (defSeen =? 0)%Z then
        if (0 <? defSeen)%Z
        then lexerror (u "Only one def may be used") i0
        else lexerror (u "def must come first") i0
      else Ok (t, 1%Z)
  | Some M_tdef => Ok (u "tdef", defSeen)
  | None => Ok (u "expr", defSeen)
  end.

(** The state of the loop of [__tokenize]: [state], [ix], the tokens in
    reverse order, and [self._defSeen]. *)
Record lexst : Type :=
  { state : bool; ix : nat; rtokens : list Token; defSeen : Z }.

(** One turn of the loop [for i in _pat.finditer(text)]. *)
Definition lex_step (text : ustr) (st : lexst) (i : pat_match) : res lexst :=
  let i0 := m_start i in
  let i1 := m_end i in
  if m_open i then
    if state st then lexerror (u "Unexpected {{") i0
    else
      Ok {| state := true;
            ix := i1;
            rtokens := if negb (i0 =? ix st)%nat
                       then {| kind := u "const"; start := ix st; end_ := i0 |}
                              :: rtokens st
                       else rtokens st;
            defSeen := defSeen st |}
  else if state st then
    r <- classify (defSeen st) (slice text (ix st) i0) i0 ;;
    let '(t, ds) := r in
    Ok {| state := false;
          ix := i1;
          rtokens := if negb (i0 =? ix st)%nat
                     then {| kind := t; start := ix st; end_ := i0 |}
                            :: rtokens st
                     else rtokens st;
          defSeen := if (ds =? 0)%Z then (-1)%Z else ds |}
  else Ok st.

Fixpoint lex_loop (text : ustr) (st : lexst) (ms : list pat_match)
  : res lexst :=
  match ms with
  | [] => Ok st
  | i :: ms' => st' <- lex_step text st i ;; lex_loop text st' ms'
  end.

(** [PreppyParser.__tokenize], on a parser whose [_defSeen] is [ds0]
    ([0] after [__init__]): the tokens and the final [_defSeen]. *)
Definition tokenize_from (ds0 : Z) (text : ustr) : res (list Token * Z) :=
  st <- lex_loop text
          {| state := false; ix := O; rtokens := []; defSeen := ds0 |}
          (finditer text) ;;
  if state st then lexerror (u "Unterminated preppy token") (ix st)
  else
    let textLen := length text in
    let toks := if negb (ix st =? textLen)%nat
                then {| kind := u "const"; start := ix st; end_ := textLen |}
                       :: rtokens st
                else rtokens st in
    Ok (rev ({| kind := u "eof"; start := textLen; end_ := textLen |} :: toks),
        defSeen st).

Definition tokenize (text : ustr) : res (list Token * Z) :=
  tokenize_from 0%Z text.

End Lexer.

(** ** Text helpers of the parser *)

(** [UNESCAPES], and [unescape(s)] with the default table. *)
Definition UNESCAPES : list (ustr * ustr) :=
  [(u "{${", u "{{"); (u "}$}", u "}}"); (u "$$", u "$")].

Definition unescape (s : ustr) : ustr :=
  fold_left (fun acc p => str_replace (fst p) (snd p) acc) UNESCAPES s.

(** [s.find(sub)], with [None] for [-1]. *)
Fixpoint str_find_from (sub s : ustr) (pos : nat) : option nat :=
  if starts_with sub s then Some pos
  else
    match s with
    | [] => None
    | _ :: s' => str_find_from sub s' (S pos)
    end.

Definition str_find (sub s : ustr) : option nat := str_find_from sub s 0.

(** ['\n'.join(lines)] *)
Fixpoint join_lines (lines : list ustr) : ustr :=
  match lines with
  | [] => []
  | [l] => l
  | l :: ls => l ++ 10 :: join_lines ls
  end.

(** A line that is blank or a comment, for [dedent]. *)
Definition blank_or_comment (l : ustr) : bool :=
  match py_strip l with
  | [] => true
  | c0 :: _ => c0 =? 35
  end.

(** The number of lines the first loop of [dedent] deletes. *)
Fixpoint count_blank (lines : list ustr) : nat :=
  match lines with
  | [] => O
  | l :: ls => if blank_or_comment l then S (count_blank ls) else O
  end.

Fixpoint dedent_lines (indent : ustr) (ffw : nat) (lines : list ustr)
  : res (list ustr) :=
  match lines with
  | [] => Ok []
  | l :: ls =>
      if blank_or_comment l then
        r <- dedent_lines indent ffw ls ;; Ok ([] :: r)
      else if negb (ustr_eqb (firstn ffw l) indent) then
        Raise (ValueError (u "inconsistent indent"))
      else
        r <- dedent_lines indent ffw ls ;; Ok (skipn ffw l :: r)
  end.

(** [dedent(text)]: the indentation of the first line that holds code is
    taken off every line; blank lines and comments become empty lines. *)
Definition dedent (text : ustr) : res (nat * ustr) :=
  let lines := split_on 10 text in
  let lempty := count_blank lines in
  match skipn lempty lines with
  | [] => Ok (O, [])
  | (line0 :: _) as lines' =>
      let word := take_while (fun c => negb (is_space c)) (py_strip line0) in
      match str_find word line0 with
      | None => Raise (ValueError (u "internal dedenting error"))
      | Some findfirstword =>
          let indent := firstn findfirstword line0 in
          linesout <- dedent_lines indent findfirstword lines' ;;
          Ok (length indent, join_lines (repeat [] lempty ++ linesout))
      end
  end.

(** ** The parser *)

Section Parser.

Variable isPy310 : bool.
Variable unicode_isalnum : N -> bool.

(** The statements of Python's [ast], and [ast.parse(text, mode='exec')]
    of the interpreter: the statements of the body, or [None] for a
    [SyntaxError].  [has_value n] tells whether the node has an attribute
    [value]. *)
Variable pystmt : Type.
Variable ast_parse : ustr -> option (list pystmt).
Variable has_value : pystmt -> bool.

(** The statement tree.  Positions ([__renumber],
    [_transfer_end_attributes]) are not kept. *)
Inductive pnode : Type :=
| N_const (text : ustr)
| N_expr (e : pystmt)
| N_raw (s : pystmt)
| N_eval (ss : list pystmt)
| N_pass
| N_break
| N_continue
| N_return_empty
| N_block (hdr : pystmt) (body orelse : list pnode)
| N_try (body : list pnode) (handlers : list (pystmt * list pnode))
        (orelse finalbody : list pnode)
| N_match (hdr : pystmt) (cases : list pnode)
| N_case (hdr : pystmt) (body : list pnode).

(** The fields of a [PreppyParser] that parsing reads or writes. *)
Record parser : Type :=
  { source : ustr;
    _tokens : list Token;
    _tokenX : Z;
    _defSeen : Z;
    __inFor : Z;
    __inWhile : Z;
    __inMatch : Z;
    __inCase : Z;
    __inTdef : list (Z * Z);
    _fnc_defn : option (Token * pystmt) }.

Definition set_tokenX (p : parser) (v : Z) : parser :=
  {| source := source p; _tokens := _tokens p; _tokenX := v;
     _defSeen := _defSeen p; __inFor := __inFor p; __inWhile := __inWhile p;
     __inMatch := __inMatch p; __inCase := __inCase p;
     __inTdef := __inTdef p; _fnc_defn := _fnc_defn p |}.

Definition set_loops (p : parser) (w f : Z) : parser :=
  {| source := source p; _tokens := _tokens p; _tokenX := _tokenX p;
     _defSeen := _defSeen p; __inFor := f; __inWhile := w;
     __inMatch := __inMatch p; __inCase := __inCase p;
     __inTdef := __inTdef p; _fnc_defn := _fnc_defn p |}.

Definition set_inMatch (p : parser) (v : Z) : parser :=
  {| source := source p; _tokens := _tokens p; _tokenX := _tokenX p;
     _defSeen := _defSeen p; __inFor := __inFor p; __inWhile := __inWhile p;
     __inMatch := v; __inCase := __inCase p;
     __inTdef := __inTdef p; _fnc_defn := _fnc_defn p |}.

Definition set_inCase (p : parser) (v : Z) : parser :=
  {| source := source p; _tokens := _tokens p; _tokenX := _tokenX p;
     _defSeen := _defSeen p; __inFor := __inFor p; __inWhile := __inWhile p;
     __inMatch := __inMatch p; __inCase := v;
     __inTdef := __inTdef p; _fnc_defn := _fnc_defn p |}.

Definition set_inTdef (p : parser) (v : list (Z * Z)) : parser :=
  {| source := source p; _tokens := _tokens p; _tokenX := _tokenX p;
     _defSeen := _defSeen p; __inFor := __inFor p; __inWhile := __inWhile p;
     __inMatch := __inMatch p; __inCase := __inCase p;
     __inTdef := v; _fnc_defn := _fnc_defn p |}.

Definition set_fnc_defn (p : parser) (v : Token * pystmt) : parser :=
  {| source := source p; _tokens := _tokens p; _tokenX := _tokenX p;
     _defSeen := _defSeen p; __inFor := __inFor p; __inWhile := __inWhile p;
     __inMatch := __inMatch p; __inCase := __inCase p;
     __inTdef := __inTdef p; _fnc_defn := Some v |}.

(** [self._tokens[i]], with Python's negative indices. *)
Definition token_at (p : parser) (i : Z) : res Token :=
  let n := Z.of_nat (length (_tokens p)) in
  let j := if (i <? 0)%Z then (i + n)%Z else i in
  if (j <? 0)%Z then Raise IndexError
  else
    match nth_error (_tokens p) (Z.to_nat j) with
    | Some t => Ok t
    | None => Raise IndexError
    end.

Definition cur_kind (p : parser) : res ustr :=
  t <- token_at p (_tokenX p) ;; Ok (kind t).

Definition ends_with (c : N) (s : ustr) : bool :=
  match rev s with
  | d :: _ => d =? c
  | [] => false
  end.

(** [self.__tokenText(colonRemove, strip, forceColonPass)] *)
Definition tokenText (p : parser) (colonRemove strip : bool)
  (forceColonPass : Z) : res ustr :=
  t <- token_at p (_tokenX p) ;;
  let text := slice (source p) (start t) (end_ t) in
  let text := if strip then py_strip text else text in
  let text :=
    if colonRemove || negb (forceColonPass =? 0)%Z then
      let text := if ends_with 58 text then removelast text else text in
      if (forceColonPass =? 3)%Z then
        u "match None:" ++ [10; 9] ++ text ++ u ":" ++ [10; 9; 9] ++ u "pass"
      else if (forceColonPass =? 2)%Z then
        text ++ u ":" ++ [10; 9] ++ u "case _:" ++ [10; 9; 9] ++ u "pass"
             ++ [10]
      else if negb (forceColonPass =? 0)%Z then
        text ++ u ":" ++ [9] ++ u "pass" ++ [10]
      else text
    else text in
  Ok (unescape text).

(** [self.__tokenPop()] *)
Definition tokenPop (p : parser) : res (Token * parser) :=
  t <- token_at p (_tokenX p) ;;
  Ok (t, set_tokenX p (_tokenX p + 1)%Z).

(** [self.__rparse(text)], for a text source. *)
Definition rparse (text : ustr) : res (list pystmt) :=
  match ast_parse text with
  | Some tf => Ok tf
  | None =>
      let s := py_strip text in
      if negb (kind_in s [u ".dnl"; u ".dws"]) then Raise AstSyntaxError
      else
        match ast_parse (u "__wss__" ++ s ++ u "()") with
        | Some tf => Ok tf
        | None => Raise AstSyntaxError
        end
  end.

(** [self.__iparse(text)] *)
Definition iparse (text : ustr) : res pystmt :=
  tf <- rparse text ;;
  match tf with
  | n :: _ => Ok n
  | [] => Raise IndexError
  end.

(** [self.__serror(msg)] and [self.__error(msg)]; both always raise. *)
Definition serror {A : Type} (p : parser) (msg : ustr) : res A :=
  t <- token_at p (_tokenX p) ;; lexerror (A := A) msg (start t).

Definition error {A : Type} (p : parser) (msg : ustr) : res A :=
  t <- token_at p (_tokenX p) ;; Raise (ErrorSyntaxError msg (start t)).

(** [try: r  except: self.__error(msg)] *)
Definition or_error {A : Type} (p : parser) (msg : ustr) (r : res A)
  : res A :=
  match r with
  | Ok v => Ok v
  | Raise _ => error p msg
  end.

Definition invalid_syntax : ustr := u "invalid syntax".

(** [not self.__inTdef] *)
Definition is_empty_stack (l : list (Z * Z)) : bool :=
  match l with [] => true | _ :: _ => false end.

(** *** Handlers that parse a single directive *)

Definition __def (p : parser) : res (list pnode * parser) :=
  n <- or_error p invalid_syntax
         (text <- tokenText p false true 1 ;;
          iparse (u "def get" ++ skipn 3 (py_strip text))) ;;
  r <- tokenPop p ;;
  let '(t, p) := r in
  Ok ([], set_fnc_defn p (t, n)).

Definition __return (p : parser) : res (list pnode * parser) :=
  _ <- (if is_empty_stack (__inTdef p)
        then serror p (u "return statement outside while or for loop")
        else Ok tt) ;;
  text <- tokenText p false true 0 ;;
  n <- or_error p invalid_syntax (rparse text) ;;
  r <- tokenPop p ;;
  let '(_, p) := r in
  Ok (map N_raw n, p).

Definition __break (stmt : ustr) (p : parser) : res (list pnode * parser) :=
  text <- tokenText p false true 0 ;;
  _ <- (if negb (ustr_eqb text stmt)
        then serror p (u "invalid " ++ stmt ++ u " statement")
        else if (__inWhile p =? 0)%Z && (__inFor p =? 0)%Z
        then serror p (stmt ++ u " statement outside while or for loop")
        else Ok tt) ;;
  r <- tokenPop p ;;
  let '(_, p) := r in
  Ok ([if ustr_eqb stmt (u "break") then N_break else N_continue], p).

Definition __continue (p : parser) : res (list pnode * parser) :=
  __break (u "continue") p.

Definition __raise (p : parser) : res (list pnode * parser) :=
  text <- tokenText p false true 0 ;;
  n <- or_error p invalid_syntax (rparse text) ;;
  r <- tokenPop p ;;
  let '(_, p) := r in
  Ok (map N_raw n, p).

Definition __import (p : parser) : res (list pnode * parser) :=
  text <- tokenText p false true 0 ;;
  n <- or_error p invalid_syntax (iparse text) ;;
  r <- tokenPop p ;;
  let '(_, p) := r in
  Ok ([N_raw n], p).

Definition __from := __import.
Definition __assert := __import.

Definition __script (mode : ustr) (p : parser) : res (list pnode * parser) :=
  let end_kw := u "end" ++ mode in
  r <- tokenPop p ;;
  let '(_, p) := r in
  k <- cur_kind p ;;
  if ustr_eqb k end_kw then
    r <- tokenPop p ;;
    let '(_, p) := r in
    Ok ([], p)
  else
    raw <- tokenText p false false 0 ;;
    d <- dedent raw ;;
    let text := snd d in
    n <- (if negb (is_empty text)
          then or_error p invalid_syntax (rparse text)
          else Ok []) ;;
    r <- tokenPop p ;;
    let '(_, p) := r in
    p <- or_error p (end_kw ++ u " expected")
           (k <- cur_kind p ;;
            if ustr_eqb k end_kw
            then (r <- tokenPop p ;; Ok (snd r))
            else Raise AssertionError) ;;
    if is_empty text then Ok ([], p)
    else if ustr_eqb mode (u "eval") then Ok ([N_eval n], p)
    else Ok (map N_raw n, p).

Definition __eval (p : parser) : res (list pnode * parser) :=
  __script (u "eval") p.

Definition __const (p : parser) : res (list pnode * parser) :=
  text <- or_error p (u "bad constant") (tokenText p false false 0) ;;
  r <- tokenPop p ;;
  let '(_, p) := r in
  Ok ([N_const text], p).

Definition __expr (p : parser) : res (list pnode * parser) :=
  t <- tokenText p false true 0 ;;
  n <- or_error p (u "bad expression")
         (tf <- rparse t ;;
          match tf with
          | e :: _ => if has_value e then Ok e else Raise AttributeError
          | [] => Raise IndexError
          end) ;;
  r <- tokenPop p ;;
  let '(_, p) := r in
  Ok ([N_expr n], p).

(** *** Handlers that parse a body

    [__preppy] and the handlers with a body call each other.  Each
    routine is written over [rec], which stands for the routines
    themselves; [run_task] closes the recursion. *)

Inductive task : Type :=
| T_preppy (followers : list ustr) (pop fixEmpty : bool)
| T_loop (followers : list ustr)
| T_if
| T_try_loop (body : list pnode) (handlers : list (pystmt * list pnode))
             (orelse : list pnode)
| T_match_skip
| T_case_loop.

Definition funcs : list ustr :=
  words "const expr while if for script eval def continue break try raise with import from assert tdef return"
  ++ (if isPy310 then words "match case" else []).

Section Routines.

Variable rec : task -> parser -> res (list pnode * parser).

Definition preppy (followers : list ustr) (pop fixEmpty : bool)
  (p : parser) : res (list pnode * parser) :=
  rec (T_preppy followers pop fixEmpty) p.

Definition __tdef (p : parser) : res (list pnode * parser) :=
  let saved := (__inWhile p, __inFor p) in
  let p := set_inTdef p (__inTdef p ++ [saved]) in
  let p := set_loops p 0 0 in
  n <- or_error p invalid_syntax
         (text <- tokenText p false true 1 ;; iparse (py_strip text)) ;;
  r <- tokenPop p ;;
  let '(_, p) := r in
  r <- preppy [u "enddef"] true true p ;;
  let '(body, p) := r in
  match rev (__inTdef p) with
  | [] => Raise IndexError
  | (w, f) :: rest =>
      let p := set_inTdef p (rev rest) in
      let p := set_loops p w f in
      Ok ([N_block n (body ++ [N_return_empty]) []], p)
  end.

(** The [else] clause of [__while] and [__for], read after the body:
    [tokens[self._tokenX-1].kind == 'else']. *)
Definition loop_orelse (end_kw : ustr) (p : parser)
  : res (list pnode * parser) :=
  t <- token_at p (_tokenX p - 1)%Z ;;
  if ustr_eqb (kind t) (u "else")
  then preppy [end_kw] true false p
  else Ok ([], p).

Definition __while (p : parser) : res (list pnode * parser) :=
  let p := set_loops p (__inWhile p + 1)%Z (__inFor p) in
  n <- or_error p invalid_syntax
         (text <- tokenText p false true 1 ;; iparse text) ;;
  r <- tokenPop p ;;
  let '(_, p) := r in
  r <- preppy [u "endwhile"; u "else"] true true p ;;
  let '(body, p) := r in
  r <- loop_orelse (u "endwhile") p ;;
  let '(orelse, p) := r in
  Ok ([N_block n body orelse],
      set_loops p (__inWhile p - 1)%Z (__inFor p)).

Definition __for (p : parser) : res (list pnode * parser) :=
  let p := set_loops p (__inWhile p) (__inFor p + 1)%Z in
  n <- or_error p invalid_syntax
         (text <- tokenText p false true 1 ;; iparse text) ;;
  r <- tokenPop p ;;
  let '(_, p) := r in
  r <- preppy [u "endfor"; u "else"] true true p ;;
  let '(body, p) := r in
  r <- loop_orelse (u "endfor") p ;;
  let '(orelse, p) := r in
  Ok ([N_block n body orelse],
      set_loops p (__inWhile p) (__inFor p - 1)%Z).

Definition __with (p : parser) : res (list pnode * parser) :=
  n <- or_error p invalid_syntax
         (text <- tokenText p false true 1 ;; iparse text) ;;
  r <- tokenPop p ;;
  let '(_, p) := r in
  r <- preppy [u "endwith"] true true p ;;
  let '(body, p) := r in
  Ok ([N_block n body []], p).

(** One turn of the loop [while k=='elif'] of [__if], and what follows
    it.  The [if] of the next turn becomes the [orelse] of this one. *)
Definition if_turn (p : parser) : res (list pnode * parser) :=
  n <- or_error p invalid_syntax
         (text <- tokenText p false true 1 ;;
          let text := if starts_with (u "elif") text
                      then u "if  " ++ skipn 4 text else text in
          iparse text) ;;
  r <- tokenPop p ;;
  let '(_, p) := r in
  r <- preppy [u "endif"; u "elif"; u "else"] true true p ;;
  let '(body, p) := r in
  t <- token_at p (_tokenX p - 1)%Z ;;
  let k := kind t in
  if ustr_eqb k (u "elif") then
    r <- rec T_if (set_tokenX p (_tokenX p - 1)%Z) ;;
    let '(rest, p) := r in
    Ok ([N_block n body rest], p)
  else if ustr_eqb k (u "else") then
    r <- preppy [u "endif"] true false p ;;
    let '(orelse, p) := r in
    Ok ([N_block n body orelse], p)
  else Ok ([N_block n body []], p).

Definition __if (p : parser) : res (list pnode * parser) := rec T_if p.

(** One turn of the loop [while 1] of [__try]. *)
Definition try_turn (body : list pnode)
  (handlers : list (pystmt * list pnode)) (orelse : list pnode)
  (p : parser) : res (list pnode * parser) :=
  text <- tokenText p true true 0 ;;
  r <- tokenPop p ;;
  let '(_, p) := r in
  if starts_with (u "endtry") text then
    if negb (ustr_eqb text (u "endtry"))
    then error p (u "invalid endtry statement")
    else Ok ([N_try body handlers orelse []], p)
  else if starts_with (u "finally") text then
    _ <- (if negb (ustr_eqb text (u "finally"))
          then error p (u "invalid finally statement") else Ok tt) ;;
    r <- preppy [u "endtry"] true false p ;;
    let '(finalbody, p) := r in
    Ok ([N_try body handlers orelse finalbody], p)
  else if starts_with (u "else") text then
    _ <- (if negb (ustr_eqb text (u "else"))
          then error p (u "invalid else statement") else Ok tt) ;;
    r <- preppy [u "finally"; u "endtry"] false false p ;;
    let '(orelse, p) := r in
    rec (T_try_loop body handlers orelse) p
  else if starts_with (u "except") text then
    exh <- iparse (u "try:" ++ [10; 9] ++ u "pass" ++ [10] ++ text
                     ++ u ":" ++ [10; 9] ++ u "pass" ++ [10]) ;;
    let F := if ustr_eqb text (u "except")
             then words "finally else endtry"
             else words "except finally endtry else" in
    r <- preppy F false true p ;;
    let '(hbody, p) := r in
    rec (T_try_loop body (handlers ++ [(exh, hbody)]) orelse) p
  else Raise AttributeError.

Definition __try (p : parser) : res (list pnode * parser) :=
  text <- tokenText p true true 0 ;;
  _ <- (if negb (ustr_eqb text (u "try"))
        then serror p (u "invalid try statement") else Ok tt) ;;
  r <- tokenPop p ;;
  let '(_, p) := r in
  r <- preppy [u "except"; u "finally"] false true p ;;
  let '(body, p) := r in
  rec (T_try_loop body [] []) p.

(** The loop of [__match] over the literal text that follows the
    header: only white space may stand there.  The message of the error
    is kept without the text it quotes. *)
Definition match_skip (p : parser) : res (list pnode * parser) :=
  t <- token_at p (_tokenX p) ;;
  if negb (ustr_eqb (kind t) (u "const")) then Ok ([], p)
  else
    let ss := py_strip (slice (source p) (start t) (end_ t)) in
    _ <- (if negb (is_empty ss)
          then serror p (u "unexpected text in start of match")
          else Ok tt) ;;
    r <- tokenPop p ;;
    rec T_match_skip (snd r).

Definition __match (p : parser) : res (list pnode * parser) :=
  let p := set_inMatch p (__inMatch p + 1)%Z in
  n <- or_error p invalid_syntax
         (text <- tokenText p false true 2 ;; iparse text) ;;
  r <- tokenPop p ;;
  let '(_, p) := r in
  r <- rec T_match_skip p ;;
  let '(_, p) := r in
  r <- preppy [u "endmatch"] true true p ;;
  let '(cases, p) := r in
  Ok ([N_match n cases], set_inMatch p (__inMatch p - 1)%Z).

(** One turn of the loop [while True] of [__case]. *)
Definition case_turn (p : parser) : res (list pnode * parser) :=
  t <- token_at p (_tokenX p) ;;
  if negb (ustr_eqb (kind t) (u "case")) then Ok ([], p)
  else
    n <- or_error p invalid_syntax
           (text <- tokenText p false true 3 ;; iparse text) ;;
    r <- tokenPop p ;;
    let '(_, p) := r in
    r <- preppy [u "case"; u "endmatch"] false true p ;;
    let '(body, p) := r in
    r <- rec T_case_loop p ;;
    let '(rest, p) := r in
    Ok (N_case n body :: rest, p).

Definition __case (p : parser) : res (list pnode * parser) :=
  let p := set_inCase p (__inCase p + 1)%Z in
  r <- rec T_case_loop p ;;
  let '(cases, p) := r in
  Ok (cases, set_inCase p (__inCase p - 1)%Z).

(** [getattr(self, mangle+t)] for a kind [t] of [funcs]. *)
Definition handler (t : ustr) (p : parser) : res (list pnode * parser) :=
  if ustr_eqb t (u "const") then __const p
  else if ustr_eqb t (u "expr") then __expr p
  else if ustr_eqb t (u "while") then __while p
  else if ustr_eqb t (u "if") then __if p
  else if ustr_eqb t (u "for") then __for p
  else if ustr_eqb t (u "script") then __script (u "script") p
  else if ustr_eqb t (u "eval") then __eval p
  else if ustr_eqb t (u "def") then __def p
  else if ustr_eqb t (u "continue") then __continue p
  else if ustr_eqb t (u "break") then __break (u "break") p
  else if ustr_eqb t (u "try") then __try p
  else if ustr_eqb t (u "raise") then __raise p
  else if ustr_eqb t (u "with") then __with p
  else if ustr_eqb t (u "import") then __import p
  else if ustr_eqb t (u "from") then __from p
  else if ustr_eqb t (u "assert") then __assert p
  else if ustr_eqb t (u "tdef") then __tdef p
  else if ustr_eqb t (u "return") then __return p
  else if ustr_eqb t (u "match") then __match p
  else if ustr_eqb t (u "case") then __case p
  else Raise AttributeError.

(** The loop [while 1] of [__preppy]: the nodes read up to a follower. *)
Definition preppy_loop (followers : list ustr) (p : parser)
  : res (list pnode * parser) :=
  t <- cur_kind p ;;
  if kind_in t followers then Ok ([], p)
  else
    r <- (if kind_in t funcs then handler t p
          else serror p invalid_syntax) ;;
    let '(nodes, p) := r in
    r <- rec (T_loop followers) p ;;
    let '(more, p) := r in
    Ok (nodes ++ more, p).

(** [self.__preppy(followers=..., pop=..., fixEmpty=...)] *)
Definition preppy_body (followers : list ustr) (pop fixEmpty : bool)
  (p : parser) : res (list pnode * parser) :=
  r <- rec (T_loop followers) p ;;
  let '(C, p) := r in
  let C := match C with
           | [] => if fixEmpty then [N_pass] else []
           | _ :: _ => C
           end in
  if pop then (r <- tokenPop p ;; Ok (C, snd r)) else Ok (C, p).

Definition run_step (t : task) (p : parser) : res (list pnode * parser) :=
  match t with
  | T_preppy followers pop fixEmpty => preppy_body followers pop fixEmpty p
  | T_loop followers => preppy_loop followers p
  | T_if => if_turn p
  | T_try_loop body handlers orelse => try_turn body handlers orelse p
  | T_match_skip => match_skip p
  | T_case_loop => case_turn p
  end.

End Routines.

Fixpoint run_task (fuel : nat) (t : task) (p : parser)
  : res (list pnode * parser) :=
  match fuel with
  | O => Raise OutOfFuel
  | S fuel' => run_step (run_task fuel') t p
  end.

(** [PreppyParser.__init__], then the assignments of [__tokenize]. *)
Definition parser_init (text : ustr) (toks : list Token) (ds : Z) : parser :=
  {| source := text; _tokens := toks; _tokenX := 0; _defSeen := ds;
     __inFor := 0; __inWhile := 0; __inMatch := 0; __inCase := 0;
     __inTdef := []; _fnc_defn := None |}.

(** The recursion is bounded by the number of tokens: each call that
    nests consumes a token first. *)
Definition parse_fuel (toks : list Token) : nat := 4 * length toks + 4.

(** [PreppyParser.__parse()] on a new parser for [text]. *)
Definition parse (text : ustr) : res (list pnode * parser) :=
  r <- tokenize isPy310 unicode_isalnum text ;;
  let '(toks, ds) := r in
  run_task (parse_fuel toks) (T_preppy [u "eof"] true false)
    (parser_init text toks ds).

End Parser.

(** ** The generated [run] procedure of a plain template

    [_preamble] is the text of the procedure [run] that every plain template
    module holds.  What a call writes is kept in a log: each entry names the
    sink that received a value. *)

Inductive sink : Type :=
| Callback        (* the [__write__] argument *)
| OutputFile      (* [outputfile.write] *)
| SysStdout.      (* [sys.stdout.write] *)

(** One call made by the compiled body [__code__]: [__write__(text)] for a
    literal (bound to [__lwrite__]) or [__swrite__(value)] for an
    expression, whose value is given, or is the result of a call to the
    whitespace controller. *)
Inductive write_op : Type :=
| Op_literal (text : pyval)
| Op_expr (value : pyval)
| Op_dnl          (* the directive [.dnl]: [__swrite__(__wss__.dnl())] *)
| Op_dws.         (* the directive [.dws]: [__swrite__(__wss__.dws())] *)

Module Run.

Record args : Type :=
  { dictionary : gmap (list N) pyval;
    __write__ : bool;               (* a callback is supplied *)
    quoteFunc : option convfn;
    outputfile : option bool;       (* [Some b]: an object of truth value [b] *)
    lquoteFunc : option convfn }.

Record state : Type :=
  { written : list (sink * pyval);  (* in the order of the calls *)
    wss : __wsscontroller__.t }.

Definition write (target : sink) (v : pyval) (st : state) : state :=
  {| written := written st ++ [(target, v)]; wss := wss st |}.

(** [__swrite__ = lambda x: __write__(qFunc(__wss__.x(x)))] *)
Definition __swrite__ (target : sink) (qFunc : convfn) (v : pyval)
  (st : state) : res unit * state :=
  let '(w, v') := __wsscontroller__.x (wss st) v in
  let st := {| written := written st; wss := w |} in
  match call qFunc v' with
  | Ok o => (Ok tt, write target o st)
  | Raise e => (Raise e, st)
  end.

(** [__lwrite__ = lambda x: __write__(lconv(__wss__.c(x)))] *)
Definition __lwrite__ (target : sink) (lconv : convfn) (v : pyval)
  (st : state) : res unit * state :=
  let '(w, r) := __wsscontroller__.c (wss st) v in
  let st := {| written := written st; wss := w |} in
  match (v' <- r ;; call lconv v') with
  | Ok o => (Ok tt, write target o st)
  | Raise e => (Raise e, st)
  end.

Fixpoint __code__ (target : sink) (qFunc lconv : convfn)
  (body : list write_op) (st : state) : res unit * state :=
  match body with
  | [] => (Ok tt, st)
  | op :: body' =>
      let '(r, st) :=
        match op with
        | Op_literal t => __lwrite__ target lconv t st
        | Op_expr v => __swrite__ target qFunc v st
        | Op_dnl =>
            let '(w, v) := __wsscontroller__.dnl (wss st) in
            __swrite__ target qFunc v {| written := written st; wss := w |}
        | Op_dws =>
            let '(w, v) := __wsscontroller__.dws (wss st) in
            __swrite__ target qFunc v {| written := written st; wss := w |}
        end in
      match r with
      | Ok _ => __code__ target qFunc lconv body' st
      | Raise e => (Raise e, st)
      end
  end.

Definition both_message : ustr :=
  u "do not define both outputfile and __write__".

(** [run(dictionary, __write__, quoteFunc, outputfile, lquoteFunc)] of a
    template whose source is bytes or not ([isbytes]) and whose compiled
    body makes the calls [body].  The result comes with everything that
    was written.  The redirection of [sys.stdout] asked for by
    [__preppyOverrideStdout__] only matters to [print] calls of scripts
    and is undone by the [finally] clause; it is left out. *)
Definition run (isbytes : bool) (body : list write_op) (a : args)
  : res unit * state :=
  let st := {| written := []; wss := __wsscontroller__.init |} in
  match __get_conv__ (quoteFunc a) (lquoteFunc a) isbytes with
  | Raise e => (Raise e, st)
  | Ok (qFunc, lconv) =>
      if __write__ a then
        match outputfile a with
        | Some _ => (Raise (ValueError both_message), st)
        | None => __code__ Callback qFunc lconv body st
        end
      else
        match outputfile a with
        | Some true => __code__ OutputFile qFunc lconv body st
        | _ => __code__ SysStdout qFunc lconv body st
        end
  end.

End Run.

(** ** The module cache: [getModule]

    The modules live in a store and are named by their address, so that
    two results can be compared as objects.  The file system, the loader
    of compiled files and the compiler proper are parameters; every use of
    the file system and every compilation is recorded in a log. *)

Module Cache.

(** The key of a source text in [SOURCE_MODULES]: a [str] or a [bytes]
    value, which never compare equal. *)
Definition text_key (s : pyval) : option (bool * list N) :=
  match s with
  | PStr t | PSafeUnicode t | PIgnore t => Some (false, t)
  | PBytes b | PSafeString b => Some (true, map Byte.to_N b)
  | _ => None
  end.

Section GetModule.

(** [hashlib.md5(b).hexdigest()] *)
Variable md5_hexdigest : bstr -> ustr.

(** The code object [P.codeobject] minus the assignment of
    [__checksum__] it starts with, and [PreppyParser(source, filename,
    checksum).compile(0)] as far as that remainder goes. *)
Variable code_body : Type.
Variable compile_body : pyval -> ustr -> res code_body.

(** [os.path]: [split], [isabs], [abspath(normpath(_))], [splitext]
    and [join]. *)
Variable path_split : ustr -> ustr * ustr.
Variable path_isabs : ustr -> bool.
Variable path_abs_norm : ustr -> ustr.
Variable path_splitext : ustr -> ustr * ustr.
Variable path_join : ustr -> ustr -> ustr.

Definition VERSION : ustr := u "4.3.0".

Record codeobject : Type :=
  { co_checksum : ustr; co_body : code_body }.

(** A module object after [rl_exec(P.codeobject, module.__dict__)]. *)
Record module : Type :=
  { mod_name : option ustr;
    mod_file : option ustr;
    mod_code : codeobject }.

Definition __checksum__ (m : module) : ustr := co_checksum (mod_code m).

(** The storage layer.  [rl_get_module name dir] is the module found
    for a compiled file that is present and not older than the
    compiler; [open_source] reads a source file; [write_pyc] writes a
    compiled file and can fail. *)
Variable disk : Type.
Variable rl_get_module : disk -> ustr -> ustr -> option module.
Variable open_source : disk -> ustr -> option ustr.
Variable write_pyc : disk -> ustr -> codeobject -> option disk.

Inductive event : Type :=
| Ev_load (name dir : ustr)
| Ev_read (path : ustr)
| Ev_write (path : ustr)
| Ev_compile (filename : ustr).

Record world : Type :=
  { SOURCE_MODULES : gmap (bool * list N) nat;
    FILE_MODULES : gmap (list N) nat;
    store : gmap nat module;
    next : nat;
    the_disk : disk;
    log : list event }.

Definition add_event (e : event) (w : world) : world :=
  {| SOURCE_MODULES := SOURCE_MODULES w; FILE_MODULES := FILE_MODULES w;
     store := store w; next := next w; the_disk := the_disk w;
     log := log w ++ [e] |}.

Definition set_disk (d : disk) (w : world) : world :=
  {| SOURCE_MODULES := SOURCE_MODULES w; FILE_MODULES := FILE_MODULES w;
     store := store w; next := next w; the_disk := d; log := log w |}.

Definition set_source_module (k : bool * list N) (r : nat) (w : world)
  : world :=
  {| SOURCE_MODULES := <[k := r]> (SOURCE_MODULES w);
     FILE_MODULES := FILE_MODULES w;
     store := store w; next := next w; the_disk := the_disk w;
     log := log w |}.

Definition set_file_module (k : ustr) (r : nat) (w : world) : world :=
  {| SOURCE_MODULES := SOURCE_MODULES w;
     FILE_MODULES := <[k := r]> (FILE_MODULES w);
     store := store w; next := next w; the_disk := the_disk w;
     log := log w |}.

(** A new module object, or the one given as [_existing_module] with
    its dictionary cleared, filled by running the code. *)
Definition put_module (existing : option nat) (m : module) (w : world)
  : nat * world :=
  match existing with
  | Some r =>
      (r, {| SOURCE_MODULES := SOURCE_MODULES w;
             FILE_MODULES := FILE_MODULES w;
             store := <[r := m]> (store w); next := next w;
             the_disk := the_disk w; log := log w |})
  | None =>
      (next w, {| SOURCE_MODULES := SOURCE_MODULES w;
                  FILE_MODULES := FILE_MODULES w;
                  store := <[next w := m]> (store w);
                  next := S (next w);
                  the_disk := the_disk w; log := log w |})
  end.

Definition bytes_of (v : pyval) : bstr :=
  match v with
  | PBytes b | PSafeString b => b
  | _ => []
  end.

(** [getMd5(s)] *)
Definition getMd5 (s : pyval) : res ustr :=
  a <- asUtf8 s ;;
  b <- asUtf8 (PStr VERSION) ;;
  Ok (md5_hexdigest (bytes_of a ++ bytes_of b)).

(** The [name] argument: a name, or an object with a [read] method,
    given by what [read()] returns and by its attribute [name]. *)
Inductive name_arg : Type :=
| Name_str (s : ustr)
| Name_file (content : pyval) (name_attr : option ustr).

Record args : Type :=
  { name : name_arg;
    directory : ustr;
    source_extension : ustr;
    savefile : bool;
    sourcetext : option pyval;
    force : Z;
    savePyc : Z;
    importModule : Z;
    _existing_module : option nat }.

(** The part of [getModule] that rebuilds the module from source. *)
Definition rebuild (a : args) (name : ustr) (dir : option ustr)
  (savePyc : Z) (sourcetext : pyval) (sourcefilename sourcechecksum : ustr)
  (nosourcefile : bool) (w : world) : res nat * world :=
  let w := add_event (Ev_compile sourcefilename) w in
  match compile_body sourcetext sourcefilename with
  | Raise e => (Raise e, w)
  | Ok body =>
      let code := {| co_checksum := sourcechecksum; co_body := body |} in
      let saved :=
        if negb (savePyc =? 0)%Z then
          match dir with
          | None => (Raise UnboundLocalError, w)
          | Some d =>
              let pycPath := path_join d (name ++ u ".pyc") in
              let w := add_event (Ev_write pycPath) w in
              match write_pyc (the_disk w) pycPath code with
              | None => (Raise OSError, w)
              | Some d' => (Ok (Some pycPath), set_disk d' w)
              end
          end
        else (Ok None, w) in
      match saved with
      | (Raise e, w) => (Raise e, w)
      | (Ok pycPath, w) =>
          let m := {| mod_name := Some name; mod_file := pycPath;
                      mod_code := code |} in
          let '(r, w) := put_module (_existing_module a) m w in
          let w :=
            if negb (importModule a =? 0)%Z then
              if nosourcefile then
                match text_key sourcetext with
                | Some k => set_source_module k r w
                | None => w
                end
              else set_file_module sourcefilename r w
            else w in
          (Ok r, w)
      end
  end.

(** The first part of [getModule]: the source text that was fed, if
    any, the name of the module, the directory [dir] (not assigned
    when [name] is an object with a [read] method) and [savePyc]. *)
Definition resolve (a : args)
  : res (option pyval * ustr * option ustr * Z) :=
  sourcetext0 <-
    match sourcetext a with
    | Some s => if is_bytesT s then option_res (py_decode s) else Ok (Some s)
    | None => Ok None
    end ;;
  match name a with
  | Name_file content name_attr =>
      match name_attr with
      | Some ((_ :: _) as n) => Ok (Some content, n, None, savePyc a)
      | _ =>
          c <- getMd5 content ;;
          Ok (Some content, u "_preppy_" ++ c, None, savePyc a)
      end
  | Name_str n =>
      let '(extraDir, n) := path_split n in
      let directory :=
        if negb (is_empty extraDir) then
          if path_isabs extraDir then extraDir
          else directory a ++ u "/" ++ extraDir
        else directory a in
      let dir := path_abs_norm directory in
      let n := fst (path_splitext n) in
      let savePyc := if savefile a && (savePyc a =? 0)%Z
                      then 1%Z else savePyc a in
      Ok (sourcetext0, n, Some dir, savePyc)
  end.

(** [SOURCE_MODULES.get(sourcetext, None)] *)
Definition source_module (w : world) (text : pyval) : option nat :=
  match text_key text with
  | Some k => SOURCE_MODULES w !! k
  | None => None
  end.

Definition getModule (a : args) (w : world) : res nat * world :=
  match resolve a with
  | Raise e => (Raise e, w)
  | Ok (Some text, name, dir, savePyc) =>
      (* they fed us the source explicitly *)
      match getMd5 text with
      | Raise e => (Raise e, w)
      | Ok sourcechecksum =>
          let name := if is_empty name
                      then u "_preppy_" ++ sourcechecksum else name in
          let sourcefilename := u "<input text " ++ name ++ u ">" in
          match source_module w text with
          | Some r => (Ok r, w)
          | None =>
              rebuild a name dir savePyc text sourcefilename
                sourcechecksum true w
          end
      end
  | Ok (None, name, dir, savePyc) =>
      (* see if the module exists as a python file *)
      let dir0 := default [] dir in
      let sourcefilename := path_join dir0 (name ++ source_extension a) in
      let w := add_event (Ev_load name dir0) w in
      let found := rl_get_module (the_disk w) name dir0 in
      let w := add_event (Ev_read sourcefilename) w in
      match open_source (the_disk w) sourcefilename with
      | None =>
          match found with
          | None =>
              (Raise (ValueError (u "couldn't find source or module")), w)
          | Some m =>
              let '(r, w) := put_module None m w in
              (Ok r, set_file_module sourcefilename r w)
          end
      | Some text =>
          match getMd5 (PStr text) with
          | Raise e => (Raise e, w)
          | Ok sourcechecksum =>
              match found with
              | Some m =>
                  if ustr_eqb sourcechecksum (__checksum__ m)
                     && (force a =? 0)%Z
                  then
                    let '(r, w) := put_module None m w in
                    (Ok r, set_file_module sourcefilename r w)
                  else
                    rebuild a name dir savePyc (PStr text)
                      sourcefilename sourcechecksum false w
              | None =>
                  rebuild a name dir savePyc (PStr text) sourcefilename
                    sourcechecksum false w
              end
          end
      end
  end.

End GetModule.

End Cache.

(** ** Notions used to state the properties *)

(** What [xmlEscape] does to one character. *)
Definition xml_char (b : N) : ustr :=
  if b =? 38 then u "&amp;"
  else if b =? 62 then u "&gt;"
  else if b =? 60 then u "&lt;"
  else [b].

(** A function that only returns bytes, resp. text. *)
Definition byte_oriented (f : convfn) : Prop :=
  forall v r, call f v = Ok r -> is_bytesT r = true.

Definition text_oriented (f : convfn) : Prop :=
  forall v r, call f v = Ok r -> is_unicodeT r = true.

(** A quote function in the manner of [lambda s: s[0]]: it raises on the
    empty text. *)
Definition first_char_quote : convfn :=
  F_user (fun v =>
            match v with
            | PStr (c0 :: _) => Ok (PStr [c0])
            | _ => Raise IndexError
            end).

(** A small instance of the parameters of [getModule], for the examples:
    the digest of a value is the value itself, the compiler accepts every
    text, names have no directory part and no extension, and the disk is
    the list of the files written. *)
Module SampleCache.

Definition md5 (b : bstr) : ustr := map Byte.to_N b.
Definition compile_body (s : pyval) (filename : ustr) : res pyval := Ok s.
Definition path_split (n : ustr) : ustr * ustr := ([], n).
Definition path_isabs (n : ustr) : bool := false.
Definition path_abs_norm (n : ustr) : ustr := n.
Definition path_splitext (n : ustr) : ustr * ustr := (n, []).
Definition path_join (a b : ustr) : ustr := a ++ u "/" ++ b.
Definition rl_get_module (d : list ustr) (n dir : ustr)
  : option (Cache.module pyval) := None.
Definition open_source (d : list ustr) (path : ustr) : option ustr := None.
Definition write_pyc (d : list ustr) (path : ustr)
  (c : Cache.codeobject pyval) : option (list ustr) := Some (path :: d).

Definition getModule :=
  Cache.getModule md5 pyval compile_body path_split path_isabs
    path_abs_norm path_splitext path_join (list ustr) rl_get_module
    open_source write_pyc.

Definition resolve :=
  Cache.resolve md5 path_split path_isabs path_abs_norm path_splitext.

Definition empty_world : Cache.world pyval (list ustr) :=
  {| Cache.SOURCE_MODULES := ∅; Cache.FILE_MODULES := ∅;
     Cache.store := ∅; Cache.next := 0; Cache.the_disk := [];
     Cache.log := [] |}.

(** [getModule('t', sourcetext='Hello {{2+2}} World', importModule=im)] *)
Definition hello (im : Z) : Cache.args :=
  {| Cache.name := Cache.Name_str (u "t");
     Cache.directory := u ".";
     Cache.source_extension := u ".prep";
     Cache.savefile := false;
     Cache.sourcetext := Some (PStr (u "Hello {{2+2}} World"));
     Cache.force := 0;
     Cache.savePyc := 1;
     Cache.importModule := im;
     Cache._existing_module := None |}.

End SampleCache.

(** The kind of the token of a parameter-signature introducer: the text of
    the group [def], that is the word [def] and the white space after it. *)
Definition is_def_kind (k : ustr) : bool := starts_with (u "def") k.

Definition is_const_tok (t : Token) : bool := ustr_eqb (kind t) (u "const").

Definition no_def_tok (t : Token) : bool := negb (is_def_kind (kind t)).

(** At most one token is a parameter-signature introducer, and only
    literal text comes before it. *)
Fixpoint def_rule (toks : list Token) : bool :=
  match toks with
  | [] => true
  | t :: toks' =>
      if is_const_tok t then def_rule toks' else forallb no_def_tok toks'
  end.

(** What the scan has read, as a function of [_defSeen]: only literal text
    before any tag is closed; one token, then no parameter-signature
    introducer, once a tag is closed. *)
Definition lex_inv (ds : Z) (rt : list Token) : Prop :=
  (ds = 0%Z /\ forallb is_const_tok rt = true)
  \/ (ds = 1%Z /\ exists post d pre,
         rt = post ++ d :: pre
         /\ forallb no_def_tok post = true
         /\ forallb is_const_tok pre = true)
  \/ (ds = (-1)%Z /\ forallb no_def_tok rt = true).

(** The values of [ast.parse] on the texts the examples submit, each a
    valid statement of Python; a statement is kept as its text.  No other
    text is submitted by the examples. *)
Module SampleAst.

Definition known : list ustr :=
  [ u "def get(a):" ++ [9] ++ u "pass";
    u "def f(x):" ++ [9] ++ u "pass";
    u "return";
    u "a" ].

Definition ast_parse (text : ustr) : option (list ustr) :=
  if kind_in text known then Some [text] else None.

(** [Return] and [Expr] nodes have an attribute [value]. *)
Definition has_value (s : ustr) : bool := kind_in s [u "return"; u "a"].

Definition parse := parse true (fun _ => false) ustr ast_parse has_value.

End SampleAst.

Section ParserMeasures.

Variable pystmt : Type.

Local Abbreviation parser := (parser pystmt).
Local Abbreviation task := (task pystmt).
Local Abbreviation outcome := (res (list (pnode pystmt) * parser)).

(** A routine keeps the stack [__inTdef] when it returns. *)
Definition keeps_inTdef (f : parser -> outcome) : Prop :=
  forall p r p', f p = Ok (r, p') -> __inTdef pystmt p' = __inTdef pystmt p.

(** The tokens that are left, and the depth a routine may need: every
    nested call is made after a token was consumed. *)
Definition left_over (p : parser) : Z :=
  Z.max 0 (Z.of_nat (length (_tokens pystmt p)) - _tokenX pystmt p).

Definition need (t : task) (p : parser) : Z :=
  match t with
  | T_preppy _ _ _ _ => 3 * left_over p + 3
  | T_loop _ _ => 3 * left_over p + 2
  | _ => 3 * left_over p + 1
  end.

(** The number of tokens a routine that returns has consumed, at least. *)
Definition advance (t : task) (p : parser) : Z :=
  match t with
  | T_preppy _ _ pop _ => if pop then 1 else 0
  | T_loop _ _ => 0
  | T_if _ => 2
  | T_try_loop _ _ _ _ => 1
  | T_match_skip _ => 0
  | T_case_loop _ =>
      match cur_kind pystmt p with
      | Ok k => if ustr_eqb k (u "case") then 1 else 0
      | Raise _ => 0
      end
  end.

Definition progress (n : Z) (p : parser) (o : outcome) : Prop :=
  o <> Raise OutOfFuel
  /\ forall r p', o = Ok (r, p') ->
       _tokens pystmt p' = _tokens pystmt p
       /\ (_tokenX pystmt p + n <= _tokenX pystmt p')%Z.

End ParserMeasures.

Arguments keeps_inTdef {pystmt} f.
Arguments left_over {pystmt} p.
Arguments need {pystmt} t p.
Arguments advance {pystmt} t p.
Arguments progress {pystmt} n p o.

(** ** Further parts of the module *)

(** *** Command-line keywords: [extractKeywords] *)

(** [extractKeywords(arglist)]: the arguments of the form [key=value],
    with exactly one equals sign, as a dictionary. *)
Definition extractKeywords (arglist : list ustr) : gmap (list N) ustr :=
  fold_left
    (fun d arg =>
       match split_on 61 arg with
       | [key; value] => <[key := value]> d
       | _ => d
       end)
    arglist ∅.

(** *** Positions: [__lineno], [__colOffset] and the text of [__lexerror] *)

(** [s.count(c)] *)
Fixpoint str_count (c : N) (s : ustr) : nat :=
  match s with
  | [] => O
  | d :: s' => ((if N.eqb d c then 1 else 0) + str_count c s')%nat
  end.

(** [s.rfind(c)]: the highest index of [c], or [-1]. *)
Fixpoint str_rfind (c : N) (s : ustr) : Z :=
  match s with
  | [] => (-1)%Z
  | d :: s' =>
      let r := str_rfind c s' in
      if (0 <=? r)%Z then (r + 1)%Z
      else if d =? c then 0%Z else (-1)%Z
  end.

(** [self.__lineno(start)]: [self.source.count('\n', 0, start) + 1] *)
Definition __lineno (text : ustr) (start : nat) : nat :=
  (str_count 10 (firstn start text) + 1)%nat.

(** [self.__colOffset(start)] *)
Definition __colOffset (text : ustr) (start : nat) : Z :=
  (Z.of_nat start - Z.max (str_rfind 10 (firstn start text) + 1) 0)%Z.

(** ['%d' % n] for a number that is not negative. *)
Definition py_int_str (n : nat) : ustr :=
  u (NilEmpty.string_of_uint (Nat.to_uint n)).

Section LexError.

(** [c.isdecimal()] for a character outside ASCII, from the Unicode
    database of the interpreter. *)
Variable unicode_isdecimal : N -> bool.

(** The class [\d] of a [str] pattern. *)
Definition is_digit (c : N) : bool :=
  if c <? 128 then (48 <=? c) && (c <=? 57) else unicode_isdecimal c.

(** [\s+\d+] at the head of [s], once [\s+] has been found to take at most
    [k] characters: the longest run of white space that a digit follows,
    then every digit; the length of the match. *)
Fixpoint spaces_digits (k : nat) (s : ustr) : option nat :=
  match k with
  | O => None
  | S k' =>
      match take_while is_digit (skipn k s) with
      | (_ :: _) as ds => Some (k + length ds)%nat
      | [] => spaces_digits k' s
      end
  end.

(** [_line_d = re.compile('line\\s+\\d+', re.M)] at the head of [s]: the
    length of the match. *)
Definition _line_d_match (s : ustr) : option nat :=
  if starts_with (u "line") s then
    let rest := skipn 4 s in
    match spaces_digits (length (take_while is_space rest)) rest with
    | Some n => Some (4 + n)%nat
    | None => None
    end
  else None.

(** [_line_d.sub(repl, s)] for a replacement without backslash: the
    matches are found from left to right and do not overlap.  [skip] counts
    the characters that belong to the match found last. *)
Fixpoint _line_d_sub_from (repl s : ustr) (skip : nat) : ustr :=
  match s with
  | [] => []
  | c :: s' =>
      match skip with
      | S k => _line_d_sub_from repl s' k
      | O =>
          match _line_d_match s with
          | Some n => repl ++ _line_d_sub_from repl s' (n - 1)
          | None => c :: _line_d_sub_from repl s' O
          end
      end
  end.

Definition _line_d_sub (repl s : ustr) : ustr := _line_d_sub_from repl s 0.

(** The text of the [SyntaxError] that [__lexerror(msg, pos)] raises on a
    parser with the source [text] and the file name [filename]:
    ['%s\n%s\n%s (near line %d of %s)'] filled with the source line, the
    blanks, the message after [_line_d.sub], the line number and the file
    name. *)
Definition lexerror_text (filename text msg : ustr) (pos : nat) : ustr :=
  let pos0 := (str_rfind 10 (firstn pos text) + 1)%Z in
  let pos1 := match str_find_from [10] (skipn pos text) pos with
              | Some i => i
              | None => length text
              end in
  let lnum := (str_count 10 (firstn pos text) + 1)%nat in
  let msg' := _line_d_sub (u "line " ++ py_int_str lnum) msg in
  slice text (Z.to_nat pos0) pos1 ++ [10]
  ++ repeat 32 (Z.to_nat (Z.of_nat pos - pos0)) ++ [10]
  ++ msg' ++ u " (near line " ++ py_int_str lnum ++ u " of " ++ filename
  ++ u ")".

End LexError.

(** The characters of a text up to the end of its first line. *)
Definition line_rest (s : ustr) : ustr :=
  take_while (fun c => negb (c =? 10)) s.

(** *** Compiled files: the header [getModule] writes, [getTimeStamp] *)

(** [struct.pack('<L', n)] for [n] below [2^32], and
    [struct.unpack('<L', b)[0]], which needs four bytes. *)
Definition pack_L (n : N) : bstr :=
  [byte_of n; byte_of (n / 256); byte_of (n / 65536); byte_of (n / 16777216)].

Definition unpack_L (b : bstr) : option N :=
  match b with
  | [b0; b1; b2; b3] =>
      Some (Byte.to_N b0 + 256 * Byte.to_N b1 + 65536 * Byte.to_N b2
            + 16777216 * Byte.to_N b3)
  | _ => None
  end.

(** The bytes of the compiled file after the [with] block of [getModule]:
    four zero bytes, four more on Python 3.7 and later, the time, the size
    of the source, the marshalled code; then [MAGIC_NUMBER] written over
    the start of the file. *)
Definition pyc_file (isPy37 : bool) (MAGIC_NUMBER : bstr) (now size : N)
  (marshalled : bstr) : bstr :=
  let zero := [Byte.x00; Byte.x00; Byte.x00; Byte.x00] in
  let body := zero ++ (if isPy37 then zero else [])
              ++ pack_L (N.land now 0xFFFFFFFF)
              ++ pack_L (N.land size 0xFFFFFFFF) ++ marshalled in
  MAGIC_NUMBER ++ skipn (length MAGIC_NUMBER) body.

(** [getTimeStamp(m)]: [file] is the content of [m.__file__] when it can
    be opened; the result [None] is the default, infinity. *)
Definition getTimeStamp (file : option bstr) : option N :=
  match file with
  | Some b => unpack_L (firstn 4 (skipn 4 b))
  | None => None
  end.

(** [t < preppyTime], where [None] is infinity. *)
Definition time_lt (t preppyTime : option N) : bool :=
  match t, preppyTime with
  | Some a, Some b => a <? b
  | Some _, None => true
  | None, _ => false
  end.

(** The test of [rl_get_module] on a module that was loaded: it is
    returned unless its time stamp is below [preppyTime]. *)
Definition rl_get_module_keeps (preppyTime : option N) (file : option bstr)
  : bool :=
  negb (time_lt (getTimeStamp file) preppyTime).

(** *** The classes [SafeString] and [SafeUnicode] *)

(** The characters of a text value, the bytes of a bytes value. *)
Definition text_of (v : pyval) : ustr :=
  match v with
  | PStr s | PSafeUnicode s | PIgnore s => s
  | _ => []
  end.

Definition bytes_of (v : pyval) : bstr :=
  match v with
  | PBytes b | PSafeString b => b
  | _ => []
  end.

(** [SafeString(v)], that is [SafeString.__new__]: a text gives a
    [SafeUnicode], anything else goes through [bytes(v)]. *)
Definition SafeString_new (v : pyval) : res pyval :=
  if is_unicodeT v then Ok (PSafeUnicode (text_of v))
  else r <- py_bytes v ;; Ok (PSafeString (bytes_of r)).

(** [SafeUnicode(v)], that is [SafeUnicode.__new__]: bytes give a
    [SafeString], anything else goes through [str(v)]. *)
Definition SafeUnicode_new (v : pyval) : res pyval :=
  if is_bytesT v then Ok (PSafeString (bytes_of v))
  else r <- py_str v ;; Ok (PSafeUnicode (text_of r)).

(** *** [getOutput] and [getOutputFromKeywords] of a plain template *)

(** [e[0:0].join(buf)]: [e] has to be a string, and every item of the
    type of [e]. *)
Definition join_empty (e : pyval) (buf : list pyval) : res pyval :=
  if is_unicodeT e then
    if forallb is_unicodeT buf then Ok (PStr (concat (map text_of buf)))
    else Raise TypeError
  else if is_bytesT e then
    if forallb is_bytesT buf then Ok (PBytes (concat (map bytes_of buf)))
    else Raise TypeError
  else Raise TypeError.

Definition getOutputFromKeywords (isbytes : bool) (body : list write_op)
  (quoteFunc lquoteFunc : option convfn) (kwds : gmap (list N) pyval)
  : res pyval :=
  let '(r, st) :=
    Run.run isbytes body
      {| Run.dictionary := kwds; Run.__write__ := true;
         Run.quoteFunc := quoteFunc; Run.outputfile := None;
         Run.lquoteFunc := lquoteFunc |} in
  _ <- r ;;
  qf <- match quoteFunc with
        | Some q => Ok q
        | None => p <- __get_conv__ None None isbytes ;; Ok (fst p)
        end ;;
  e <- call qf (PStr []) ;;
  join_empty e (map snd (Run.written st)).

(** [getOutput(dictionary, quoteFunc, lquoteFunc)]: the dictionary is
    spread into keyword arguments, so it cannot hold the two names of the
    parameters. *)
Definition getOutput (isbytes : bool) (body : list write_op)
  (dictionary : gmap (list N) pyval) (quoteFunc lquoteFunc : option convfn)
  : res pyval :=
  match dictionary !! u "quoteFunc", dictionary !! u "lquoteFunc" with
  | None, None =>
      getOutputFromKeywords isbytes body quoteFunc lquoteFunc dictionary
  | _, _ => Raise TypeError
  end.

(** *** Notions used to state the further properties *)

(** One turn of the loop of [extractKeywords]. *)
Definition kw_step (d : gmap (list N) ustr) (arg : ustr) : gmap (list N) ustr :=
  match split_on 61 arg with
  | [key; value] => <[key := value]> d
  | _ => d
  end.

(** Another argument than a well-formed [key=...]. *)
Definition other_arg (key a : ustr) : bool :=
  negb (str_count 61 a =? 1)%nat || negb (starts_with (key ++ [61]) a).

(** The offset of the first character of the line that holds [pos]. *)
Definition line_start (text : ustr) (pos : nat) : nat :=
  Z.to_nat (str_rfind 10 (firstn pos text) + 1).

(** [sourcefilename] of a text-backed call: ["<input text %s>" % name],
    where an empty name has been replaced by ['_preppy_' + checksum]. *)
Definition text_filename (n cs : ustr) : ustr :=
  u "<input text " ++ (if is_empty n then u "_preppy_" ++ cs else n) ++ u ">".

(** The arguments of a call [run(dictionary)] that names at most a quote
    function: no callback, no output file, no literal quote function. *)
Definition quote_args (qf : option convfn) : Run.args :=
  {| Run.dictionary := ∅; Run.__write__ := false; Run.quoteFunc := qf;
     Run.outputfile := None; Run.lquoteFunc := None |}.

(** What a call of [run] that ends well wrote to [sys.stdout]. *)
Definition wrote (vs : list pyval) : res unit * Run.state :=
  (Ok tt, {| Run.written := map (fun v => (SysStdout, v)) vs;
             Run.wss := {| __wsscontroller__.ws := 0 |} |}).

(** The sink [run] chooses: the callback, else an [outputfile] that is
    true, else [sys.stdout]. *)
Definition run_sink (a : Run.args) : sink :=
  if Run.__write__ a then Callback
  else
    match Run.outputfile a with
    | Some true => OutputFile
    | _ => SysStdout
    end.

(** A call of the compiled body that goes through [__swrite__]. *)
Definition is_swrite (op : write_op) : bool :=
  match op with
  | Op_literal _ => false
  | _ => true
  end.

(** The value an entry of the log holds comes from the quote function
    for an expression, from the literal converter for a literal. *)
Definition entry_of (qFunc lconv : convfn) (target : sink) (op : write_op)
  (e : sink * pyval) : Prop :=
  fst e = target
  /\ exists v, call (if is_swrite op then qFunc else lconv) v = Ok (snd e).

(** The value [uStdConv] and [uStdQuote] work on after their first step. *)
Definition converted (v : pyval) : pyval :=
  if negb (is_strTypes v) then obj_convert v else v.

(** A character [c] may drop: one of the class [wsc], or a line feed. *)
Definition droppable (ch : N) : bool :=
  __wsscontroller__.in_class __wsscontroller__.wsc ch || (ch =? 10).

(** [isinstance(v, __wsscontroller__.ignore)] *)
Definition is_ignore (v : pyval) : bool :=
  match v with PIgnore _ => true | _ => false end.

(** Tokens in the order of the source, between the offsets [lo] and
    [hi]: each spans one character at least, none overlaps the one
    before, none is the end marker. *)
Fixpoint spans_ok (lo : nat) (toks : list Token) (hi : nat) : bool :=
  match toks with
  | [] => (lo <=? hi)%nat
  | t :: ts =>
      (lo <=? start t)%nat && (start t <? end_ t)%nat
      && negb (ustr_eqb (kind t) (u "eof"))
      && spans_ok (end_ t) ts hi
  end.

(** The matches of [_pat] in order between [lo] and [hi]. *)
Fixpoint ms_ok (lo : nat) (ms : list pat_match) (hi : nat) : Prop :=
  match ms with
  | [] => True
  | m :: ms' =>
      (lo <= m_start m)%nat /\ (m_start m < m_end m)%nat
      /\ (m_end m <= hi)%nat /\ ms_ok (m_end m) ms' hi
  end.

(** The tokens read so far, last first, all before [ix]. *)
Fixpoint rt_ok (rt : list Token) (ix : nat) : Prop :=
  match rt with
  | [] => True
  | t :: rt' =>
      (start t < end_ t)%nat /\ (end_ t <= ix)%nat
      /\ ustr_eqb (kind t) (u "eof") = false
      /\ rt_ok rt' (start t)
  end.

(** The text holds the opening, resp. the closing, delimiter. *)
Fixpoint holds_open (s : ustr) : bool :=
  starts_with (u "{{") s
  || match s with [] => false | _ :: s' => holds_open s' end.

Fixpoint holds_close (s : ustr) : bool :=
  starts_with (u "}}") s
  || match s with [] => false | _ :: s' => holds_close s' end.

(** Two words differ at a position both have. *)
Fixpoint differ (a b : ustr) : bool :=
  match a, b with
  | x :: a', y :: b' => negb (x =? y) || differ a' b'
  | _, _ => false
  end.

(** What [dedent] makes of one line, for an indentation of [n]
    characters. *)
Definition dedent_line (n : nat) (l : ustr) : ustr :=
  if blank_or_comment l then [] else skipn n l.

(** An event of the file system that reads: a load of a compiled file
    or the opening of a source file. *)
Definition is_read_event (e : Cache.event) : bool :=
  match e with
  | Cache.Ev_load _ _ | Cache.Ev_read _ => true
  | _ => false
  end.

Definition is_write_event (e : Cache.event) : bool :=
  match e with
  | Cache.Ev_write _ => true
  | _ => false
  end.

(** *** Notions on the parser *)

(** The result is the mark of the bound on the recursion. *)
Definition out_of_fuel {A : Type} (r : res A) : bool :=
  match r with
  | Raise OutOfFuel => true
  | _ => false
  end.

Section ParserFrames.

Variable pystmt : Type.

Local Abbreviation parser := (parser pystmt).
Local Abbreviation pnode := (pnode pystmt).
Local Abbreviation task := (task pystmt).
Local Abbreviation outcome := (res (list pnode * parser)).

(** What a routine should find again when it returns: every field but
    the cursor [_tokenX] and the parameter block [_fnc_defn]. *)
Definition frame (p : parser)
  : ustr * list Token * Z * (Z * Z) * (Z * Z) * list (Z * Z) :=
  (source pystmt p, _tokens pystmt p, _defSeen pystmt p,
   (__inWhile pystmt p, __inFor pystmt p),
   (__inMatch pystmt p, __inCase pystmt p), __inTdef pystmt p).

Definition keeps_frame (f : parser -> outcome) : Prop :=
  forall p r p', f p = Ok (r, p') -> frame p' = frame p.

Definition nonempty {A : Type} (l : list A) : bool :=
  match l with [] => false | _ :: _ => true end.

(** No statement of the tree has an empty body: Python refuses to
    compile one. *)
Fixpoint node_ok (n : pnode) : bool :=
  match n with
  | N_block _ _ body orelse =>
      nonempty body && forallb node_ok body && forallb node_ok orelse
  | N_try _ body handlers orelse finalbody =>
      nonempty body && forallb node_ok body
      && forallb (fun h => nonempty (snd h) && forallb node_ok (snd h))
           handlers
      && forallb node_ok orelse && forallb node_ok finalbody
  | N_match _ _ cases => nonempty cases && forallb node_ok cases
  | N_case _ _ body => nonempty body && forallb node_ok body
  | _ => true
  end.

Definition handler_ok (h : pystmt * list pnode) : bool :=
  nonempty (snd h) && forallb node_ok (snd h).

(** The parts of a [try] statement read so far, for the task that reads
    the rest. *)
Definition task_ok (t : task) : bool :=
  match t with
  | T_try_loop _ body handlers orelse =>
      nonempty body && forallb node_ok body && forallb handler_ok handlers
      && forallb node_ok orelse
  | _ => true
  end.

Definition result_ok (t : task) (r : list pnode) : bool :=
  forallb node_ok r
  && match t with
     | T_preppy _ _ _ true => nonempty r
     | _ => true
     end.

(** Every statement a routine returns has its bodies. *)
Definition nodes_ok (f : parser -> outcome) : Prop :=
  forall p r p', f p = Ok (r, p') -> forallb node_ok r = true.

End ParserFrames.

Arguments frame {pystmt} p.
Arguments keeps_frame {pystmt} f.
Arguments node_ok {pystmt} n.
Arguments handler_ok {pystmt} h.
Arguments task_ok {pystmt} t.
Arguments result_ok {pystmt} t r.
Arguments nodes_ok {pystmt} f.

(** *** The parser with the nesting in named blocks written out *)

Section ParserByDepth.

Variable isPy310 : bool.
Variable pystmt : Type.
Variable ast_parse : ustr -> option (list pystmt).
Variable has_value : pystmt -> bool.

Local Abbreviation parser := (parser pystmt).
Local Abbreviation pnode := (pnode pystmt).
Local Abbreviation task := (task pystmt).
Local Abbreviation outcome := (res (list pnode * parser)).

(** Two routines agree on every parser that has the stack [__inTdef] of
    [p]. *)
Definition agree_at (rec1 rec2 : task -> parser -> outcome) (p : parser)
  : Prop :=
  forall t q, __inTdef pystmt q = __inTdef pystmt p -> rec1 t q = rec2 t q.

(** What [__return] does after its test of [__inTdef]. *)
Definition return_statement (p : parser) : outcome :=
  text <- tokenText pystmt p false true 0 ;;
  n <- or_error pystmt p invalid_syntax (rparse pystmt ast_parse text) ;;
  r <- tokenPop pystmt p ;;
  let '(_, p) := r in
  Ok (map (N_raw pystmt) n, p).

(** The routines of the parser, told the number [d] of named blocks
    [def name(...)] ... [enddef] whose body they stand in.  The loop of
    [__preppy] gives the body of a named block the depth [d + 1], decides
    on a [return] by [d] alone, and calls the handlers of the other
    directives at the depth [d]; the other tasks are those of [run_step]
    at the depth [d]. *)
Definition loop_by_depth (rec : nat -> task -> parser -> outcome) (d : nat)
  (followers : list ustr) (p : parser) : outcome :=
  t <- cur_kind pystmt p ;;
  if kind_in t followers then Ok ([], p)
  else
    r <- (if ustr_eqb t (u "tdef") then __tdef pystmt ast_parse (rec (S d)) p
          else if ustr_eqb t (u "return") then
            match d with
            | O => serror pystmt p
                     (u "return statement outside while or for loop")
            | S _ => return_statement p
            end
          else if kind_in t (funcs isPy310)
          then handler pystmt ast_parse has_value (rec d) t p
          else serror pystmt p invalid_syntax) ;;
    let '(nodes, p) := r in
    r <- rec d (T_loop pystmt followers) p ;;
    let '(more, p) := r in
    Ok (nodes ++ more, p).

Definition step_by_depth (rec : nat -> task -> parser -> outcome) (d : nat)
  (t : task) (p : parser) : outcome :=
  match t with
  | T_loop _ followers => loop_by_depth rec d followers p
  | _ => run_step isPy310 pystmt ast_parse has_value (rec d) t p
  end.

Fixpoint run_by_depth (fuel : nat) (d : nat) (t : task) (p : parser)
  : outcome :=
  match fuel with
  | O => Raise OutOfFuel
  | S fuel' => step_by_depth (run_by_depth fuel') d t p
  end.

(** [parse] with the depth written out: the template starts outside
    every named block. *)
Definition parse_by_depth (unicode_isalnum : N -> bool) (text : ustr)
  : outcome :=
  r <- tokenize isPy310 unicode_isalnum text ;;
  let '(toks, ds) := r in
  run_by_depth (parse_fuel toks) 0 (T_preppy pystmt [u "eof"] true false)
    (parser_init pystmt text toks ds).

End ParserByDepth.

(** * Properties *)

(** ** The whitespace controller *)

Import __wsscontroller__.

Lemma lstrip_class_app (cls w rest : ustr) :
  forallb (in_class cls) w = true ->
  lstrip_class cls (w ++ rest) = lstrip_class cls rest.
Proof.
  induction w as [|a w IH]; simpl; [reflexivity|].
  intros H. apply andb_true_iff in H as [Ha Hw].
  rewrite Ha. auto.
Qed.

Lemma lstrip_class_stop (cls : ustr) (c0 : N) (rest : ustr) :
  in_class cls c0 = false -> lstrip_class cls (c0 :: rest) = c0 :: rest.
Proof. intros H. simpl. now rewrite H. Qed.

Lemma lstrip_class_all (cls w : ustr) :
  forallb (in_class cls) w = true -> lstrip_class cls w = [].
Proof.
  intros H. rewrite <- (app_nil_r w). now rewrite lstrip_class_app.
Qed.

(** In the normal state a literal passes through unchanged. *)
Lemma c_normal (s : pyval) : c {| ws := 0 |} s = ({| ws := 0 |}, Ok s).
Proof. reflexivity. Qed.

(** After [dnl], a text literal loses its leading run of the class and the
    line feed that ends the run. *)
Lemma c_dnl_line (w rest : ustr) :
  forallb (in_class wsc) w = true ->
  c {| ws := 1 |} (PStr (w ++ 10 :: rest)) = ({| ws := 0 |}, Ok (PStr rest)).
Proof.
  intros Hw. unfold c, pats_sub; simpl.
  rewrite lstrip_class_app by exact Hw.
  reflexivity.
Qed.

(** After [dnl], when the run of the class is followed by another character
    than a line feed, only the run is dropped. *)
Lemma c_dnl_no_line (w : ustr) (c0 : N) (rest : ustr) :
  forallb (in_class wsc) w = true ->
  in_class wsc c0 = false -> c0 <> 10 ->
  c {| ws := 1 |} (PStr (w ++ c0 :: rest))
  = ({| ws := 0 |}, Ok (PStr (c0 :: rest))).
Proof.
  intros Hw Hc Hn. unfold c, pats_sub; simpl pats; cbv iota beta.
  simpl. rewrite lstrip_class_app by exact Hw.
  rewrite lstrip_class_stop by exact Hc. simpl.
  apply N.eqb_neq in Hn. rewrite Hn. reflexivity.
Qed.

(** After [dws], the leading run of the class and of line feeds is
    dropped. *)
Lemma c_dws_run (w rest : ustr) :
  forallb (in_class (wsc ++ [10])) w = true ->
  lstrip_class (wsc ++ [10]) rest = rest ->
  c {| ws := 2 |} (PStr (w ++ rest)) = ({| ws := 0 |}, Ok (PStr rest)).
Proof.
  intros Hw Hr. unfold c, pats_sub. cbn -[lstrip_class wsc].
  rewrite lstrip_class_app by exact Hw. rewrite Hr. reflexivity.
Qed.

(** A [dnl] directive followed by a line feed and four spaces: the line
    feed goes, the indentation and what follows stay. *)
Lemma c_dnl_newline_indent (rest : ustr) :
  c {| ws := 1 |} (PStr (10 :: u "    " ++ rest))
  = ({| ws := 0 |}, Ok (PStr (u "    " ++ rest))).
Proof. reflexivity. Qed.

(** On [bytes] the same is done on the decoded text, and the result is
    encoded again. *)
Lemma c_bytes (k : Z) (b : bstr) (t : ustr) :
  k <> 0%Z -> utf8_decode b = Some t ->
  c {| ws := k |} (PBytes b)
  = ({| ws := 0 |},
     r <- snd (c {| ws := k |} (PStr t)) ;; asUtf8 r).
Proof.
  intros Hk Hd. unfold c; simpl.
  apply Z.eqb_neq in Hk. rewrite Hk.
  unfold asUnicode; simpl. rewrite Hd. simpl.
  destruct (pats_sub k (PStr t)) as [v|e]; simpl; [|reflexivity].
  destruct (k =? 1)%Z; simpl.
  - destruct v as [|c0 tl]; simpl; [reflexivity|].
    destruct (c0 =? 10); reflexivity.
  - reflexivity.
Qed.

(** After [dnl], a literal made only of characters of the class makes [c]
    raise: [s[0]] is read on the empty text that is left. *)
Lemma c_dnl_blank_raises (w : ustr) :
  forallb (in_class wsc) w = true ->
  c {| ws := 1 |} (PStr w) = ({| ws := 0 |}, Raise IndexError).
Proof.
  intros Hw. unfold c, pats_sub; simpl.
  rewrite lstrip_class_all by exact Hw. reflexivity.
Qed.

(** C1, at the input where the code departs from it: the template
    [{{.dnl}} {{7}}], whose literal after the [dnl] directive is a single
    space.  The literal-write raises [IndexError] instead of writing the
    stripped (empty) literal: the run stops there, after the empty value
    the [dnl] directive itself wrote. *)
Theorem c_dnl_blank_literal_raises :
  c {| ws := 1 |} (PStr (u " ")) = ({| ws := 0 |}, Raise IndexError)
  /\ Run.run false [Op_dnl; Op_literal (PStr (u " ")); Op_expr (PStr (u "7"))]
       {| Run.dictionary := ∅; Run.__write__ := true; Run.quoteFunc := None;
          Run.outputfile := None; Run.lquoteFunc := None |}
     = (Raise IndexError,
        {| Run.written := [(Callback, PIgnore [])];
           Run.wss := {| ws := 0 |} |}).
Proof. split; reflexivity. Qed.

(** C8: after every call [c(s)] the state of the controller is normal,
    whatever the state before, whatever the value, and whether the call
    returns or raises. *)
Theorem c_resets_state (self : t) (s : pyval) : ws (fst (c self s)) = 0%Z.
Proof. reflexivity. Qed.

(** ** Conversion and quoting *)

Lemma replace_single (a : N) (new s : ustr) :
  str_replace [a] new s = flat_map (fun b => if b =? a then new else [b]) s.
Proof.
  unfold str_replace.
  induction s as [|b s IH]; simpl; [reflexivity|].
  rewrite andb_true_r, (N.eqb_sym a b).
  destruct (b =? a); simpl; now rewrite IH.
Qed.

(** The three replacements of [xmlEscape] amount to escaping each character
    on its own: the characters a replacement brings in are not touched by
    the next one. *)
Lemma xmlEscape_chars (s : ustr) : xmlEscape s = flat_map xml_char s.
Proof.
  unfold xmlEscape.
  change (u "<") with [60]; change (u ">") with [62]; change (u "&") with [38].
  rewrite !replace_single.
  induction s as [|b s IH]; [reflexivity|].
  cbn [flat_map]. rewrite !flat_map_app, IH. f_equal.
  unfold xml_char.
  destruct (b =? 38) eqn:E1; [reflexivity|].
  destruct (b =? 62) eqn:E2; [cbn; rewrite E2; reflexivity|].
  cbn. rewrite E2. cbn. destruct (b =? 60); reflexivity.
Qed.

Lemma py_encode_bytes (v r : pyval) : py_encode v = Ok r -> is_bytesT r = true.
Proof.
  destruct v; simpl; try discriminate;
    destruct (utf8_encode s); intros H; inversion H; reflexivity.
Qed.

Lemma py_decode_text (v r : pyval) : py_decode v = Ok r -> is_unicodeT r = true.
Proof.
  destruct v; simpl; try discriminate;
    destruct (utf8_decode b); intros H; inversion H; reflexivity.
Qed.

Lemma asUtf8_byte_oriented : byte_oriented F_asUtf8.
Proof.
  intros v r. simpl. unfold asUtf8.
  destruct (is_bytesT v) eqn:E.
  - intros H; inversion H; subst; exact E.
  - apply py_encode_bytes.
Qed.

Lemma asUnicode_text_oriented : text_oriented F_asUnicode.
Proof.
  intros v r. simpl. unfold asUnicode.
  destruct (is_unicodeT v) eqn:E.
  - intros H; inversion H; subst; exact E.
  - apply py_decode_text.
Qed.

Lemma uStdConv_text (v r : pyval) : uStdConv v = Ok r -> is_unicodeT r = true.
Proof.
  unfold uStdConv. destruct v; try (intros H; inversion H; reflexivity).
  - apply (py_decode_text (PBytes b)).
  - apply (py_decode_text (PSafeString b)).
  - unfold is_strTypes. cbn [is_unicodeT is_bytesT orb negb].
    destruct (is_unicodeT (obj_convert (PObj ucv bcv sv))) eqn:E; cbn [negb].
    + intros H; inversion H; subst; exact E.
    + apply py_decode_text.
Qed.

Lemma uStdConv_text_oriented : text_oriented F_uStdConv.
Proof. intros v r. apply uStdConv_text. Qed.

Lemma bStdConv_byte_oriented : byte_oriented F_bStdConv.
Proof.
  intros v r. simpl. unfold bStdConv.
  destruct (uStdConv v); simpl; [apply py_encode_bytes | discriminate].
Qed.

(** C3: when one function of the pair is supplied and its call on the
    empty text returns, [__get_conv__] keeps it and derives the other from
    the type of the result.  If the result is bytes, the partner of an
    expression-quote is [asUtf8] and the partner of a literal-quote is
    [bStdConv], which only return bytes; if the result is text, the
    partners are [asUnicode] and [uStdConv], which only return text.  On the
    probe itself both functions of the pair then return the same kind. *)
Theorem get_conv_partner_follows_probe (f : convfn) (b : bool) (r : pyval) :
  call f (PStr []) = Ok r ->
  (is_bytesT r = true ->
     __get_conv__ (Some f) None b = Ok (f, F_asUtf8)
     /\ __get_conv__ None (Some f) b = Ok (F_bStdConv, f)
     /\ byte_oriented F_asUtf8 /\ byte_oriented F_bStdConv
     /\ call F_asUtf8 (PStr []) = Ok (PBytes [])
     /\ call F_bStdConv (PStr []) = Ok (PBytes []))
  /\ (is_unicodeT r = true ->
     __get_conv__ (Some f) None b = Ok (f, F_asUnicode)
     /\ __get_conv__ None (Some f) b = Ok (F_uStdConv, f)
     /\ text_oriented F_asUnicode /\ text_oriented F_uStdConv
     /\ call F_asUnicode (PStr []) = Ok (PStr [])
     /\ call F_uStdConv (PStr []) = Ok (PStr [])).
Proof.
  intros Hp. split; intros Hk.
  - unfold __get_conv__. rewrite Hp. simpl. rewrite Hk.
    repeat split; auto using asUtf8_byte_oriented, bStdConv_byte_oriented.
  - assert (Hb : is_bytesT r = false) by (destruct r; simpl in *; congruence).
    unfold __get_conv__. rewrite Hp. simpl. rewrite Hb.
    repeat split; auto using asUnicode_text_oriented, uStdConv_text_oriented.
Qed.

Lemma get_conv_partner_follows_probe_witness :
  call F_bStdConv (PStr []) = Ok (PBytes [])
  /\ __get_conv__ (Some F_bStdConv) None false
     = Ok (F_bStdConv, F_asUtf8)
  /\ __get_conv__ None (Some F_asUnicode) true = Ok (F_uStdConv, F_asUnicode).
Proof.
  split; [reflexivity|]. split.
  - apply (get_conv_partner_follows_probe F_bStdConv false (PBytes []));
      reflexivity.
  - apply (get_conv_partner_follows_probe F_asUnicode true (PStr []));
      reflexivity.
Defined.

(** C9 as stated fails: [uStdQuote] is not the default quote function.
    A call of [run] that names no quote function gets [uStdConv] from
    [__get_conv__] and writes the value `<` of an expression as it is;
    only a call that passes [uStdQuote] writes `&lt;`. *)
Lemma default_quoting_does_not_escape :
  __get_conv__ None None false = Ok (F_uStdConv, F_unicodeT)
  /\ Run.run false [Op_expr (PStr (u "<"))] (quote_args None)
     = wrote [PStr (u "<")]
  /\ Run.run false [Op_expr (PStr (u "<"))]
       (quote_args (Some (F_user uStdQuote)))
     = wrote [PStr (u "&lt;")].
Proof. repeat split. Qed.

(** C9, amended: [uStdQuote] escapes the XML characters of a plain string,
    text or bytes, and returns a [SafeUnicode] as it is and a [SafeString]
    decoded from utf8 but not escaped.  It is not the default: without
    quote functions [__get_conv__] gives [uStdConv], or [bStdConv] for a
    bytes template, which leave the characters of a string as they are, so
    that a call of [run] without quote function writes the text of an
    expression unescaped.  A call of [run] that passes [uStdQuote] as
    [quoteFunc] writes a plain string escaped and a [SafeUnicode] as it
    is. *)
Theorem uStdQuote_escapes_unless_safe :
  ((forall s, uStdQuote (PStr s) = Ok (PStr (flat_map xml_char s)))
  /\ (forall b s, utf8_decode b = Some s ->
        uStdQuote (PBytes b) = Ok (PStr (flat_map xml_char s)))
  /\ xml_char 60 = u "&lt;"
  /\ uStdQuote (PStr (u "<")) = Ok (PStr (u "&lt;"))
  /\ (forall s, uStdQuote (PSafeUnicode s) = Ok (PSafeUnicode s))
  /\ (forall b, uStdQuote (PSafeString b)
                = match utf8_decode b with
                  | Some s => Ok (PStr s)
                  | None => Raise UnicodeDecodeError
                  end)
  /\ uStdQuote (PSafeUnicode (u "<")) = Ok (PSafeUnicode (u "<"))
  /\ uStdQuote (PSafeString [Byte.x3c]) = Ok (PStr (u "<")))
  /\ (forall b, __get_conv__ None None b
                = Ok (if b then F_bStdConv else F_uStdConv,
                      if b then F_bytesT else F_unicodeT))
  /\ (forall s, uStdConv (PStr s) = Ok (PStr s))
  /\ (forall s, bStdConv (PStr s) = py_encode (PStr s))
  /\ (forall s, Run.run false [Op_expr (PStr s)] (quote_args None)
                = wrote [PStr s])
  /\ Run.run true [Op_expr (PStr (u "<"))] (quote_args None)
     = wrote [PBytes [Byte.x3c]]
  /\ (forall b s,
        Run.run b [Op_expr (PStr s)] (quote_args (Some (F_user uStdQuote)))
        = wrote [PStr (flat_map xml_char s)])
  /\ (forall b s,
        Run.run b [Op_expr (PSafeUnicode s)]
          (quote_args (Some (F_user uStdQuote)))
        = wrote [PSafeUnicode s]).
Proof.
  assert (Hq : forall s, uStdQuote (PStr s) = Ok (PStr (flat_map xml_char s))).
  { intros s. unfold uStdQuote; simpl. now rewrite xmlEscape_chars. }
  split.
  { repeat split; try reflexivity; [exact Hq|].
    intros b s H. unfold uStdQuote; simpl. rewrite H; simpl.
    now rewrite xmlEscape_chars. }
  split; [intros []; reflexivity|].
  split; [reflexivity|]. split; [reflexivity|].
  split; [reflexivity|]. split; [reflexivity|].
  split.
  - intros b s. unfold Run.run, quote_args, wrote.
    cbn [Run.quoteFunc Run.lquoteFunc __get_conv__ call bind].
    change (uStdQuote (PStr [])) with (Ok (A := pyval) (PStr [])).
    cbn [bind is_bytesT Run.__write__ Run.outputfile Run.__code__
         Run.__swrite__ Run.wss Run.written].
    unfold Run.__swrite__, __wsscontroller__.x. cbv iota beta.
    cbn [call]. rewrite Hq. reflexivity.
  - intros b s. reflexivity.
Qed.

Lemma uStdQuote_escapes_unless_safe_witness :
  uStdQuote (PBytes [Byte.x3c; Byte.x62; Byte.x3e])
  = Ok (PStr (u "&lt;b&gt;")).
Proof.
  apply (proj1 (proj2 (proj1 uStdQuote_escapes_unless_safe))
           [Byte.x3c; Byte.x62; Byte.x3e] (u "<b>")).
  reflexivity.
Defined.

(** C10: [uStdConv] and [uStdQuote] map [None] to the empty text, and with
    the default functions of [__get_conv__] an expression whose value is
    [None] writes an empty value: empty text, or empty bytes for a bytes
    template. *)
Theorem none_gives_empty_output :
  uStdConv PNone = Ok (PStr [])
  /\ uStdQuote PNone = Ok (PStr [])
  /\ (forall b, (p <- __get_conv__ None None b ;; call (fst p) PNone)
                = Ok (if b then PBytes [] else PStr []))
  /\ (forall b target,
        Run.run b [Op_expr PNone]
          {| Run.dictionary := ∅; Run.__write__ := false;
             Run.quoteFunc := None; Run.outputfile := target;
             Run.lquoteFunc := None |}
        = (Ok tt,
           {| Run.written :=
                [(match target with Some true => OutputFile | _ => SysStdout end,
                  if b then PBytes [] else PStr [])];
              Run.wss := {| ws := 0 |} |})).
Proof.
  repeat split.
  - intros []; reflexivity.
  - intros [] [[]|]; reflexivity.
Qed.

(** ** The prologue of [run] *)

(** C7 as stated fails: with a write callback, an output file and a single
    quote function that raises on the empty text, [run] raises the
    exception of that function, not [ValueError]: [__get_conv__] probes the
    function before the two sinks are compared. *)
Lemma run_both_sinks_probe_raises :
  Run.run false [Op_literal (PStr (u "x"))]
    {| Run.dictionary := ∅; Run.__write__ := true;
       Run.quoteFunc := Some first_char_quote;
       Run.outputfile := Some true; Run.lquoteFunc := None |}
  = (Raise IndexError,
     {| Run.written := []; Run.wss := {| ws := 0 |} |}).
Proof. reflexivity. Qed.

(** C7, amended: with both a write callback and an output file, [run]
    always raises before anything is written; the exception is the
    [ValueError] whenever the resolution of the quote functions, which comes
    first, returns; otherwise it is the exception of that resolution. *)
Theorem run_both_sinks_raises (isbytes : bool) (body : list write_op)
  (a : Run.args) :
  Run.__write__ a = true ->
  Run.outputfile a <> None ->
  exists e,
    Run.run isbytes body a
    = (Raise e, {| Run.written := []; Run.wss := init |})
    /\ match __get_conv__ (Run.quoteFunc a) (Run.lquoteFunc a) isbytes with
       | Ok _ => e = ValueError Run.both_message
       | Raise e' => e = e'
       end.
Proof.
  intros Hw Ho. unfold Run.run. rewrite Hw.
  destruct (__get_conv__ (Run.quoteFunc a) (Run.lquoteFunc a) isbytes)
    as [[qf lqf]|e'].
  - destruct (Run.outputfile a); [|contradiction].
    eexists; split; reflexivity.
  - eexists; split; reflexivity.
Qed.

Lemma run_both_sinks_raises_witness :
  exists e,
    Run.run false [Op_literal (PStr (u "x"))]
      {| Run.dictionary := ∅; Run.__write__ := true; Run.quoteFunc := None;
         Run.outputfile := Some true; Run.lquoteFunc := None |}
    = (Raise e, {| Run.written := []; Run.wss := init |})
    /\ e = ValueError Run.both_message.
Proof.
  apply (run_both_sinks_raises false [Op_literal (PStr (u "x"))]
           {| Run.dictionary := ∅; Run.__write__ := true;
              Run.quoteFunc := None; Run.outputfile := Some true;
              Run.lquoteFunc := None |}).
  - reflexivity.
  - discriminate.
Defined.

(** ** The text cache of [getModule] *)

Section GetModuleProperties.

Variable md5_hexdigest : bstr -> ustr.
Variable code_body : Type.
Variable compile_body : pyval -> ustr -> res code_body.
Variable path_split : ustr -> ustr * ustr.
Variable path_isabs : ustr -> bool.
Variable path_abs_norm : ustr -> ustr.
Variable path_splitext : ustr -> ustr * ustr.
Variable path_join : ustr -> ustr -> ustr.
Variable disk : Type.
Variable rl_get_module : disk -> ustr -> ustr -> option (Cache.module code_body).
Variable open_source : disk -> ustr -> option ustr.
Variable write_pyc : disk -> ustr -> Cache.codeobject code_body -> option disk.

Local Abbreviation getModule :=
  (Cache.getModule md5_hexdigest code_body compile_body path_split
     path_isabs path_abs_norm path_splitext path_join disk rl_get_module
     open_source write_pyc).
Local Abbreviation resolve :=
  (Cache.resolve md5_hexdigest path_split path_isabs path_abs_norm
     path_splitext).
Local Abbreviation rebuild :=
  (Cache.rebuild code_body compile_body path_join disk write_pyc).
Local Abbreviation getMd5 := (Cache.getMd5 md5_hexdigest).
Local Abbreviation world := (Cache.world code_body disk).

Lemma getMd5_text_key (text : pyval) (cs : ustr) :
  getMd5 text = Ok cs -> exists k, Cache.text_key text = Some k.
Proof.
  unfold Cache.getMd5, asUtf8.
  destruct text; simpl; try discriminate; eauto.
Qed.

(** A rebuild that returns with [importModule] true leaves the module
    in [SOURCE_MODULES] under the text. *)
Lemma rebuild_caches (a : Cache.args) (n : ustr) (dir : option ustr)
  (sp : Z) (text : pyval) (fname cs : ustr) (w w1 : world) (r : nat)
  (k : bool * list N) :
  rebuild a n dir sp text fname cs true w = (Ok r, w1) ->
  Cache.importModule a <> 0%Z ->
  Cache.text_key text = Some k ->
  Cache.SOURCE_MODULES _ _ w1 !! k = Some r.
Proof.
  intros H Him Hk. unfold Cache.rebuild in H.
  apply Z.eqb_neq in Him. rewrite Him, Hk in H. cbn [negb] in H.
  destruct (compile_body text fname) as [body|e]; [|discriminate].
  destruct (negb (sp =? 0)%Z).
  - destruct dir as [d|]; [|discriminate].
    destruct (write_pyc _ _ _) as [d'|]; [|discriminate].
    destruct (Cache._existing_module a); cbn in H;
      inversion H; subst; cbn; apply lookup_insert_eq.
  - destruct (Cache._existing_module a); cbn in H;
      inversion H; subst; cbn; apply lookup_insert_eq.
Qed.

(** The module a rebuild returns holds the checksum of the text. *)
Lemma rebuild_checksum (a : Cache.args) (n : ustr) (dir : option ustr)
  (sp : Z) (text : pyval) (fname cs : ustr) (nosource : bool)
  (w w1 : world) (r : nat) :
  rebuild a n dir sp text fname cs nosource w = (Ok r, w1) ->
  exists m, Cache.store _ _ w1 !! r = Some m /\ Cache.__checksum__ _ m = cs.
Proof.
  intros H. unfold Cache.rebuild in H.
  destruct (compile_body text fname) as [body|e]; [|discriminate].
  destruct (negb (Cache.importModule a =? 0)%Z);
    destruct nosource; destruct (Cache.text_key text);
    (destruct (negb (sp =? 0)%Z);
     [ destruct dir as [d|]; [|discriminate];
       destruct (write_pyc _ _ _) as [d'|]; [|discriminate] | ]);
    destruct (Cache._existing_module a); cbn in H;
    inversion H; subst; cbn;
    (eexists; split; [apply lookup_insert_eq | reflexivity]).
Qed.

(** A rebuild starts with a compilation, whatever comes of it. *)
Lemma rebuild_compiles (a : Cache.args) (n : ustr) (dir : option ustr)
  (sp : Z) (text : pyval) (fname cs : ustr) (nosource : bool)
  (w w1 : world) (r : res nat) :
  rebuild a n dir sp text fname cs nosource w = (r, w1) ->
  exists more,
    Cache.log _ _ w1 = Cache.log _ _ w ++ Cache.Ev_compile fname :: more.
Proof.
  intros H. unfold Cache.rebuild in H.
  destruct (compile_body text fname) as [body|e].
  2:{ inversion H; subst. exists []. reflexivity. }
  destruct (negb (Cache.importModule a =? 0)%Z);
    destruct nosource; destruct (Cache.text_key text);
    (destruct (negb (sp =? 0)%Z);
     [ destruct dir as [d|];
       [destruct (write_pyc _ _ _) as [d'|]|] | ]);
    destruct (Cache._existing_module a); cbn in H;
    inversion H; subst; cbn;
    rewrite <- ?app_assoc; eexists; reflexivity.
Qed.

(** A rebuild made with [importModule=0] leaves [SOURCE_MODULES] as it
    was. *)
Lemma rebuild_without_import (a : Cache.args) (n : ustr) (dir : option ustr)
  (sp : Z) (text : pyval) (fname cs : ustr) (nosource : bool)
  (w w1 : world) (r : res nat) :
  rebuild a n dir sp text fname cs nosource w = (r, w1) ->
  Cache.importModule a = 0%Z ->
  Cache.SOURCE_MODULES _ _ w1 = Cache.SOURCE_MODULES _ _ w.
Proof.
  intros H Him. unfold Cache.rebuild in H. rewrite Him in H.
  cbn [Z.eqb negb] in H.
  destruct (compile_body text fname) as [body|e].
  2:{ inversion H; subst. reflexivity. }
  destruct (negb (sp =? 0)%Z);
    [ destruct dir as [d|];
      [destruct (write_pyc _ _ _) as [d'|]|] | ];
    destruct (Cache._existing_module a); cbn in H;
    inversion H; subst; reflexivity.
Qed.

(** Without [_existing_module] the module a rebuild returns is a new
    object. *)
Lemma rebuild_new_object (a : Cache.args) (n : ustr) (dir : option ustr)
  (sp : Z) (text : pyval) (fname cs : ustr) (nosource : bool)
  (w w1 : world) (r : nat) :
  rebuild a n dir sp text fname cs nosource w = (Ok r, w1) ->
  Cache._existing_module a = None ->
  r = Cache.next _ _ w /\ Cache.next _ _ w1 = S r.
Proof.
  intros H Hex. unfold Cache.rebuild in H. rewrite Hex in H.
  destruct (compile_body text fname) as [body|e]; [|discriminate].
  destruct (negb (Cache.importModule a =? 0)%Z);
    destruct nosource; destruct (Cache.text_key text);
    (destruct (negb (sp =? 0)%Z);
     [ destruct dir as [d|]; [|discriminate];
       destruct (write_pyc _ _ _) as [d'|]; [|discriminate] | ]);
    cbn in H; inversion H; subst; cbn; split; reflexivity.
Qed.

(** C2, amended: take a call of [getModule] on a source text that returns.
    If the text was in [SOURCE_MODULES] before the call, the call returns
    the cached module object and leaves the caches, the disk and the log of
    disk accesses and compilations as they were, whatever its arguments.
    If the text was not cached, the call compiles it, and the module it
    returns holds the checksum of the text.  If the call was made with
    [importModule] true (the default), a later call on the same text,
    whatever its other arguments, returns the same module object and
    changes nothing.  If the text was not cached and the call was made
    with [importModule=0], the text is still not cached after it, and a
    later call on the same text compiles again; when neither call was given
    [_existing_module], the later call does not return the module object of
    the first. *)
Theorem text_cache_reuse (a1 a2 : Cache.args) (w w1 : world) (r : nat)
  (text : pyval) (n1 n2 : ustr) (d1 d2 : option ustr) (s1 s2 : Z) :
  resolve a1 = Ok (Some text, n1, d1, s1) ->
  resolve a2 = Ok (Some text, n2, d2, s2) ->
  getModule a1 w = (Ok r, w1) ->
  exists cs,
    getMd5 text = Ok cs
    /\ (forall r0, Cache.source_module _ _ w text = Some r0 ->
        r = r0 /\ w1 = w)
    /\ (Cache.source_module _ _ w text = None ->
        (exists m, Cache.store _ _ w1 !! r = Some m
                   /\ Cache.__checksum__ _ m = cs)
        /\ exists more,
             Cache.log _ _ w1
             = Cache.log _ _ w
               ++ Cache.Ev_compile (text_filename n1 cs) :: more)
    /\ (Cache.importModule a1 <> 0%Z -> getModule a2 w1 = (Ok r, w1))
    /\ (Cache.importModule a1 = 0%Z ->
        Cache.source_module _ _ w text = None ->
        Cache.source_module _ _ w1 text = None
        /\ forall r2 w2,
             getModule a2 w1 = (r2, w2) ->
             (exists more,
                Cache.log _ _ w2
                = Cache.log _ _ w1
                  ++ Cache.Ev_compile (text_filename n2 cs) :: more)
             /\ (Cache._existing_module a1 = None ->
                 Cache._existing_module a2 = None -> r2 <> Ok r)).
Proof.
  intros R1 R2 H1.
  unfold Cache.getModule in *. rewrite R1 in H1. rewrite R2.
  destruct (getMd5 text) as [cs|e] eqn:Hcs; [|discriminate].
  fold (text_filename n1 cs) in H1. fold (text_filename n2 cs).
  destruct (getMd5_text_key _ _ Hcs) as [k Hk].
  exists cs. split; [reflexivity|]. split; [|split; [|split]].
  - intros r0 Hhit. rewrite Hhit in H1. inversion H1; subst. split; reflexivity.
  - intros Hmiss. rewrite Hmiss in H1. split.
    + eapply rebuild_checksum; eauto.
    + eapply rebuild_compiles; eauto.
  - intros Him.
    assert (Hin : Cache.source_module _ _ w1 text = Some r).
    { unfold Cache.source_module in *. rewrite Hk in *.
      destruct (Cache.SOURCE_MODULES _ _ w !! k) as [r0|] eqn:Hl.
      - inversion H1; subst. exact Hl.
      - eapply rebuild_caches; eauto. }
    rewrite Hin. reflexivity.
  - intros Him Hmiss. rewrite Hmiss in H1.
    assert (Hout : Cache.source_module _ _ w1 text = None).
    { unfold Cache.source_module in *.
      rewrite (rebuild_without_import _ _ _ _ _ _ _ _ _ _ _ H1 Him).
      exact Hmiss. }
    split; [exact Hout|]. rewrite Hout. intros r2 w2 H2. split.
    + eapply rebuild_compiles; eauto.
    + intros E1 E2 ->.
      destruct (rebuild_new_object _ _ _ _ _ _ _ _ _ _ _ H1 E1) as [_ Hn].
      destruct (rebuild_new_object _ _ _ _ _ _ _ _ _ _ _ H2 E2) as [Hr _].
      lia.
Qed.

End GetModuleProperties.

(** C2 as stated fails: after a call made with [importModule=0] the text
    is not in the cache, and the second call on the same text compiles
    again, writes the compiled file again and returns another module
    object. *)
Lemma text_cache_not_filled_without_import :
  let '(r1, w1) := SampleCache.getModule (SampleCache.hello 0)
                     SampleCache.empty_world in
  let '(r2, w2) := SampleCache.getModule (SampleCache.hello 0) w1 in
  r1 = Ok 0%nat /\ r2 = Ok 1%nat
  /\ Cache.log _ _ w1
     = [Cache.Ev_compile (u "<input text t>"); Cache.Ev_write (u "./t.pyc")]
  /\ Cache.log _ _ w2 = Cache.log _ _ w1 ++ Cache.log _ _ w1.
Proof. vm_compute. repeat split. Qed.

Lemma text_cache_reuse_witness :
  let text := PStr (u "Hello {{2+2}} World") in
  let w := SampleCache.empty_world in
  let w1 := snd (SampleCache.getModule (SampleCache.hello 1) w) in
  exists cs,
    Cache.getMd5 SampleCache.md5 text = Ok cs
    /\ (forall r0, Cache.source_module _ _ w text = Some r0 ->
        0%nat = r0 /\ w1 = w)
    /\ (Cache.source_module _ _ w text = None ->
        (exists m, Cache.store _ _ w1 !! 0%nat = Some m
                   /\ Cache.__checksum__ _ m = cs)
        /\ exists more,
             Cache.log _ _ w1
             = Cache.log _ _ w
               ++ Cache.Ev_compile (text_filename (u "t") cs) :: more)
    /\ (Cache.importModule (SampleCache.hello 1) <> 0%Z ->
        SampleCache.getModule (SampleCache.hello 0) w1 = (Ok 0%nat, w1))
    /\ (Cache.importModule (SampleCache.hello 1) = 0%Z ->
        Cache.source_module _ _ w text = None ->
        Cache.source_module _ _ w1 text = None
        /\ forall r2 w2,
             SampleCache.getModule (SampleCache.hello 0) w1 = (r2, w2) ->
             (exists more,
                Cache.log _ _ w2
                = Cache.log _ _ w1
                  ++ Cache.Ev_compile (text_filename (u "t") cs) :: more)
             /\ (Cache._existing_module (SampleCache.hello 1) = None ->
                 Cache._existing_module (SampleCache.hello 0) = None ->
                 r2 <> Ok 0%nat)).
Proof.
  cbv zeta.
  apply (text_cache_reuse SampleCache.md5 pyval SampleCache.compile_body
           SampleCache.path_split SampleCache.path_isabs
           SampleCache.path_abs_norm SampleCache.path_splitext
           SampleCache.path_join (list ustr) SampleCache.rl_get_module
           SampleCache.open_source SampleCache.write_pyc
           (SampleCache.hello 1) (SampleCache.hello 0)
           SampleCache.empty_world _ 0%nat
           (PStr (u "Hello {{2+2}} World")) (u "t") (u "t")
           (Some (u ".")) (Some (u ".")) 1%Z 1%Z).
  - reflexivity.
  - reflexivity.
  - vm_compute. reflexivity.
Defined.

(** ** The lexer *)

Lemma lex_loop_app (py310 : bool) (ua : N -> bool) (text : ustr)
  (st : lexst) (ms1 ms2 : list pat_match) :
  lex_loop py310 ua text st (ms1 ++ ms2)
  = (st' <- lex_loop py310 ua text st ms1 ;; lex_loop py310 ua text st' ms2).
Proof.
  revert st. induction ms1 as [|i ms1 IH]; intros st; simpl; [reflexivity|].
  destruct (lex_step py310 ua text st i); simpl; auto.
Qed.

(** An error raised at one match of the scan is the result of
    [__tokenize]. *)
Lemma tokenize_raises_at (py310 : bool) (ua : N -> bool) (ds0 : Z)
  (text : ustr) (ms1 ms2 : list pat_match) (i : pat_match) (st : lexst)
  (e : pyexc) :
  finditer text = ms1 ++ i :: ms2 ->
  lex_loop py310 ua text
    {| state := false; ix := O; rtokens := []; defSeen := ds0 |} ms1 = Ok st ->
  lex_step py310 ua text st i = Raise e ->
  tokenize_from py310 ua ds0 text = Raise e.
Proof.
  intros Hf Hl Hs. unfold tokenize_from.
  rewrite Hf, lex_loop_app, Hl. simpl. rewrite Hs. reflexivity.
Qed.

(** A tag body that begins with a keyword of the [end] group is read by
    the last alternative of [_s], with that keyword; [endend] is the rest
    unless the rest is white space up to the end of a line. *)
Lemma end_keyword_match (py310 : bool) (ua : N -> bool) (kw extra : ustr) :
  In kw (end_keywords py310) ->
  _s_match py310 ua (kw ++ extra)
  = Some (M_end kw (if ws_eol extra then None else Some extra)).
Proof.
  intros Hin.
  destruct py310; cbv in Hin;
    repeat (destruct Hin as [<-|Hin]; [cbv -[ws_eol]; reflexivity|]);
    contradiction.
Qed.

Lemma ustr_eqb_eq (a b : ustr) : ustr_eqb a b = true <-> a = b.
Proof.
  revert b. induction a as [|c0 a IH]; intros [|d b]; simpl;
    try (split; [discriminate | congruence]); [tauto|].
  rewrite andb_true_iff, N.eqb_eq, IH. split.
  - intros [-> ->]; reflexivity.
  - intros H; inversion H; auto.
Qed.

Lemma ustr_eqb_neq (a b : ustr) : ustr_eqb a b = false <-> a <> b.
Proof.
  rewrite <- ustr_eqb_eq. destruct (ustr_eqb a b); split; congruence.
Qed.

(** C6 as stated fails: extra text after [else] is accepted. *)
Lemma else_with_extra_text_lexes :
  tokenize true (fun _ => false) (u "{{if x}}a{{else junk}}b{{endif}}")
  = Ok ([ {| kind := u "if"; start := 2; end_ := 6 |};
          {| kind := u "const"; start := 8; end_ := 9 |};
          {| kind := u "else"; start := 11; end_ := 20 |};
          {| kind := u "const"; start := 22; end_ := 23 |};
          {| kind := u "endif"; start := 25; end_ := 30 |};
          {| kind := u "eof"; start := 32; end_ := 32 |} ], (-1)%Z).
Proof. vm_compute. reflexivity. Qed.

(** C6, amended: a tag body made of a keyword of the block-end group and
    of extra text, where the extra text is not just white space up to the
    end of a line, is accepted when the keyword is [else] or when the extra
    text stripped is a colon; otherwise the tag raises the lex error
    [Bad <keyword>], which is then the result of [__tokenize]. *)
Theorem end_keyword_extra_text (py310 : bool) (ua : N -> bool)
  (kw extra : ustr) :
  In kw (end_keywords py310) ->
  ws_eol extra = false ->
  (forall ds i0,
     classify py310 ua ds (kw ++ extra) i0
     = if ustr_eqb kw (u "else") || ustr_eqb (py_strip extra) (u ":")
       then Ok (kw, ds)
       else Raise (SyntaxError (u "Bad " ++ kw) i0))
  /\ (forall text ms1 i ms2 st,
        kw <> u "else" ->
        py_strip extra <> u ":" ->
        finditer text = ms1 ++ i :: ms2 ->
        lex_loop py310 ua text
          {| state := false; ix := O; rtokens := []; defSeen := 0 |} ms1
        = Ok st ->
        state st = true ->
        m_open i = false ->
        slice text (ix st) (m_start i) = kw ++ extra ->
        tokenize py310 ua text
        = Raise (SyntaxError (u "Bad " ++ kw) (m_start i))).
Proof.
  intros Hin Hws.
  assert (Hc : forall ds i0,
             classify py310 ua ds (kw ++ extra) i0
             = if ustr_eqb kw (u "else") || ustr_eqb (py_strip extra) (u ":")
               then Ok (kw, ds)
               else Raise (SyntaxError (u "Bad " ++ kw) i0)).
  { intros ds i0. unfold classify.
    rewrite (end_keyword_match py310 ua kw extra Hin), Hws.
    assert (He : is_empty extra = false)
      by (destruct extra; [discriminate Hws | reflexivity]).
    rewrite He. cbn [negb andb].
    destruct (ustr_eqb kw (u "else")); [reflexivity|].
    destruct (ustr_eqb (py_strip extra) (u ":")); reflexivity. }
  split; [exact Hc|].
  intros text ms1 i ms2 st Hk Hs Hf Hl Hst Hm Hb.
  apply (tokenize_raises_at py310 ua 0 text ms1 ms2 i st _ Hf Hl).
  unfold lex_step. rewrite Hm, Hst, Hb, Hc.
  apply ustr_eqb_neq in Hk, Hs. rewrite Hk, Hs. reflexivity.
Qed.

Lemma end_keyword_extra_text_witness :
  tokenize true (fun _ => false) (u "{{if x}}a{{endif junk}}")
  = Raise (SyntaxError (u "Bad endif") 21).
Proof.
  apply (proj2 (end_keyword_extra_text true (fun _ => false)
                  (u "endif") (u " junk")
                  ltac:(vm_compute; tauto) ltac:(reflexivity))
           (u "{{if x}}a{{endif junk}}")
           [ {| m_start := 0; m_end := 2; m_open := true |};
             {| m_start := 6; m_end := 8; m_open := false |};
             {| m_start := 9; m_end := 11; m_open := true |} ]
           {| m_start := 21; m_end := 23; m_open := false |}
           []
           {| state := true; ix := 11;
              rtokens := [ {| kind := u "const"; start := 8; end_ := 9 |};
                           {| kind := u "if"; start := 2; end_ := 6 |} ];
              defSeen := (-1)%Z |}).
  - discriminate.
  - vm_compute. discriminate.
  - reflexivity.
  - vm_compute. reflexivity.
  - reflexivity.
  - reflexivity.
  - reflexivity.
Defined.

Lemma take_while_stop (p : N -> bool) (w : ustr) (c0 : N) (rest : ustr) :
  forallb p w = true -> p c0 = false -> take_while p (w ++ c0 :: rest) = w.
Proof.
  intros Hw Hc. induction w as [|a w IH]; simpl in *.
  - now rewrite Hc.
  - apply andb_true_iff in Hw as [Ha Hw]. rewrite Ha. f_equal. auto.
Qed.

Lemma drop_while_stop (p : N -> bool) (w : ustr) (c0 : N) (rest : ustr) :
  forallb p w = true -> p c0 = false ->
  drop_while p (w ++ c0 :: rest) = c0 :: rest.
Proof.
  intros Hw Hc. induction w as [|a w IH]; simpl in *.
  - now rewrite Hc.
  - apply andb_true_iff in Hw as [Ha Hw]. rewrite Ha. auto.
Qed.

Lemma take_while_all (p : N -> bool) (w : ustr) :
  forallb p w = true -> take_while p w = w.
Proof.
  induction w as [|a w IH]; simpl; [reflexivity|].
  intros H. apply andb_true_iff in H as [Ha Hw]. rewrite Ha. f_equal. auto.
Qed.

Lemma drop_while_all (p : N -> bool) (w : ustr) :
  forallb p w = true -> drop_while p w = [].
Proof.
  induction w as [|a w IH]; simpl; [reflexivity|].
  intros H. apply andb_true_iff in H as [Ha Hw]. rewrite Ha. auto.
Qed.

Lemma start_keywords_miss_def (py310 : bool) (rest : ustr) :
  first_keyword (start_keywords py310) startend_ok (u "def" ++ rest) = None.
Proof. destruct py310; reflexivity. Qed.

(** The word [def], white space and an opening parenthesis: the
    parameter-signature introducer. *)
Lemma def_paren_match (py310 : bool) (ua : N -> bool) (w rest : ustr) :
  forallb is_space w = true ->
  _s_match py310 ua (u "def" ++ w ++ 40 :: rest)
  = Some (M_def (u "def" ++ w) (u "(")).
Proof.
  intros Hw. unfold _s_match. rewrite start_keywords_miss_def.
  unfold tdef_matches, def_match.
  change (skipn 3 (u "def" ++ w ++ 40 :: rest)) with (w ++ 40 :: rest).
  change (starts_with (u "def") (u "def" ++ w ++ 40 :: rest)) with true.
  rewrite drop_while_stop, take_while_stop by (exact Hw || reflexivity).
  reflexivity.
Qed.

(** The word [def] and white space up to the end of the tag. *)
Lemma def_end_match (py310 : bool) (ua : N -> bool) (w : ustr) :
  forallb is_space w = true ->
  _s_match py310 ua (u "def" ++ w) = Some (M_def (u "def" ++ w) []).
Proof.
  intros Hw. unfold _s_match. rewrite start_keywords_miss_def.
  unfold tdef_matches, def_match.
  change (skipn 3 (u "def" ++ w)) with w.
  change (starts_with (u "def") (u "def" ++ w)) with true.
  rewrite drop_while_all, take_while_all by exact Hw.
  reflexivity.
Qed.

Lemma first_keyword_In (kws : list ustr) (ok : ustr -> bool)
  (body t rest : ustr) :
  first_keyword kws ok body = Some (t, rest) -> In t kws.
Proof.
  induction kws as [|kw kws IH]; simpl; [discriminate|].
  destruct (starts_with kw body && ok (skipn (length kw) body)).
  - intros H; inversion H; auto.
  - auto.
Qed.

Lemma start_keywords_no_def (py310 : bool) (t : ustr) :
  In t (start_keywords py310) -> is_def_kind t = false.
Proof.
  intros Hin. destruct py310; cbv in Hin;
    repeat (destruct Hin as [<-|Hin]; [reflexivity|]); contradiction.
Qed.

Lemma end_keywords_no_def (py310 : bool) (t : ustr) :
  In t (end_keywords py310) -> is_def_kind t = false.
Proof.
  intros Hin. destruct py310; cbv in Hin;
    repeat (destruct Hin as [<-|Hin]; [reflexivity|]); contradiction.
Qed.

Lemma s_match_inv (py310 : bool) (ua : N -> bool) (body : ustr) (m : s_match) :
  _s_match py310 ua body = Some m ->
  match m with
  | M_start t _ => In t (start_keywords py310)
  | M_tdef => True
  | M_def t _ => is_def_kind t = true
  | M_end t _ => In t (end_keywords py310)
  end.
Proof.
  unfold _s_match.
  destruct (first_keyword (start_keywords py310) startend_ok body)
    as [[t rest]|] eqn:Hs.
  { intros H; inversion H; subst. eapply first_keyword_In; eauto. }
  destruct (tdef_matches ua body).
  { intros H; inversion H; exact I. }
  destruct (def_match body) as [m'|] eqn:Hd.
  { intros H; inversion H; subst. unfold def_match in Hd.
    destruct (starts_with (u "def") body); [|discriminate].
    destruct (drop_while is_space (skipn 3 body)) as [|c0 r].
    - inversion Hd; reflexivity.
    - destruct (c0 =? 40).
      + inversion Hd; reflexivity.
      + destruct (last_nl_prefix _); inversion Hd; reflexivity. }
  destruct (first_keyword (end_keywords py310) _ body) as [[t rest]|] eqn:He;
    [|discriminate].
  intros H; inversion H; subst. eapply first_keyword_In; eauto.
Qed.

(** A tag is given the kind of a parameter-signature introducer only when
    no tag was closed before, and [_defSeen] then becomes [1]; every other
    kind leaves [_defSeen] as it is. *)
Lemma classify_kind (py310 : bool) (ua : N -> bool) (ds : Z) (body : ustr)
  (i0 : nat) (t : ustr) (ds' : Z) :
  classify py310 ua ds body i0 = Ok (t, ds') ->
  (is_def_kind t = true /\ ds = 0%Z /\ ds' = 1%Z)
  \/ (is_def_kind t = false /\ ds' = ds).
Proof.
  unfold classify.
  destruct (_s_match py310 ua body) as [m|] eqn:Hm.
  - pose proof (s_match_inv _ _ _ _ Hm) as Hi.
    destruct m as [t0 se| |t0 de|t0 ee].
    + destruct (_ && _); [discriminate|].
      intros H; inversion H; subst. right. split; [|reflexivity].
      eapply start_keywords_no_def; eauto.
    + intros H; inversion H; subst. right. split; reflexivity.
    + destruct (is_empty de); [discriminate|].
      destruct (ds =? 0)%Z eqn:E; cbn [negb].
      * intros H; inversion H; subst. left.
        apply Z.eqb_eq in E. auto.
      * destruct (0 <? ds)%Z; discriminate.
    + assert (Hn : is_def_kind t0 = false)
        by (eapply end_keywords_no_def; eauto).
      destruct ee as [ee|].
      * destruct (_ && _); [discriminate|].
        intros H; inversion H; subst. auto.
      * intros H; inversion H; subst. auto.
  - intros H; inversion H; subst. right. split; reflexivity.
Qed.

Lemma classify_empty (py310 : bool) (ua : N -> bool) (ds : Z) (i0 : nat) :
  classify py310 ua ds [] i0 = Ok (u "expr", ds).
Proof. destruct py310; reflexivity. Qed.

Lemma slice_empty (text : ustr) (a : nat) : slice text a a = [].
Proof. unfold slice. now rewrite Nat.sub_diag. Qed.

Lemma const_no_def (t : Token) : is_const_tok t = true -> no_def_tok t = true.
Proof.
  unfold is_const_tok, no_def_tok. intros H.
  apply ustr_eqb_eq in H. rewrite H. reflexivity.
Qed.

Lemma forallb_const_no_def (l : list Token) :
  forallb is_const_tok l = true -> forallb no_def_tok l = true.
Proof.
  induction l as [|t l IH]; simpl; [reflexivity|].
  intros H. apply andb_true_iff in H as [Ht Hl].
  now rewrite const_no_def, IH.
Qed.

Lemma lex_inv_cons_const (ds : Z) (rt : list Token) (t : Token) :
  is_const_tok t = true -> lex_inv ds rt -> lex_inv ds (t :: rt).
Proof.
  intros Ht [[-> H]|[[-> (post & d & pre & -> & Hp & Hq)]|[-> H]]].
  - left. simpl. now rewrite Ht.
  - right; left. split; [reflexivity|].
    exists (t :: post), d, pre. simpl. rewrite const_no_def by exact Ht.
    auto.
  - right; right. simpl. rewrite const_no_def by exact Ht. auto.
Qed.

Lemma lex_step_inv (py310 : bool) (ua : N -> bool) (text : ustr)
  (st st' : lexst) (i : pat_match) :
  lex_step py310 ua text st i = Ok st' ->
  lex_inv (defSeen st) (rtokens st) ->
  lex_inv (defSeen st') (rtokens st').
Proof.
  unfold lex_step. intros H Hinv.
  destruct (m_open i).
  - destruct (state st); [discriminate|].
    inversion H; subst; clear H. cbn.
    destruct (negb _); [|exact Hinv].
    apply lex_inv_cons_const; [reflexivity | exact Hinv].
  - destruct (state st); [|inversion H; subst; exact Hinv].
    destruct (m_start i =? ix st)%nat eqn:Hix.
    + apply Nat.eqb_eq in Hix. rewrite Hix, slice_empty, classify_empty in H.
      cbn in H. inversion H; subst; clear H. cbn.
      destruct Hinv as [[-> Hc]|[[-> Hd]|[-> Hn]]]; cbn.
      * right; right. split; [reflexivity|]. now apply forallb_const_no_def.
      * right; left. auto.
      * right; right. auto.
    + destruct (classify py310 ua (defSeen st) _ (m_start i))
        as [[t ds']|e] eqn:Hc; [|discriminate].
      cbn in H. inversion H; subst; clear H. cbn.
      destruct (classify_kind _ _ _ _ _ _ _ Hc) as [(Hd & H0 & ->)|(Hn & ->)].
      * rewrite H0 in Hinv. cbn.
        destruct Hinv as [[_ Hcs]|[[? _]|[? _]]]; try discriminate.
        right; left. split; [reflexivity|].
        exists [], {| kind := t; start := ix st; end_ := m_start i |},
          (rtokens st). auto.
      * assert (Hnt : no_def_tok
                        {| kind := t; start := ix st; end_ := m_start i |}
                      = true) by (unfold no_def_tok; cbn [kind]; now rewrite Hn).
        destruct Hinv as [[-> Hcs]|[[-> (post & d & pre & -> & Hp & Hq)]|[-> Hx]]];
          cbn.
        -- right; right. split; [reflexivity|]. cbn.
           rewrite Hnt. now apply forallb_const_no_def.
        -- right; left. split; [reflexivity|].
           exists ({| kind := t; start := ix st; end_ := m_start i |} :: post),
             d, pre. cbn. rewrite Hnt. auto.
        -- right; right. split; [reflexivity|]. cbn. now rewrite Hnt.
Qed.

Lemma lex_loop_inv (py310 : bool) (ua : N -> bool) (text : ustr)
  (ms : list pat_match) (st st' : lexst) :
  lex_loop py310 ua text st ms = Ok st' ->
  lex_inv (defSeen st) (rtokens st) ->
  lex_inv (defSeen st') (rtokens st').
Proof.
  revert st. induction ms as [|i ms IH]; intros st; simpl.
  - intros H; inversion H; auto.
  - destruct (lex_step py310 ua text st i) as [st1|e] eqn:Hs; [|discriminate].
    simpl. intros H Hinv. eapply IH; eauto using lex_step_inv.
Qed.

Lemma def_rule_const_app (a b : list Token) :
  forallb is_const_tok a = true -> def_rule (a ++ b) = def_rule b.
Proof.
  induction a as [|t a IH]; simpl; [reflexivity|].
  intros H. apply andb_true_iff in H as [Ht Ha]. rewrite Ht. auto.
Qed.

Lemma def_rule_no_def (l : list Token) :
  forallb no_def_tok l = true -> def_rule l = true.
Proof.
  induction l as [|t l IH]; simpl; [reflexivity|].
  intros H. apply andb_true_iff in H as [Ht Hl].
  destruct (is_const_tok t); auto.
Qed.

Lemma forallb_rev {A : Type} (p : A -> bool) (l : list A) :
  forallb p (rev l) = forallb p l.
Proof.
  induction l as [|a l IH]; simpl; [reflexivity|].
  rewrite forallb_app, IH. simpl. rewrite andb_true_r. apply andb_comm.
Qed.

Lemma lex_inv_def_rule (ds : Z) (rt ext : list Token) :
  lex_inv ds rt -> forallb no_def_tok ext = true ->
  def_rule (rev (ext ++ rt)) = true.
Proof.
  intros Hinv He. rewrite rev_app_distr.
  destruct Hinv as [[_ Hc]|[[_ (post & d & pre & -> & Hp & Hq)]|[_ Hn]]].
  - rewrite def_rule_const_app by (now rewrite forallb_rev).
    apply def_rule_no_def. now rewrite forallb_rev.
  - rewrite rev_app_distr. simpl. rewrite <- !app_assoc.
    rewrite def_rule_const_app by (now rewrite forallb_rev).
    simpl.
    assert (Hall : forallb no_def_tok (rev post ++ rev ext) = true)
      by (now rewrite forallb_app, !forallb_rev, Hp, He).
    destruct (is_const_tok d); [now apply def_rule_no_def | exact Hall].
  - apply def_rule_no_def. now rewrite forallb_app, !forallb_rev, Hn, He.
Qed.

(** The tokens of an accepted template hold at most one parameter-signature
    introducer, with nothing but literal text before it. *)
Lemma tokenize_def_rule (py310 : bool) (ua : N -> bool) (text : ustr)
  (toks : list Token) (ds : Z) :
  tokenize py310 ua text = Ok (toks, ds) -> def_rule toks = true.
Proof.
  unfold tokenize, tokenize_from.
  destruct (lex_loop py310 ua text _ (finditer text)) as [st|e] eqn:Hl;
    [|discriminate].
  simpl. destruct (state st); [discriminate|].
  assert (Hinv : lex_inv (defSeen st) (rtokens st)).
  { eapply lex_loop_inv; [exact Hl|]. left. split; reflexivity. }
  intros H; inversion H; subst; clear H.
  destruct (negb _).
  - apply (lex_inv_def_rule (defSeen st) (rtokens st)
             [ {| kind := u "eof"; start := length text; end_ := length text |};
               {| kind := u "const"; start := ix st; end_ := length text |} ]);
      [exact Hinv | reflexivity].
  - apply (lex_inv_def_rule (defSeen st) (rtokens st)
             [ {| kind := u "eof"; start := length text; end_ := length text |} ]);
      [exact Hinv | reflexivity].
Qed.

(** How one turn of the scan changes [_defSeen]: it leaves [0] when a tag
    is closed and at no other time, and a value other than [0] stays; it
    becomes [1] only on a tag read as a parameter-signature introducer. *)
Lemma lex_step_defSeen (py310 : bool) (ua : N -> bool) (text : ustr)
  (st st' : lexst) (i : pat_match) :
  lex_step py310 ua text st i = Ok st' ->
  (defSeen st <> 0%Z -> defSeen st' = defSeen st)
  /\ (m_open i = true \/ state st = false -> defSeen st' = defSeen st)
  /\ (m_open i = false -> state st = true -> defSeen st' <> 0%Z)
  /\ (defSeen st = 0%Z -> defSeen st' = 1%Z ->
      exists t, classify py310 ua 0 (slice text (ix st) (m_start i))
                  (m_start i) = Ok (t, 1%Z)
                /\ is_def_kind t = true).
Proof.
  unfold lex_step. intros H.
  destruct (m_open i).
  { destruct (state st); [discriminate|].
    inversion H; subst; clear H. cbn.
    repeat split; auto; try discriminate.
    intros E1 E2. rewrite E1 in E2. discriminate. }
  destruct (state st).
  2:{ inversion H; subst. repeat split; auto; try discriminate.
      intros E1 E2. rewrite E1 in E2. discriminate. }
  destruct (classify py310 ua (defSeen st) _ (m_start i))
    as [[t ds']|e] eqn:Hc; [|discriminate].
  cbn in H. inversion H; subst; clear H. cbn.
  destruct (classify_kind _ _ _ _ _ _ _ Hc) as [(Hd & H0 & ->)|(Hn & ->)].
  - cbn. repeat split; try (intros; congruence); try discriminate.
    + intros [?|?]; discriminate.
    + intros _ _. exists t. rewrite H0 in Hc. auto.
  - repeat split.
    + intros Hne. apply Z.eqb_neq in Hne. now rewrite Hne.
    + intros [?|?]; discriminate.
    + intros _ _. destruct (defSeen st =? 0)%Z eqn:E; [discriminate|].
      now apply Z.eqb_neq.
    + intros E. rewrite E. cbn. discriminate.
Qed.

(** C5 as stated fails for the introducer made of [def] and the end of
    the tag: as a second directive, and as a directive that is not the
    first, it raises [Bad def], not one of the two messages of the claim. *)
Lemma bare_def_raises_bad_def :
  tokenize true (fun _ => false) (u "{{def(a)}}{{def}}")
  = Raise (SyntaxError (u "Bad def") 15)
  /\ tokenize true (fun _ => false) (u "{{x}}{{def}}")
     = Raise (SyntaxError (u "Bad def") 10).
Proof. split; vm_compute; reflexivity. Qed.

(** C5, amended: for a tag made of [def], white space [w] and an opening
    parenthesis, the lexer accepts the tag when no tag was closed before
    it, raises [Only one def may be used] when the first tag was such an
    introducer, and raises [def must come first] when the first tag was
    something else; the error is the result of [__tokenize].  A tag made of
    [def] and white space alone always raises [Bad def].  The tokens of an
    accepted template hold at most one introducer, with only literal text
    before it. *)
Theorem def_introducer_rules (py310 : bool) (ua : N -> bool) (w : ustr) :
  forallb is_space w = true ->
  (forall rest ds i0,
     classify py310 ua ds (u "def" ++ w ++ 40 :: rest) i0
     = if (ds =? 0)%Z then Ok (u "def" ++ w, 1%Z)
       else if (0 <? ds)%Z
            then Raise (SyntaxError (u "Only one def may be used") i0)
            else Raise (SyntaxError (u "def must come first") i0))
  /\ (forall ds i0,
        classify py310 ua ds (u "def" ++ w) i0
        = Raise (SyntaxError (u "Bad " ++ u "def" ++ w) i0))
  /\ (forall text ms1 i ms2 st rest,
        finditer text = ms1 ++ i :: ms2 ->
        lex_loop py310 ua text
          {| state := false; ix := O; rtokens := []; defSeen := 0 |} ms1
        = Ok st ->
        state st = true ->
        m_open i = false ->
        slice text (ix st) (m_start i) = u "def" ++ w ++ 40 :: rest ->
        (defSeen st = 1%Z ->
         tokenize py310 ua text
         = Raise (SyntaxError (u "Only one def may be used") (m_start i)))
        /\ (defSeen st = (-1)%Z ->
            tokenize py310 ua text
            = Raise (SyntaxError (u "def must come first") (m_start i))))
  /\ (forall text st st' i,
        lex_step py310 ua text st i = Ok st' ->
        (defSeen st <> 0%Z -> defSeen st' = defSeen st)
        /\ (m_open i = true \/ state st = false -> defSeen st' = defSeen st)
        /\ (m_open i = false -> state st = true -> defSeen st' <> 0%Z)
        /\ (defSeen st = 0%Z -> defSeen st' = 1%Z ->
            exists t, classify py310 ua 0 (slice text (ix st) (m_start i))
                        (m_start i) = Ok (t, 1%Z)
                      /\ is_def_kind t = true))
  /\ (forall text toks ds,
        tokenize py310 ua text = Ok (toks, ds) -> def_rule toks = true).
Proof.
  intros Hw.
  assert (Ha : forall rest ds i0,
             classify py310 ua ds (u "def" ++ w ++ 40 :: rest) i0
             = if (ds =? 0)%Z then Ok (u "def" ++ w, 1%Z)
               else if (0 <? ds)%Z
                    then Raise (SyntaxError (u "Only one def may be used") i0)
                    else Raise (SyntaxError (u "def must come first") i0)).
  { intros rest ds i0. unfold classify.
    rewrite (def_paren_match py310 ua w rest Hw).
    cbn [is_empty u]. change (is_empty (u "(")) with false. cbv iota.
    destruct (ds =? 0)%Z; cbn [negb]; [reflexivity|].
    destruct (0 <? ds)%Z; reflexivity. }
  split; [exact Ha|]. split.
  { intros ds i0. unfold classify.
    rewrite (def_end_match py310 ua w Hw). reflexivity. }
  split.
  { intros text ms1 i ms2 st rest Hf Hl Hst Hm Hb.
    split; intros Hds;
      apply (tokenize_raises_at py310 ua 0 text ms1 ms2 i st _ Hf Hl);
      unfold lex_step; rewrite Hm, Hst, Hb, Ha, Hds; reflexivity. }
  split.
  { intros text st st' i. apply lex_step_defSeen. }
  intros text toks ds. apply tokenize_def_rule.
Qed.

Lemma def_introducer_rules_witness :
  tokenize true (fun _ => false) (u "{{def(a)}}{{def (b)}}")
  = Raise (SyntaxError (u "Only one def may be used") 19)
  /\ tokenize true (fun _ => false) (u "{{x}}{{def (b)}}")
     = Raise (SyntaxError (u "def must come first") 14).
Proof.
  pose proof (def_introducer_rules true (fun _ => false) (u " ")
                ltac:(reflexivity)) as (_ & _ & H & _).
  split.
  - apply (H (u "{{def(a)}}{{def (b)}}")
             [ {| m_start := 0; m_end := 2; m_open := true |};
               {| m_start := 8; m_end := 10; m_open := false |};
               {| m_start := 10; m_end := 12; m_open := true |} ]
             {| m_start := 19; m_end := 21; m_open := false |}
             []
             {| state := true; ix := 12;
                rtokens := [ {| kind := u "def"; start := 2; end_ := 8 |} ];
                defSeen := 1 |}
             (u "b)")); reflexivity.
  - apply (H (u "{{x}}{{def (b)}}")
             [ {| m_start := 0; m_end := 2; m_open := true |};
               {| m_start := 3; m_end := 5; m_open := false |};
               {| m_start := 5; m_end := 7; m_open := true |} ]
             {| m_start := 14; m_end := 16; m_open := false |}
             []
             {| state := true; ix := 7;
                rtokens := [ {| kind := u "expr"; start := 2; end_ := 3 |} ];
                defSeen := (-1) |}
             (u "b)")); reflexivity.
Defined.

(** The lexer only raises through [__lexerror]. *)
Lemma classify_raises (py310 : bool) (ua : N -> bool) (ds : Z) (body : ustr)
  (i0 : nat) (e : pyexc) :
  classify py310 ua ds body i0 = Raise e ->
  exists msg, e = SyntaxError msg i0.
Proof.
  unfold classify, lexerror.
  repeat match goal with
    | |- match ?x with _ => _ end = _ -> _ => destruct x
    | |- Ok _ = Raise _ -> _ => discriminate
    | |- Raise _ = Raise _ -> _ => intros H; inversion H; eauto
    end.
Qed.

Lemma lex_step_raises (py310 : bool) (ua : N -> bool) (text : ustr)
  (st : lexst) (i : pat_match) (e : pyexc) :
  lex_step py310 ua text st i = Raise e ->
  exists msg pos, e = SyntaxError msg pos.
Proof.
  unfold lex_step, lexerror.
  destruct (m_open i).
  - destruct (state st); [|discriminate].
    intros H; inversion H; eauto.
  - destruct (state st); [|discriminate].
    destruct (classify py310 ua _ _ _) as [[t ds]|e'] eqn:E; cbn.
    + discriminate.
    + intros H; inversion H; subst.
      destruct (classify_raises _ _ _ _ _ _ E) as [msg ->]. eauto.
Qed.

Lemma tokenize_raises (py310 : bool) (ua : N -> bool) (text : ustr)
  (e : pyexc) :
  tokenize py310 ua text = Raise e ->
  exists msg pos, e = SyntaxError msg pos.
Proof.
  unfold tokenize, tokenize_from, lexerror.
  generalize (finditer text).
  generalize {| state := false; ix := 0%nat; rtokens := []; defSeen := 0 |}.
  intros st ms. revert st.
  induction ms as [|i ms IH]; intros st; cbn [lex_loop bind].
  - destruct (state st); [|discriminate].
    intros H; inversion H; eauto.
  - destruct (lex_step py310 ua text st i) as [st'|e'] eqn:E; cbn [bind].
    + apply IH.
    + intros H; inversion H; subst. eapply lex_step_raises; eauto.
Qed.

(** ** The parser *)

Section ParserProperties.

Variable isPy310 : bool.
Variable unicode_isalnum : N -> bool.
Variable pystmt : Type.
Variable ast_parse : ustr -> option (list pystmt).
Variable has_value : pystmt -> bool.

Local Abbreviation parser := (parser pystmt).
Local Abbreviation pnode := (pnode pystmt).
Local Abbreviation task := (task pystmt).
Local Abbreviation outcome := (res (list pnode * parser)).

Lemma error_not_ok {A : Type} (p : parser) (msg : ustr) (v : A) :
  error pystmt p msg <> Ok v.
Proof. unfold error. destruct (token_at pystmt p _); discriminate. Qed.

Lemma serror_not_ok {A : Type} (p : parser) (msg : ustr) (v : A) :
  serror pystmt p msg <> Ok v.
Proof. unfold serror. destruct (token_at pystmt p _); discriminate. Qed.

Lemma or_error_ok {A : Type} (p : parser) (msg : ustr) (r : res A) (v : A) :
  or_error pystmt p msg r = Ok v -> r = Ok v.
Proof.
  unfold or_error. destruct r; [auto|].
  intros H. exfalso. exact (error_not_ok _ _ _ H).
Qed.

Lemma tokenPop_ok (p p' : parser) (t : Token) :
  tokenPop pystmt p = Ok (t, p') ->
  p' = set_tokenX pystmt p (_tokenX pystmt p + 1)%Z.
Proof.
  unfold tokenPop. destruct (token_at pystmt p _); simpl; [|discriminate].
  intros H; inversion H; reflexivity.
Qed.

(** What a computation that returned went through. *)
Ltac inv_base :=
  match goal with
  | H : Ok _ = Ok _ |- _ => inversion H; subst; clear H
  | H : Raise _ = Ok _ |- _ => discriminate H
  | H : error _ _ _ = Ok _ |- _ => exfalso; exact (error_not_ok _ _ _ H)
  | H : serror _ _ _ = Ok _ |- _ => exfalso; exact (serror_not_ok _ _ _ H)
  | H : or_error _ _ _ _ = Ok _ |- _ => apply or_error_ok in H
  | H : bind ?r _ = Ok _ |- _ =>
      let E := fresh "E" in
      destruct r eqn:E; cbn [bind] in H; [|discriminate H]
  | H : match ?x with _ => _ end = Ok _ |- _ =>
      let E := fresh "E" in destruct x eqn:E
  end.

Ltac inv_ok :=
  repeat first
    [ match goal with
      | H : tokenPop _ _ = Ok ?v |- _ => is_var v; destruct v
      | H : tokenPop _ _ = Ok (_, _) |- _ => apply tokenPop_ok in H; subst
      end
    | inv_base ].

Lemma __def_keeps : keeps_inTdef (__def pystmt ast_parse).
Proof. intros p r p' H. unfold __def in H. inv_ok. reflexivity. Qed.

Lemma __return_keeps : keeps_inTdef (__return pystmt ast_parse).
Proof. intros p r p' H. unfold __return in H. inv_ok; reflexivity. Qed.

Lemma __break_keeps (stmt : ustr) : keeps_inTdef (__break pystmt stmt).
Proof. intros p r p' H. unfold __break in H. inv_ok; reflexivity. Qed.

Lemma __raise_keeps : keeps_inTdef (__raise pystmt ast_parse).
Proof. intros p r p' H. unfold __raise in H. inv_ok; reflexivity. Qed.

Lemma __import_keeps : keeps_inTdef (__import pystmt ast_parse).
Proof. intros p r p' H. unfold __import in H. inv_ok; reflexivity. Qed.

Lemma __script_keeps (mode : ustr) :
  keeps_inTdef (__script pystmt ast_parse mode).
Proof. intros p r p' H. unfold __script in H. inv_ok; reflexivity. Qed.

Lemma __const_keeps : keeps_inTdef (__const pystmt).
Proof. intros p r p' H. unfold __const in H. inv_ok; reflexivity. Qed.

Lemma __expr_keeps : keeps_inTdef (__expr pystmt ast_parse has_value).
Proof. intros p r p' H. unfold __expr in H. inv_ok; reflexivity. Qed.

Section Step.

Variable rec : task -> parser -> outcome.
Hypothesis rec_keeps : forall t, keeps_inTdef (rec t).

Ltac inv_rec :=
  repeat (inv_ok;
          repeat match goal with
            | H : rec _ _ = Ok ?v |- _ => is_var v; destruct v
            | H : rec _ _ = Ok (_, _) |- _ => apply rec_keeps in H
            end).

Lemma preppy_keeps (followers : list ustr) (pop fixEmpty : bool) :
  keeps_inTdef (preppy pystmt rec followers pop fixEmpty).
Proof. apply rec_keeps. Qed.

Lemma __tdef_keeps : keeps_inTdef (__tdef pystmt ast_parse rec).
Proof.
  intros p r p' H. unfold __tdef, preppy in H. inv_rec.
  cbn in *.
  match goal with
  | Hb : __inTdef _ ?q = _ ++ [_], Hr : rev (__inTdef _ ?q) = _ |- _ =>
      rewrite Hb, rev_app_distr in Hr; cbn in Hr; inversion Hr; subst
  end.
  apply rev_involutive.
Qed.

Lemma loop_orelse_keeps (end_kw : ustr) :
  keeps_inTdef (loop_orelse pystmt rec end_kw).
Proof.
  intros p r p' H. unfold loop_orelse, preppy in H. inv_rec;
    cbn in *; congruence.
Qed.

Lemma __while_keeps : keeps_inTdef (__while pystmt ast_parse rec).
Proof.
  intros p r p' H. unfold __while, preppy in H. inv_rec.
  match goal with
  | H : loop_orelse _ _ _ _ = Ok ?v |- _ =>
      try (is_var v; destruct v); apply loop_orelse_keeps in H
  end.
  inv_rec. cbn in *. congruence.
Qed.

Lemma __for_keeps : keeps_inTdef (__for pystmt ast_parse rec).
Proof.
  intros p r p' H. unfold __for, preppy in H. inv_rec.
  match goal with
  | H : loop_orelse _ _ _ _ = Ok ?v |- _ =>
      try (is_var v; destruct v); apply loop_orelse_keeps in H
  end.
  inv_rec. cbn in *. congruence.
Qed.

Lemma __with_keeps : keeps_inTdef (__with pystmt ast_parse rec).
Proof.
  intros p r p' H. unfold __with, preppy in H. inv_rec.
  cbn in *. congruence.
Qed.

Lemma if_turn_keeps : keeps_inTdef (if_turn pystmt ast_parse rec).
Proof.
  intros p r p' H. unfold if_turn, preppy in H. inv_rec;
    cbn in *; congruence.
Qed.

Lemma try_turn_keeps body handlers orelse :
  keeps_inTdef (try_turn pystmt ast_parse rec body handlers orelse).
Proof.
  intros p r p' H. unfold try_turn, preppy in H. inv_rec;
    cbn in *; congruence.
Qed.

Lemma __try_keeps : keeps_inTdef (__try pystmt rec).
Proof.
  intros p r p' H. unfold __try, preppy in H. inv_rec;
    cbn in *; congruence.
Qed.

Lemma match_skip_keeps : keeps_inTdef (match_skip pystmt rec).
Proof.
  intros p r p' H. unfold match_skip in H. inv_rec;
    cbn in *; congruence.
Qed.

Lemma __match_keeps : keeps_inTdef (__match pystmt ast_parse rec).
Proof.
  intros p r p' H. unfold __match, preppy in H. inv_rec;
    cbn in *; congruence.
Qed.

Lemma case_turn_keeps : keeps_inTdef (case_turn pystmt ast_parse rec).
Proof.
  intros p r p' H. unfold case_turn, preppy in H. inv_rec;
    cbn in *; congruence.
Qed.

Lemma __case_keeps : keeps_inTdef (__case pystmt rec).
Proof.
  intros p r p' H. unfold __case in H. inv_rec; cbn in *; congruence.
Qed.

Lemma handler_keeps (t : ustr) :
  keeps_inTdef (handler pystmt ast_parse has_value rec t).
Proof.
  intros p r p' H. unfold handler, __if, __eval, __continue, __from,
    __assert in H.
  repeat match type of H with
    | (if ?c then _ else _) = _ =>
        destruct c;
        [ first [ eapply __const_keeps; eassumption
                | eapply __expr_keeps; eassumption
                | eapply __while_keeps; eassumption
                | eapply rec_keeps; eassumption
                | eapply __for_keeps; eassumption
                | eapply __script_keeps; eassumption
                | eapply __def_keeps; eassumption
                | eapply __break_keeps; eassumption
                | eapply __try_keeps; eassumption
                | eapply __raise_keeps; eassumption
                | eapply __with_keeps; eassumption
                | eapply __import_keeps; eassumption
                | eapply __tdef_keeps; eassumption
                | eapply __return_keeps; eassumption
                | eapply __match_keeps; eassumption
                | eapply __case_keeps; eassumption ] | ]
    end.
  discriminate.
Qed.

Lemma run_step_keeps (t : task) :
  keeps_inTdef (run_step isPy310 pystmt ast_parse has_value rec t).
Proof.
  intros p r p' H. destruct t; cbn [run_step] in H.
  - unfold preppy_body in H. inv_rec; cbn in *; congruence.
  - unfold preppy_loop in H. inv_ok.
    + reflexivity.
    + match goal with
      | Hh : handler _ _ _ _ _ _ = Ok ?v |- _ =>
          try (is_var v; destruct v); apply handler_keeps in Hh
      end.
      inv_rec. congruence.
  - eapply if_turn_keeps; eauto.
  - eapply try_turn_keeps; eauto.
  - eapply match_skip_keeps; eauto.
  - eapply case_turn_keeps; eauto.
Qed.

End Step.

(** Every routine of the parser that returns leaves [__inTdef] as it
    found it: the stack only grows during the body of a [__tdef]. *)
Lemma run_task_keeps (fuel : nat) (t : task) :
  keeps_inTdef (run_task isPy310 pystmt ast_parse has_value fuel t).
Proof.
  revert t. induction fuel as [|fuel IH]; intros t p r p' H.
  - discriminate.
  - cbn [run_task] in H. eapply run_step_keeps; eauto.
Qed.

Lemma tokenText_token (p : parser) (cr st : bool) (fcp : Z) (text : ustr) :
  tokenText pystmt p cr st fcp = Ok text ->
  exists tk, token_at pystmt p (_tokenX pystmt p) = Ok tk.
Proof.
  unfold tokenText. destruct (token_at pystmt p _) as [tk|]; [eauto|].
  discriminate.
Qed.

(** The only calls [__tdef] makes to the other routines are on a parser
    whose stack [__inTdef] is not empty. *)
Lemma __tdef_body_inside (rec1 rec2 : task -> parser -> outcome)
  (p : parser) :
  (forall t q, __inTdef pystmt q <> [] -> rec1 t q = rec2 t q) ->
  __tdef pystmt ast_parse rec1 p = __tdef pystmt ast_parse rec2 p.
Proof.
  intros Heq. unfold __tdef, preppy.
  destruct (or_error _ _ _ _); cbn [bind]; [|reflexivity].
  destruct (tokenPop _ _) as [[tk q]|] eqn:Hp; cbn [bind]; [|reflexivity].
  apply tokenPop_ok in Hp. subst q.
  rewrite Heq; [reflexivity|].
  cbn. destruct (__inTdef pystmt p); discriminate.
Qed.

(** *** The stack of named blocks is handed on unchanged *)

Lemma serror_raises {A : Type} (p : parser) (msg : ustr) :
  exists e, serror (A := A) pystmt p msg = Raise e.
Proof.
  unfold serror. destruct (token_at pystmt p _); cbn [bind]; eexists;
    reflexivity.
Qed.

Ltac stack_done :=
  cbn [__inTdef set_tokenX set_loops set_inTdef set_inMatch set_inCase
       set_fnc_defn] in *;
  congruence.

Section StackStep.

Variables rec1 rec2 : task -> parser -> outcome.
Hypothesis rec1_keeps : forall t, keeps_inTdef (rec1 t).

Local Abbreviation agree_at := (agree_at pystmt rec1 rec2).

Ltac agree1 Heq :=
  cbn [bind fst snd];
  match goal with
  | |- ?x = ?x => reflexivity
  | |- rec1 ?t ?q = rec2 ?t ?q => apply Heq; stack_done
  | |- bind (rec1 ?t ?q) _ = bind (rec2 ?t ?q) _ =>
      rewrite <- (Heq t q) by stack_done;
      let E := fresh "E" in
      destruct (rec1 t q) as [[? ?]|] eqn:E; [apply rec1_keeps in E|]
  | |- bind (tokenPop _ ?q) _ = bind (tokenPop _ ?q) _ =>
      let E := fresh "E" in
      destruct (tokenPop pystmt q) as [[? ?]|] eqn:E;
      [apply tokenPop_ok in E; subst|]
  | |- bind ?a _ = bind ?a _ => destruct a
  | |- (if ?c then _ else _) = (if ?c then _ else _) => destruct c
  end.

Ltac agree Heq := repeat agree1 Heq; cbn [bind fst snd].

Lemma loop_orelse_same_stack (end_kw : ustr) (p q : parser) :
  agree_at p -> __inTdef pystmt q = __inTdef pystmt p ->
  loop_orelse pystmt rec1 end_kw q = loop_orelse pystmt rec2 end_kw q.
Proof. intros Heq Hq. unfold loop_orelse, preppy. agree Heq. Qed.

Lemma __while_same_stack (p : parser) :
  agree_at p ->
  __while pystmt ast_parse rec1 p = __while pystmt ast_parse rec2 p.
Proof.
  intros Heq. unfold __while, preppy. agree Heq.
  rewrite (loop_orelse_same_stack _ p) by (assumption || stack_done).
  reflexivity.
Qed.

Lemma __for_same_stack (p : parser) :
  agree_at p ->
  __for pystmt ast_parse rec1 p = __for pystmt ast_parse rec2 p.
Proof.
  intros Heq. unfold __for, preppy. agree Heq.
  rewrite (loop_orelse_same_stack _ p) by (assumption || stack_done).
  reflexivity.
Qed.

Lemma __with_same_stack (p : parser) :
  agree_at p ->
  __with pystmt ast_parse rec1 p = __with pystmt ast_parse rec2 p.
Proof. intros Heq. unfold __with, preppy. agree Heq. Qed.

Lemma if_turn_same_stack (p : parser) :
  agree_at p ->
  if_turn pystmt ast_parse rec1 p = if_turn pystmt ast_parse rec2 p.
Proof. intros Heq. unfold if_turn, preppy. agree Heq. Qed.

Lemma try_turn_same_stack body handlers orelse (p : parser) :
  agree_at p ->
  try_turn pystmt ast_parse rec1 body handlers orelse p
  = try_turn pystmt ast_parse rec2 body handlers orelse p.
Proof. intros Heq. unfold try_turn, preppy. agree Heq. Qed.

Lemma __try_same_stack (p : parser) :
  agree_at p -> __try pystmt rec1 p = __try pystmt rec2 p.
Proof. intros Heq. unfold __try, preppy. agree Heq. Qed.

Lemma match_skip_same_stack (p : parser) :
  agree_at p -> match_skip pystmt rec1 p = match_skip pystmt rec2 p.
Proof. intros Heq. unfold match_skip. agree Heq. Qed.

Lemma __match_same_stack (p : parser) :
  agree_at p ->
  __match pystmt ast_parse rec1 p = __match pystmt ast_parse rec2 p.
Proof. intros Heq. unfold __match, preppy. agree Heq. Qed.

Lemma case_turn_same_stack (p : parser) :
  agree_at p ->
  case_turn pystmt ast_parse rec1 p = case_turn pystmt ast_parse rec2 p.
Proof. intros Heq. unfold case_turn, preppy. agree Heq. Qed.

Lemma __case_same_stack (p : parser) :
  agree_at p -> __case pystmt rec1 p = __case pystmt rec2 p.
Proof. intros Heq. unfold __case. agree Heq. Qed.

Lemma handler_same_stack (k : ustr) (p : parser) :
  ustr_eqb k (u "tdef") = false ->
  agree_at p ->
  handler pystmt ast_parse has_value rec1 k p
  = handler pystmt ast_parse has_value rec2 k p.
Proof.
  intros Hk Heq.
  unfold handler, __if, __eval, __continue, __from, __assert. rewrite Hk.
  repeat match goal with
    | |- (if ?c then _ else _) = _ =>
        destruct c;
        [ first [ reflexivity
                | apply __while_same_stack; exact Heq
                | apply __for_same_stack; exact Heq
                | apply __with_same_stack; exact Heq
                | apply __try_same_stack; exact Heq
                | apply __match_same_stack; exact Heq
                | apply __case_same_stack; exact Heq
                | apply Heq; reflexivity ] | ]
    end.
  reflexivity.
Qed.

Lemma preppy_body_same_stack (followers : list ustr) (pop fixEmpty : bool)
  (p : parser) :
  agree_at p ->
  preppy_body pystmt rec1 followers pop fixEmpty p
  = preppy_body pystmt rec2 followers pop fixEmpty p.
Proof. intros Heq. unfold preppy_body. agree Heq. Qed.

Lemma preppy_loop_same_stack (followers : list ustr) (p : parser) :
  (forall k, cur_kind pystmt p = Ok k -> ustr_eqb k (u "tdef") = false) ->
  agree_at p ->
  preppy_loop isPy310 pystmt ast_parse has_value rec1 followers p
  = preppy_loop isPy310 pystmt ast_parse has_value rec2 followers p.
Proof.
  intros Hk Heq. unfold preppy_loop.
  destruct (cur_kind pystmt p) as [k|]; cbn [bind]; [|reflexivity].
  destruct (kind_in k followers); [reflexivity|].
  destruct (kind_in k (funcs isPy310)).
  2:{ destruct (serror_raises (A := list pnode * parser) p invalid_syntax)
        as [e He].
      rewrite He. reflexivity. }
  rewrite <- (handler_same_stack k p (Hk k eq_refl) Heq).
  destruct (handler pystmt ast_parse has_value rec1 k p) as [[nodes q]|] eqn:E;
    cbn [bind]; [|reflexivity].
  apply (handler_keeps rec1 rec1_keeps) in E.
  rewrite (Heq _ q E). reflexivity.
Qed.

Lemma run_step_same_stack (t : task) (p : parser) :
  (forall followers k,
     t = T_loop pystmt followers -> cur_kind pystmt p = Ok k ->
     ustr_eqb k (u "tdef") = false) ->
  agree_at p ->
  run_step isPy310 pystmt ast_parse has_value rec1 t p
  = run_step isPy310 pystmt ast_parse has_value rec2 t p.
Proof.
  intros Hk Heq. destruct t; cbn [run_step].
  - apply preppy_body_same_stack; exact Heq.
  - apply preppy_loop_same_stack; [|exact Heq].
    intros k. apply (Hk followers k eq_refl).
  - apply if_turn_same_stack; exact Heq.
  - apply try_turn_same_stack; exact Heq.
  - apply match_skip_same_stack; exact Heq.
  - apply case_turn_same_stack; exact Heq.
Qed.

End StackStep.

(** [__tdef] calls the other routines once, for its body, on the stack
    it was called with and one more entry. *)
Lemma __tdef_body_pushed (rec1 rec2 : task -> parser -> outcome)
  (p : parser) :
  (forall t q,
     __inTdef pystmt q
     = __inTdef pystmt p ++ [(__inWhile pystmt p, __inFor pystmt p)] ->
     rec1 t q = rec2 t q) ->
  __tdef pystmt ast_parse rec1 p = __tdef pystmt ast_parse rec2 p.
Proof.
  intros Heq. unfold __tdef, preppy.
  destruct (or_error _ _ _ _); cbn [bind]; [|reflexivity].
  destruct (tokenPop _ _) as [[tk q]|] eqn:Hp; cbn [bind]; [|reflexivity].
  apply tokenPop_ok in Hp. subst q.
  rewrite Heq; reflexivity.
Qed.

Lemma __return_by_depth (p : parser) :
  __return pystmt ast_parse p
  = match __inTdef pystmt p with
    | [] => serror pystmt p (u "return statement outside while or for loop")
    | _ :: _ => return_statement pystmt ast_parse p
    end.
Proof.
  unfold __return, return_statement.
  destruct (__inTdef pystmt p); cbn [is_empty_stack]; [|reflexivity].
  destruct (serror_raises (A := unit) p
              (u "return statement outside while or for loop")) as [e He].
  rewrite He. cbn [bind].
  unfold serror in *. destruct (token_at pystmt p _); cbn [bind] in *;
    [unfold lexerror in *|]; congruence.
Qed.

(** The parser is the parser by depth, at the depth that is the height of
    the stack [__inTdef]. *)
Lemma run_task_by_depth (fuel d : nat) (t : task) (p : parser) :
  length (__inTdef pystmt p) = d ->
  run_task isPy310 pystmt ast_parse has_value fuel t p
  = run_by_depth isPy310 pystmt ast_parse has_value fuel d t p.
Proof.
  revert d t p. induction fuel as [|fuel IH]; intros d t p Hd; [reflexivity|].
  cbn [run_task run_by_depth].
  pose proof (run_task_keeps fuel) as Hkeep.
  assert (Hsame : forall t0 q,
            __inTdef pystmt q = __inTdef pystmt p ->
            run_task isPy310 pystmt ast_parse has_value fuel t0 q
            = run_by_depth isPy310 pystmt ast_parse has_value fuel d t0 q).
  { intros t0 q Hq. apply IH. rewrite Hq. exact Hd. }
  destruct t as [followers pop fixEmpty|followers| |body handlers orelse| |];
    cbn [step_by_depth run_step].
  - apply preppy_body_same_stack; first [exact Hkeep|exact Hsame].
  - unfold preppy_loop, loop_by_depth.
    destruct (cur_kind pystmt p) as [k|]; cbn [bind]; [|reflexivity].
    destruct (kind_in k followers); [reflexivity|].
    assert (Hrest : forall r : outcome,
              (forall nodes q, r = Ok (nodes, q) ->
                 __inTdef pystmt q = __inTdef pystmt p) ->
              (r0 <- r ;;
               let '(nodes, p0) := r0 in
               r1 <- run_task isPy310 pystmt ast_parse has_value fuel
                       (T_loop pystmt followers) p0 ;;
               let '(more, p1) := r1 in Ok (nodes ++ more, p1))
              = (r0 <- r ;;
                 let '(nodes, p0) := r0 in
                 r1 <- run_by_depth isPy310 pystmt ast_parse has_value fuel d
                         (T_loop pystmt followers) p0 ;;
                 let '(more, p1) := r1 in Ok (nodes ++ more, p1))).
    { intros [[nodes q]|e] Hr; cbn [bind]; [|reflexivity].
      rewrite (Hsame _ q (Hr nodes q eq_refl)). reflexivity. }
    destruct (ustr_eqb k (u "tdef")) eqn:Htd.
    + apply ustr_eqb_eq in Htd. subst k.
      replace (kind_in (u "tdef") (funcs isPy310)) with true
        by (destruct isPy310; reflexivity).
      change (handler pystmt ast_parse has_value
                (run_task isPy310 pystmt ast_parse has_value fuel)
                (u "tdef") p)
        with (__tdef pystmt ast_parse
                (run_task isPy310 pystmt ast_parse has_value fuel) p).
      rewrite (__tdef_body_pushed
                 (run_task isPy310 pystmt ast_parse has_value fuel)
                 (run_by_depth isPy310 pystmt ast_parse has_value fuel (S d))).
      2:{ intros t0 q Hq. apply IH. rewrite Hq, length_app. cbn. lia. }
      rewrite <- (__tdef_body_pushed
                 (run_task isPy310 pystmt ast_parse has_value fuel)
                 (run_by_depth isPy310 pystmt ast_parse has_value fuel (S d))).
      2:{ intros t0 q Hq. apply IH. rewrite Hq, length_app. cbn. lia. }
      apply Hrest. intros nodes q Hr.
      exact (__tdef_keeps _ Hkeep _ _ _ Hr).
    + destruct (ustr_eqb k (u "return")) eqn:Hre.
      * apply ustr_eqb_eq in Hre. subst k.
        replace (kind_in (u "return") (funcs isPy310)) with true
          by (destruct isPy310; reflexivity).
        change (handler pystmt ast_parse has_value
                  (run_task isPy310 pystmt ast_parse has_value fuel)
                  (u "return") p)
          with (__return pystmt ast_parse p).
        rewrite __return_by_depth.
        replace (match d with
                 | O => serror pystmt p
                          (u "return statement outside while or for loop")
                 | S _ => return_statement pystmt ast_parse p
                 end)
          with (match __inTdef pystmt p with
                | [] => serror pystmt p
                          (u "return statement outside while or for loop")
                | _ :: _ => return_statement pystmt ast_parse p
                end)
          by (subst d; destruct (__inTdef pystmt p); reflexivity).
        apply Hrest. intros nodes q Hr. rewrite <- __return_by_depth in Hr.
        exact (__return_keeps _ _ _ Hr).
      * destruct (kind_in k (funcs isPy310)).
        2:{ destruct (serror_raises (A := list pnode * parser) p
                        invalid_syntax) as [e He].
            rewrite He. reflexivity. }
        rewrite <- (handler_same_stack _ _ Hkeep k p Htd Hsame).
        apply Hrest. intros nodes q Hr.
        exact (handler_keeps _ Hkeep _ _ _ _ Hr).
  - apply if_turn_same_stack; first [exact Hkeep|exact Hsame].
  - apply try_turn_same_stack; first [exact Hkeep|exact Hsame].
  - apply match_skip_same_stack; first [exact Hkeep|exact Hsame].
  - apply case_turn_same_stack; first [exact Hkeep|exact Hsame].
Qed.

(** C4, amended: the handler of a [return] directive raises the syntax
    error exactly when the stack [__inTdef] of open named sub-blocks is
    empty, and accepts the directive when the stack is not empty and the
    text is a statement.  The stack is empty at the start; every routine
    that returns leaves it as it found it, the handler of the parameter
    block [def(...)] among them; [__tdef], the handler of a named sub-block
    [def name(...)] ... [enddef], calls the other routines for its body on
    the stack with one more entry, and every other handler and every other
    step of the parser calls them on the stack it was called with.  So the
    parser is the parser by depth, which counts the named sub-blocks a
    directive stands in and refuses a [return] at depth 0 and at no other
    depth: a [return] directive that the parser comes to is accepted if and
    only if it stands in the body of a named sub-block and its text is a
    statement. *)
Theorem return_needs_named_block :
  (forall p tk,
     token_at pystmt p (_tokenX pystmt p) = Ok tk ->
     __inTdef pystmt p = [] ->
     __return pystmt ast_parse p
     = Raise (SyntaxError (u "return statement outside while or for loop")
                (start tk)))
  /\ (forall p text n,
        __inTdef pystmt p <> [] ->
        tokenText pystmt p false true 0 = Ok text ->
        rparse pystmt ast_parse text = Ok n ->
        __return pystmt ast_parse p
        = Ok (map (N_raw pystmt) n,
              set_tokenX pystmt p (_tokenX pystmt p + 1)%Z))
  /\ (forall text toks ds,
        __inTdef pystmt (parser_init pystmt text toks ds) = [])
  /\ (forall fuel t p r p',
        run_task isPy310 pystmt ast_parse has_value fuel t p = Ok (r, p') ->
        __inTdef pystmt p' = __inTdef pystmt p)
  /\ (forall p r p',
        __def pystmt ast_parse p = Ok (r, p') ->
        __inTdef pystmt p' = __inTdef pystmt p)
  /\ (forall rec1 rec2 p,
        (forall t q, __inTdef pystmt q <> [] -> rec1 t q = rec2 t q) ->
        __tdef pystmt ast_parse rec1 p = __tdef pystmt ast_parse rec2 p)
  /\ (forall fuel followers p tk,
        token_at pystmt p (_tokenX pystmt p) = Ok tk ->
        kind tk = u "return" ->
        kind_in (u "return") followers = false ->
        __inTdef pystmt p = [] ->
        run_task isPy310 pystmt ast_parse has_value (S fuel)
          (T_loop pystmt followers) p
        = Raise (SyntaxError
                   (u "return statement outside while or for loop")
                   (start tk)))
  /\ (forall rec1 rec2 p,
        (forall t q,
           __inTdef pystmt q
           = __inTdef pystmt p ++ [(__inWhile pystmt p, __inFor pystmt p)] ->
           rec1 t q = rec2 t q) ->
        __tdef pystmt ast_parse rec1 p = __tdef pystmt ast_parse rec2 p)
  /\ (forall rec1 rec2 k p,
        (forall t, keeps_inTdef (rec1 t)) ->
        ustr_eqb k (u "tdef") = false ->
        agree_at pystmt rec1 rec2 p ->
        handler pystmt ast_parse has_value rec1 k p
        = handler pystmt ast_parse has_value rec2 k p)
  /\ (forall rec1 rec2 t p,
        (forall t, keeps_inTdef (rec1 t)) ->
        (forall followers k,
           t = T_loop pystmt followers -> cur_kind pystmt p = Ok k ->
           ustr_eqb k (u "tdef") = false) ->
        agree_at pystmt rec1 rec2 p ->
        run_step isPy310 pystmt ast_parse has_value rec1 t p
        = run_step isPy310 pystmt ast_parse has_value rec2 t p)
  /\ (forall fuel t p,
        run_task isPy310 pystmt ast_parse has_value fuel t p
        = run_by_depth isPy310 pystmt ast_parse has_value fuel
            (length (__inTdef pystmt p)) t p)
  /\ (forall text,
        parse isPy310 unicode_isalnum pystmt ast_parse has_value text
        = parse_by_depth isPy310 pystmt ast_parse has_value unicode_isalnum
            text).
Proof.
  assert (H1 : forall p tk,
             token_at pystmt p (_tokenX pystmt p) = Ok tk ->
             __inTdef pystmt p = [] ->
             __return pystmt ast_parse p
             = Raise (SyntaxError
                        (u "return statement outside while or for loop")
                        (start tk))).
  { intros p tk Ht Hs. unfold __return, serror. rewrite Hs, Ht.
    reflexivity. }
  split; [exact H1|]. split.
  { intros p text n Hs Ht Hr. unfold __return.
    destruct (__inTdef pystmt p) eqn:E; [contradiction|].
    cbn [is_empty_stack bind]. rewrite Ht. cbn [bind]. rewrite Hr.
    cbn [or_error bind].
    destruct (tokenText_token _ _ _ _ _ Ht) as [tk Htk].
    unfold tokenPop. rewrite Htk. reflexivity. }
  split; [reflexivity|]. split; [apply run_task_keeps|].
  split; [apply __def_keeps|]. split; [apply __tdef_body_inside|].
  split.
  { intros fuel followers p tk Ht Hk Hf Hs.
    cbn [run_task run_step]. unfold preppy_loop, cur_kind.
    rewrite Ht. cbn [bind]. rewrite Hk, Hf.
    assert (Hin : kind_in (u "return") (funcs isPy310) = true)
      by (destruct isPy310; reflexivity).
    rewrite Hin.
    change (handler pystmt ast_parse has_value
              (run_task isPy310 pystmt ast_parse has_value fuel)
              (u "return") p)
      with (__return pystmt ast_parse p).
    rewrite (H1 p tk Ht Hs). reflexivity. }
  split; [apply __tdef_body_pushed|].
  split; [intros rec1 rec2 k p Hk; apply handler_same_stack; exact Hk|].
  split; [intros rec1 rec2 t p Hk; apply run_step_same_stack; exact Hk|].
  split; [intros fuel t p; apply run_task_by_depth; reflexivity|].
  intros text. unfold parse, parse_by_depth.
  destruct (tokenize isPy310 unicode_isalnum text) as [[toks ds]|e];
    cbn [bind]; [|reflexivity].
  apply run_task_by_depth. reflexivity.
Qed.

(** *** The bound on the recursion is never reached *)

Lemma token_at_fuel (p : parser) (i : Z) :
  token_at pystmt p i <> Raise OutOfFuel.
Proof.
  unfold token_at. destruct (_ <? 0)%Z; [|destruct (_ <? 0)%Z];
    try discriminate; destruct (nth_error _ _); discriminate.
Qed.

Lemma token_at_left (p : parser) (tk : Token) :
  (0 <= _tokenX pystmt p)%Z ->
  token_at pystmt p (_tokenX pystmt p) = Ok tk ->
  (1 <= left_over p)%Z.
Proof.
  unfold token_at, left_over. intros H0.
  destruct (_tokenX pystmt p <? 0)%Z eqn:E; [lia|].
  rewrite E. destruct (nth_error _ _) eqn:En; [|discriminate].
  intros _. assert (Hl : (Z.to_nat (_tokenX pystmt p)
                          < length (_tokens pystmt p))%nat)
    by (apply nth_error_Some; congruence).
  lia.
Qed.

Lemma error_fuel {A : Type} (p : parser) (msg : ustr) :
  error (A := A) pystmt p msg <> Raise OutOfFuel.
Proof.
  unfold error. destruct (token_at pystmt p _) eqn:E; [discriminate|].
  cbn. intros H; inversion H; subst. exact (token_at_fuel _ _ E).
Qed.

Lemma serror_fuel {A : Type} (p : parser) (msg : ustr) :
  serror (A := A) pystmt p msg <> Raise OutOfFuel.
Proof.
  unfold serror. destruct (token_at pystmt p _) eqn:E; [discriminate|].
  cbn. intros H; inversion H; subst. exact (token_at_fuel _ _ E).
Qed.

Lemma or_error_fuel {A : Type} (p : parser) (msg : ustr) (r : res A) :
  or_error pystmt p msg r <> Raise OutOfFuel.
Proof. unfold or_error. destruct r; [discriminate | apply error_fuel]. Qed.

Lemma tokenText_fuel (p : parser) (cr st : bool) (fcp : Z) :
  tokenText pystmt p cr st fcp <> Raise OutOfFuel.
Proof.
  unfold tokenText. destruct (token_at pystmt p _) eqn:E; [discriminate|].
  cbn. intros H; inversion H; subst. exact (token_at_fuel _ _ E).
Qed.

Lemma tokenPop_fuel (p : parser) : tokenPop pystmt p <> Raise OutOfFuel.
Proof.
  unfold tokenPop. destruct (token_at pystmt p _) eqn:E; [discriminate|].
  cbn. intros H; inversion H; subst. exact (token_at_fuel _ _ E).
Qed.

Lemma cur_kind_fuel (p : parser) : cur_kind pystmt p <> Raise OutOfFuel.
Proof.
  unfold cur_kind. destruct (token_at pystmt p _) eqn:E; [discriminate|].
  cbn. intros H; inversion H; subst. exact (token_at_fuel _ _ E).
Qed.

Lemma cur_kind_left (p : parser) (k : ustr) :
  (0 <= _tokenX pystmt p)%Z -> cur_kind pystmt p = Ok k ->
  (1 <= left_over p)%Z.
Proof.
  unfold cur_kind. destruct (token_at pystmt p _) eqn:E; [|discriminate].
  intros H0 _. eapply token_at_left; eauto.
Qed.

Lemma tokenText_left (p : parser) (cr st : bool) (fcp : Z) (text : ustr) :
  (0 <= _tokenX pystmt p)%Z -> tokenText pystmt p cr st fcp = Ok text ->
  (1 <= left_over p)%Z.
Proof.
  intros H0 H. destruct (tokenText_token _ _ _ _ _ H) as [tk Htk].
  eapply token_at_left; eauto.
Qed.

Lemma rparse_fuel (text : ustr) :
  rparse pystmt ast_parse text <> Raise OutOfFuel.
Proof.
  unfold rparse. destruct (ast_parse text); [discriminate|].
  destruct (negb _); [discriminate|].
  destruct (ast_parse _); discriminate.
Qed.

Lemma iparse_fuel (text : ustr) :
  iparse pystmt ast_parse text <> Raise OutOfFuel.
Proof.
  unfold iparse. destruct (rparse pystmt ast_parse text) eqn:E; cbn.
  - destruct v; discriminate.
  - intros H; inversion H; subst. exact (rparse_fuel _ E).
Qed.

Lemma dedent_lines_fuel (indent : ustr) (ffw : nat) (lines : list ustr) :
  dedent_lines indent ffw lines <> Raise OutOfFuel.
Proof.
  induction lines as [|l ls IH]; simpl; [discriminate|].
  destruct (blank_or_comment l).
  - destruct (dedent_lines indent ffw ls); [discriminate | exact IH].
  - destruct (negb _); [discriminate|].
    destruct (dedent_lines indent ffw ls); [discriminate | exact IH].
Qed.

Lemma dedent_fuel (text : ustr) : dedent text <> Raise OutOfFuel.
Proof.
  unfold dedent. destruct (skipn _ _); [discriminate|].
  destruct (str_find _ _); [|discriminate].
  destruct (dedent_lines _ _ _) eqn:E; [discriminate|].
  cbn. intros H; inversion H; subst. exact (dedent_lines_fuel _ _ _ E).
Qed.

(** What a computation that raised [OutOfFuel] went through. *)
Ltac no_fuel :=
  repeat match goal with
    | H : Ok _ = Raise _ |- _ => discriminate H
    | H : Raise ?e = Raise OutOfFuel |- _ =>
        first [ discriminate H | is_var e; inversion H; subst; clear H ]
    | H : token_at _ _ _ = Raise OutOfFuel |- _ =>
        exfalso; exact (token_at_fuel _ _ H)
    | H : error _ _ _ = Raise OutOfFuel |- _ =>
        exfalso; exact (error_fuel _ _ H)
    | H : serror _ _ _ = Raise OutOfFuel |- _ =>
        exfalso; exact (serror_fuel _ _ H)
    | H : or_error _ _ _ _ = Raise OutOfFuel |- _ =>
        exfalso; exact (or_error_fuel _ _ _ H)
    | H : tokenText _ _ _ _ _ = Raise OutOfFuel |- _ =>
        exfalso; exact (tokenText_fuel _ _ _ _ H)
    | H : tokenPop _ _ = Raise OutOfFuel |- _ =>
        exfalso; exact (tokenPop_fuel _ H)
    | H : cur_kind _ _ = Raise OutOfFuel |- _ =>
        exfalso; exact (cur_kind_fuel _ H)
    | H : rparse _ _ _ = Raise OutOfFuel |- _ =>
        exfalso; exact (rparse_fuel _ H)
    | H : iparse _ _ _ = Raise OutOfFuel |- _ =>
        exfalso; exact (iparse_fuel _ H)
    | H : dedent _ = Raise OutOfFuel |- _ =>
        exfalso; exact (dedent_fuel _ H)
    | H : bind ?r _ = Raise OutOfFuel |- _ =>
        let E := fresh "E" in destruct r eqn:E; cbn [bind] in H
    | H : match ?x with _ => _ end = Raise OutOfFuel |- _ =>
        let E := fresh "E" in destruct x eqn:E
    end.

(** A handler that parses a single directive consumes a token. *)
Ltac single_directive f :=
  intros p H0; split;
  [ intros H; unfold f in H; no_fuel
  | intros r p' H; unfold f in H; inv_ok; cbn;
    (split; [ reflexivity | lia ]) ].

Lemma __def_progress p :
  (0 <= _tokenX pystmt p)%Z -> progress 1 p (__def pystmt ast_parse p).
Proof. revert p. single_directive @__def. Qed.

Lemma __return_progress p :
  (0 <= _tokenX pystmt p)%Z -> progress 1 p (__return pystmt ast_parse p).
Proof. revert p. single_directive @__return. Qed.

Lemma __break_progress stmt p :
  (0 <= _tokenX pystmt p)%Z -> progress 1 p (__break pystmt stmt p).
Proof. revert p. single_directive @__break. Qed.

Lemma __raise_progress p :
  (0 <= _tokenX pystmt p)%Z -> progress 1 p (__raise pystmt ast_parse p).
Proof. revert p. single_directive @__raise. Qed.

Lemma __import_progress p :
  (0 <= _tokenX pystmt p)%Z -> progress 1 p (__import pystmt ast_parse p).
Proof. revert p. single_directive @__import. Qed.

Lemma __script_progress mode p :
  (0 <= _tokenX pystmt p)%Z ->
  progress 1 p (__script pystmt ast_parse mode p).
Proof. revert p. single_directive @__script. Qed.

Lemma __const_progress p :
  (0 <= _tokenX pystmt p)%Z -> progress 1 p (__const pystmt p).
Proof. revert p. single_directive @__const. Qed.

Lemma __expr_progress p :
  (0 <= _tokenX pystmt p)%Z ->
  progress 1 p (__expr pystmt ast_parse has_value p).
Proof. revert p. single_directive @__expr. Qed.

Lemma tokenPop_left (p q : parser) (t : Token) :
  (0 <= _tokenX pystmt p)%Z ->
  tokenPop pystmt p = Ok (t, q) ->
  (1 <= Z.of_nat (length (_tokens pystmt p)) - _tokenX pystmt p)%Z
  /\ q = set_tokenX pystmt p (_tokenX pystmt p + 1)%Z.
Proof.
  intros H0 H. split; [|eapply tokenPop_ok; eauto].
  unfold tokenPop in H.
  destruct (token_at pystmt p _) eqn:E; [|discriminate].
  pose proof (token_at_left _ _ H0 E). unfold left_over in *. lia.
Qed.

Lemma advance_nonneg (t : task) (p : parser) : (0 <= advance t p)%Z.
Proof.
  destruct t; cbn; try lia.
  - destruct pop; lia.
  - destruct (cur_kind pystmt p); [destruct (ustr_eqb _ _)|]; lia.
Qed.

Section FuelStep.

Variable rec : task -> parser -> outcome.
Variable f : nat.
Hypothesis rec_progress :
  forall t q, (0 <= _tokenX pystmt q)%Z -> (need t q <= Z.of_nat f)%Z ->
              progress (advance t q) q (rec t q).

(** The arithmetic of the cursor, once the lists of tokens are
    identified. *)
Ltac fields :=
  cbn [_tokenX _tokens set_tokenX set_loops set_inTdef set_inMatch
       set_inCase set_fnc_defn fst snd] in *.

Ltac cursor :=
  fields; unfold need, left_over in *; fields;
  repeat match goal with
    | H : _tokens _ ?a = _tokens _ ?b |- _ =>
        rewrite H in *; clear H
    end;
  lia.

Ltac pop1 :=
  match goal with
  | H : tokenPop _ ?p = Ok ?v |- _ => is_var v; destruct v
  | H : tokenPop _ ?p = Ok (_, _) |- _ =>
      let Hl := fresh "Hl" in
      apply tokenPop_left in H; [destruct H as [Hl ->] | cursor]
  end.

Ltac rec1 :=
  match goal with
  | H : rec _ _ = Ok ?v |- _ => is_var v; destruct v
  | H : rec ?t ?q = Ok (_, _) |- _ =>
      let P := fresh "P" in
      let Ht := fresh "Ht" in
      let Hx := fresh "Hx" in
      let Hn := fresh "Hn" in
      assert (P : progress (advance t q) q (rec t q))
        by (apply rec_progress; cursor);
      destruct P as [_ P]; destruct (P _ _ H) as [Ht Hx];
      pose proof (advance_nonneg t q) as Hn;
      clear P H; cbn [advance] in Hx, Hn
  end.

Ltac inv_run := repeat first [ pop1 | rec1 | inv_base ].

Ltac rec_fuel :=
  match goal with
  | H : rec ?t ?q = Raise OutOfFuel |- _ =>
      exfalso;
      assert (P : progress (advance t q) q (rec t q))
        by (apply rec_progress; cursor);
      destruct P as [P _]; exact (P H)
  end.

Ltac fuel_run := no_fuel; inv_run; rec_fuel.

Ltac arrived := split; [ fields; congruence | cursor ].

Lemma __with_progress p :
  (0 <= _tokenX pystmt p)%Z ->
  (3 * left_over p + 1 <= Z.of_nat f)%Z ->
  progress 2 p (__with pystmt ast_parse rec p).
Proof.
  intros H0 Hf. split.
  - intros H. unfold __with, preppy in H. fuel_run.
  - intros r p' H. unfold __with, preppy in H.
    inv_run. arrived.
Qed.

Lemma __tdef_progress p :
  (0 <= _tokenX pystmt p)%Z ->
  (3 * left_over p + 1 <= Z.of_nat f)%Z ->
  progress 2 p (__tdef pystmt ast_parse rec p).
Proof.
  intros H0 Hf. split.
  - intros H. unfold __tdef, preppy in H. fuel_run.
  - intros r p' H. unfold __tdef, preppy in H. inv_run. arrived.
Qed.

Lemma __while_progress p :
  (0 <= _tokenX pystmt p)%Z ->
  (3 * left_over p + 1 <= Z.of_nat f)%Z ->
  progress 2 p (__while pystmt ast_parse rec p).
Proof.
  intros H0 Hf. split.
  - intros H. unfold __while, loop_orelse, preppy in H. fuel_run.
  - intros r p' H. unfold __while, loop_orelse, preppy in H.
    inv_run; arrived.
Qed.

Lemma __for_progress p :
  (0 <= _tokenX pystmt p)%Z ->
  (3 * left_over p + 1 <= Z.of_nat f)%Z ->
  progress 2 p (__for pystmt ast_parse rec p).
Proof.
  intros H0 Hf. split.
  - intros H. unfold __for, loop_orelse, preppy in H. fuel_run.
  - intros r p' H. unfold __for, loop_orelse, preppy in H.
    inv_run; arrived.
Qed.

Lemma if_turn_progress p :
  (0 <= _tokenX pystmt p)%Z ->
  (3 * left_over p <= Z.of_nat f)%Z ->
  progress 2 p (if_turn pystmt ast_parse rec p).
Proof.
  intros H0 Hf. split.
  - intros H. unfold if_turn, preppy in H. fuel_run.
  - intros r p' H. unfold if_turn, preppy in H. inv_run; arrived.
Qed.

Lemma try_turn_progress body handlers orelse p :
  (0 <= _tokenX pystmt p)%Z ->
  (3 * left_over p <= Z.of_nat f)%Z ->
  progress 1 p (try_turn pystmt ast_parse rec body handlers orelse p).
Proof.
  intros H0 Hf. split.
  - intros H. unfold try_turn, preppy in H. fuel_run.
  - intros r p' H. unfold try_turn, preppy in H. inv_run; arrived.
Qed.

Lemma __try_progress p :
  (0 <= _tokenX pystmt p)%Z ->
  (3 * left_over p + 1 <= Z.of_nat f)%Z ->
  progress 2 p (__try pystmt rec p).
Proof.
  intros H0 Hf. split.
  - intros H. unfold __try, preppy in H. fuel_run.
  - intros r p' H. unfold __try, preppy in H. inv_run; arrived.
Qed.

Lemma match_skip_progress p :
  (0 <= _tokenX pystmt p)%Z ->
  (3 * left_over p <= Z.of_nat f)%Z ->
  progress 0 p (match_skip pystmt rec p).
Proof.
  intros H0 Hf. split.
  - intros H. unfold match_skip in H. fuel_run.
  - intros r p' H. unfold match_skip in H. inv_run; arrived.
Qed.

Lemma __match_progress p :
  (0 <= _tokenX pystmt p)%Z ->
  (3 * left_over p + 1 <= Z.of_nat f)%Z ->
  progress 2 p (__match pystmt ast_parse rec p).
Proof.
  intros H0 Hf. split.
  - intros H. unfold __match, preppy in H. fuel_run.
  - intros r p' H. unfold __match, preppy in H. inv_run; arrived.
Qed.

Lemma progress_weaken (n m : Z) (p : parser) (o : outcome) :
  (m <= n)%Z -> progress n p o -> progress m p o.
Proof.
  intros Hle [Hf Hp]. split; [exact Hf|].
  intros r p' H. destruct (Hp r p' H). split; [assumption | lia].
Qed.

Lemma __if_progress p :
  (0 <= _tokenX pystmt p)%Z ->
  (3 * left_over p + 1 <= Z.of_nat f)%Z ->
  progress 2 p (__if pystmt rec p).
Proof.
  intros H0 Hf. unfold __if.
  apply (rec_progress (T_if pystmt) p H0). exact Hf.
Qed.

Lemma case_turn_progress p :
  (0 <= _tokenX pystmt p)%Z ->
  (3 * left_over p <= Z.of_nat f)%Z ->
  progress (advance (T_case_loop pystmt) p) p
    (case_turn pystmt ast_parse rec p).
Proof.
  intros H0 Hf. unfold case_turn, advance, cur_kind.
  destruct (token_at pystmt p (_tokenX pystmt p)) as [tk|e] eqn:Etk;
    cbn [bind].
  2:{ split; [|discriminate].
      intros H; inversion H; subst. exact (token_at_fuel _ _ Etk). }
  destruct (ustr_eqb (kind tk) (u "case")); cbn [negb].
  - split.
    + intros H. unfold preppy in H. fuel_run.
    + intros r p' H. unfold preppy in H. inv_run. arrived.
  - split; [discriminate|].
    intros r p' H. inversion H; subst. split; [reflexivity | lia].
Qed.

Lemma __case_progress p (k : ustr) :
  (0 <= _tokenX pystmt p)%Z ->
  (3 * left_over p + 1 <= Z.of_nat f)%Z ->
  cur_kind pystmt p = Ok k -> ustr_eqb k (u "case") = true ->
  progress 1 p (__case pystmt rec p).
Proof.
  intros H0 Hf Hk Hc. unfold __case.
  set (q := set_inCase pystmt p (__inCase pystmt p + 1)%Z).
  assert (Hq : progress (advance (T_case_loop pystmt) q) q
                 (rec (T_case_loop pystmt) q))
    by (apply rec_progress; subst q; cursor).
  assert (Ha : advance (T_case_loop pystmt) q = 1%Z).
  { unfold advance.
    change (cur_kind pystmt q) with (cur_kind pystmt p).
    now rewrite Hk, Hc. }
  rewrite Ha in Hq. destruct Hq as [Hf' Hp].
  destruct (rec (T_case_loop pystmt) q) as [[cases p2]|e] eqn:E;
    cbn [bind].
  - split; [discriminate|].
    intros r p' H. inversion H; subst.
    destruct (Hp _ _ eq_refl) as [Ht Hx]. subst q. arrived.
  - split; [|discriminate].
    intros H; inversion H; subst. now apply Hf'.
Qed.

Lemma handler_progress (t : ustr) p :
  (0 <= _tokenX pystmt p)%Z ->
  (3 * left_over p + 1 <= Z.of_nat f)%Z ->
  cur_kind pystmt p = Ok t ->
  progress 1 p (handler pystmt ast_parse has_value rec t p).
Proof.
  intros H0 Hf Hk. unfold handler, __eval, __continue, __from, __assert.
  repeat match goal with
    | |- progress _ _ (if ?c then _ else _) =>
        let E := fresh "E" in
        destruct c eqn:E;
        [ first [ apply __const_progress; assumption
                | apply __expr_progress; assumption
                | apply __script_progress; assumption
                | apply __def_progress; assumption
                | apply __break_progress; assumption
                | apply __raise_progress; assumption
                | apply __import_progress; assumption
                | apply __return_progress; assumption
                | apply (progress_weaken 2); [lia|];
                  first [ apply __while_progress; assumption
                        | apply __if_progress; assumption
                        | apply __for_progress; assumption
                        | apply __try_progress; assumption
                        | apply __with_progress; assumption
                        | apply __tdef_progress; assumption
                        | apply __match_progress; assumption ]
                | eapply __case_progress; eassumption ] | ]
    end.
  split; discriminate.
Qed.

Lemma preppy_loop_progress followers p :
  (0 <= _tokenX pystmt p)%Z ->
  (3 * left_over p + 1 <= Z.of_nat f)%Z ->
  progress 0 p (preppy_loop isPy310 pystmt ast_parse has_value rec
                  followers p).
Proof.
  intros H0 Hf. unfold preppy_loop.
  destruct (cur_kind pystmt p) as [t|e] eqn:Ek; cbn [bind].
  2:{ split; [|discriminate].
      intros H; inversion H; subst. exact (cur_kind_fuel _ Ek). }
  destruct (kind_in t followers).
  { split; [discriminate|].
    intros r p' H; inversion H; subst. split; [reflexivity | lia]. }
  destruct (kind_in t (funcs isPy310)).
  2:{ destruct (serror pystmt p invalid_syntax) eqn:Es; cbn [bind].
      - exfalso. exact (serror_not_ok _ _ _ Es).
      - split; [|discriminate].
        intros H; inversion H; subst. exact (serror_fuel _ _ Es). }
  destruct (handler_progress t p H0 Hf Ek) as [Hhf Hhp].
  destruct (handler pystmt ast_parse has_value rec t p)
    as [[nodes p1]|e] eqn:Eh; cbn [bind].
  2:{ split; [|discriminate].
      intros H; inversion H; subst. now apply Hhf. }
  destruct (Hhp _ _ eq_refl) as [Ht1 Hx1].
  pose proof (cur_kind_left _ _ H0 Ek) as Hl1.
  clear Hhf Hhp Eh.
  split.
  - intros H. fuel_run.
  - intros r p' H. inv_run. arrived.
Qed.

Lemma preppy_body_progress followers (pop fixEmpty : bool) p :
  (0 <= _tokenX pystmt p)%Z ->
  (3 * left_over p + 2 <= Z.of_nat f)%Z ->
  progress (if pop then 1 else 0) p
    (preppy_body pystmt rec followers pop fixEmpty p).
Proof.
  intros H0 Hf. split.
  - intros H. unfold preppy_body in H. fuel_run.
  - intros r p' H. unfold preppy_body in H. inv_run; arrived.
Qed.

Lemma run_step_progress (t : task) p :
  (0 <= _tokenX pystmt p)%Z ->
  (need t p <= Z.of_nat (S f))%Z ->
  progress (advance t p) p
    (run_step isPy310 pystmt ast_parse has_value rec t p).
Proof.
  intros H0 Hn. destruct t; cbn [run_step advance]; unfold need in Hn.
  - apply preppy_body_progress; [assumption | lia].
  - apply preppy_loop_progress; [assumption | lia].
  - apply if_turn_progress; [assumption | lia].
  - apply try_turn_progress; [assumption | lia].
  - apply match_skip_progress; [assumption | lia].
  - apply case_turn_progress; [assumption | lia].
Qed.

End FuelStep.

(** With fuel for the tokens that are left, a routine never stops on
    the bound, and when it returns it has moved the cursor forward. *)
Lemma run_task_progress (fuel : nat) (t : task) (p : parser) :
  (0 <= _tokenX pystmt p)%Z ->
  (need t p <= Z.of_nat fuel)%Z ->
  progress (advance t p) p
    (run_task isPy310 pystmt ast_parse has_value fuel t p).
Proof.
  revert t p. induction fuel as [|fuel IH]; intros t p H0 Hn.
  - exfalso. unfold need, left_over in Hn. destruct t; lia.
  - cbn [run_task].
    apply (run_step_progress _ fuel); [exact IH | assumption | assumption].
Qed.

(** [parse] is total: the bound on the recursion is never what it
    returns. *)
Lemma parse_never_out_of_fuel (text : ustr) :
  parse isPy310 unicode_isalnum pystmt ast_parse has_value text
  <> Raise OutOfFuel.
Proof.
  unfold parse.
  destruct (tokenize isPy310 unicode_isalnum text) as [[toks ds]|e] eqn:E;
    cbn [bind].
  - apply run_task_progress.
    + cbn. lia.
    + unfold need, left_over, parse_fuel. cbn. lia.
  - intros H; inversion H; subst.
    destruct (tokenize_raises _ _ _ _ E) as (msg & pos & Hc).
    discriminate.
Qed.

(** *** The nesting counters are restored *)

Ltac frame_done :=
  unfold frame in *;
  cbn [source _tokens _tokenX _defSeen __inFor __inWhile __inMatch __inCase
       __inTdef set_tokenX set_loops set_inTdef set_inMatch set_inCase
       set_fnc_defn] in *;
  repeat match goal with
    | H : (_, _) = (_, _) |- _ => inversion H; clear H
    end;
  repeat match goal with
    | |- (_, _) = (_, _) => apply f_equal2
    end;
  try congruence; try lia.

Lemma __def_frame : keeps_frame (__def pystmt ast_parse).
Proof. intros p r p' H. unfold __def in H. inv_ok. reflexivity. Qed.

Lemma __return_frame : keeps_frame (__return pystmt ast_parse).
Proof. intros p r p' H. unfold __return in H. inv_ok; reflexivity. Qed.

Lemma __break_frame (stmt : ustr) : keeps_frame (__break pystmt stmt).
Proof. intros p r p' H. unfold __break in H. inv_ok; reflexivity. Qed.

Lemma __raise_frame : keeps_frame (__raise pystmt ast_parse).
Proof. intros p r p' H. unfold __raise in H. inv_ok; reflexivity. Qed.

Lemma __import_frame : keeps_frame (__import pystmt ast_parse).
Proof. intros p r p' H. unfold __import in H. inv_ok; reflexivity. Qed.

Lemma __script_frame (mode : ustr) :
  keeps_frame (__script pystmt ast_parse mode).
Proof. intros p r p' H. unfold __script in H. inv_ok; reflexivity. Qed.

Lemma __const_frame : keeps_frame (__const pystmt).
Proof. intros p r p' H. unfold __const in H. inv_ok; reflexivity. Qed.

Lemma __expr_frame : keeps_frame (__expr pystmt ast_parse has_value).
Proof. intros p r p' H. unfold __expr in H. inv_ok; reflexivity. Qed.

Section FrameStep.

Variable rec : task -> parser -> outcome.
Hypothesis rec_frame : forall t, keeps_frame (rec t).

Ltac inv_frame :=
  repeat (inv_ok;
          repeat match goal with
            | H : rec _ _ = Ok ?v |- _ => is_var v; destruct v
            | H : rec _ _ = Ok (_, _) |- _ => apply rec_frame in H
            end).

Lemma __tdef_frame : keeps_frame (__tdef pystmt ast_parse rec).
Proof.
  intros p r p' H. unfold __tdef, preppy in H. inv_frame.
  unfold frame in *.
  cbn [source _tokens _tokenX _defSeen __inFor __inWhile __inMatch __inCase
       __inTdef set_tokenX set_loops set_inTdef] in *.
  match goal with
  | Hf : (_, _) = (_, _), Hr : rev _ = _ |- _ =>
      inversion Hf as [[Hs Ht Hd Hw Hfo Hm Hc Hi]]; clear Hf;
      rewrite Hi, rev_app_distr in Hr; cbn in Hr; inversion Hr; subst
  end.
  rewrite rev_involutive. congruence.
Qed.

Lemma loop_orelse_frame (end_kw : ustr) :
  keeps_frame (loop_orelse pystmt rec end_kw).
Proof.
  intros p r p' H. unfold loop_orelse, preppy in H. inv_frame; frame_done.
Qed.

Lemma __while_frame : keeps_frame (__while pystmt ast_parse rec).
Proof.
  intros p r p' H. unfold __while, preppy in H. inv_frame.
  match goal with
  | H : loop_orelse _ _ _ _ = Ok ?v |- _ =>
      try (is_var v; destruct v); apply loop_orelse_frame in H
  end.
  inv_frame. frame_done.
Qed.

Lemma __for_frame : keeps_frame (__for pystmt ast_parse rec).
Proof.
  intros p r p' H. unfold __for, preppy in H. inv_frame.
  match goal with
  | H : loop_orelse _ _ _ _ = Ok ?v |- _ =>
      try (is_var v; destruct v); apply loop_orelse_frame in H
  end.
  inv_frame. frame_done.
Qed.

Lemma __with_frame : keeps_frame (__with pystmt ast_parse rec).
Proof.
  intros p r p' H. unfold __with, preppy in H. inv_frame. frame_done.
Qed.

Lemma if_turn_frame : keeps_frame (if_turn pystmt ast_parse rec).
Proof.
  intros p r p' H. unfold if_turn, preppy in H. inv_frame; frame_done.
Qed.

Lemma try_turn_frame body handlers orelse :
  keeps_frame (try_turn pystmt ast_parse rec body handlers orelse).
Proof.
  intros p r p' H. unfold try_turn, preppy in H. inv_frame; frame_done.
Qed.

Lemma __try_frame : keeps_frame (__try pystmt rec).
Proof.
  intros p r p' H. unfold __try, preppy in H. inv_frame; frame_done.
Qed.

Lemma match_skip_frame : keeps_frame (match_skip pystmt rec).
Proof.
  intros p r p' H. unfold match_skip in H. inv_frame; frame_done.
Qed.

Lemma __match_frame : keeps_frame (__match pystmt ast_parse rec).
Proof.
  intros p r p' H. unfold __match, preppy in H. inv_frame; frame_done.
Qed.

Lemma case_turn_frame : keeps_frame (case_turn pystmt ast_parse rec).
Proof.
  intros p r p' H. unfold case_turn, preppy in H. inv_frame; frame_done.
Qed.

Lemma __case_frame : keeps_frame (__case pystmt rec).
Proof.
  intros p r p' H. unfold __case in H. inv_frame; frame_done.
Qed.

Lemma handler_frame (t : ustr) :
  keeps_frame (handler pystmt ast_parse has_value rec t).
Proof.
  intros p r p' H. unfold handler, __if, __eval, __continue, __from,
    __assert in H.
  repeat match type of H with
    | (if ?c then _ else _) = _ =>
        destruct c;
        [ first [ eapply __const_frame; eassumption
                | eapply __expr_frame; eassumption
                | eapply __while_frame; eassumption
                | eapply rec_frame; eassumption
                | eapply __for_frame; eassumption
                | eapply __script_frame; eassumption
                | eapply __def_frame; eassumption
                | eapply __break_frame; eassumption
                | eapply __try_frame; eassumption
                | eapply __raise_frame; eassumption
                | eapply __with_frame; eassumption
                | eapply __import_frame; eassumption
                | eapply __tdef_frame; eassumption
                | eapply __return_frame; eassumption
                | eapply __match_frame; eassumption
                | eapply __case_frame; eassumption ] | ]
    end.
  discriminate.
Qed.

Lemma run_step_frame (t : task) :
  keeps_frame (run_step isPy310 pystmt ast_parse has_value rec t).
Proof.
  intros p r p' H. destruct t; cbn [run_step] in H.
  - unfold preppy_body in H. inv_frame; frame_done.
  - unfold preppy_loop in H. inv_ok.
    + reflexivity.
    + match goal with
      | Hh : handler _ _ _ _ _ _ = Ok ?v |- _ =>
          try (is_var v; destruct v); apply handler_frame in Hh
      end.
      inv_frame. congruence.
  - eapply if_turn_frame; eauto.
  - eapply try_turn_frame; eauto.
  - eapply match_skip_frame; eauto.
  - eapply case_turn_frame; eauto.
Qed.

End FrameStep.

Lemma run_task_frame (fuel : nat) (t : task) :
  keeps_frame (run_task isPy310 pystmt ast_parse has_value fuel t).
Proof.
  revert t. induction fuel as [|fuel IH]; intros t p r p' H.
  - discriminate.
  - cbn [run_task] in H. eapply run_step_frame; eauto.
Qed.

(** The routines of a loop call the others with the counter of the loop
    raised; [__tdef] calls them with both counters at zero. *)
Lemma loop_orelse_agree (rec1 rec2 : task -> parser -> outcome)
  (end_kw : ustr) (p : parser) :
  (forall t, rec1 t p = rec2 t p) ->
  loop_orelse pystmt rec1 end_kw p = loop_orelse pystmt rec2 end_kw p.
Proof.
  intros Heq. unfold loop_orelse, preppy.
  destruct (token_at pystmt p _); cbn [bind]; [|reflexivity].
  destruct (ustr_eqb _ _); [apply Heq|reflexivity].
Qed.

Lemma __while_body_in_loop (rec1 rec2 : task -> parser -> outcome)
  (p : parser) :
  (forall t, keeps_frame (rec1 t)) ->
  (forall t q,
     __inWhile pystmt q = (__inWhile pystmt p + 1)%Z ->
     __inFor pystmt q = __inFor pystmt p ->
     rec1 t q = rec2 t q) ->
  __while pystmt ast_parse rec1 p = __while pystmt ast_parse rec2 p.
Proof.
  intros Hk Heq. unfold __while, preppy.
  destruct (or_error _ _ _ _); cbn [bind]; [|reflexivity].
  destruct (tokenPop _ _) as [[tk q]|] eqn:Hp; cbn [bind]; [|reflexivity].
  apply tokenPop_ok in Hp. subst q.
  rewrite <- Heq by reflexivity.
  destruct (rec1 _ _) as [[body q]|] eqn:E1; cbn [bind]; [|reflexivity].
  apply Hk in E1.
  rewrite (loop_orelse_agree rec1 rec2); [reflexivity|].
  intros t. apply Heq; frame_done.
Qed.

Lemma __for_body_in_loop (rec1 rec2 : task -> parser -> outcome)
  (p : parser) :
  (forall t, keeps_frame (rec1 t)) ->
  (forall t q,
     __inWhile pystmt q = __inWhile pystmt p ->
     __inFor pystmt q = (__inFor pystmt p + 1)%Z ->
     rec1 t q = rec2 t q) ->
  __for pystmt ast_parse rec1 p = __for pystmt ast_parse rec2 p.
Proof.
  intros Hk Heq. unfold __for, preppy.
  destruct (or_error _ _ _ _); cbn [bind]; [|reflexivity].
  destruct (tokenPop _ _) as [[tk q]|] eqn:Hp; cbn [bind]; [|reflexivity].
  apply tokenPop_ok in Hp. subst q.
  rewrite <- Heq by reflexivity.
  destruct (rec1 _ _) as [[body q]|] eqn:E1; cbn [bind]; [|reflexivity].
  apply Hk in E1.
  rewrite (loop_orelse_agree rec1 rec2); [reflexivity|].
  intros t. apply Heq; frame_done.
Qed.

Lemma __tdef_body_outside_loops (rec1 rec2 : task -> parser -> outcome)
  (p : parser) :
  (forall t q,
     __inWhile pystmt q = 0%Z -> __inFor pystmt q = 0%Z ->
     rec1 t q = rec2 t q) ->
  __tdef pystmt ast_parse rec1 p = __tdef pystmt ast_parse rec2 p.
Proof.
  intros Heq. unfold __tdef, preppy.
  destruct (or_error _ _ _ _); cbn [bind]; [|reflexivity].
  destruct (tokenPop _ _) as [[tk q]|] eqn:Hp; cbn [bind]; [|reflexivity].
  apply tokenPop_ok in Hp. subst q.
  rewrite Heq; reflexivity.
Qed.

(** X19: the handler of [break] and [continue] raises `... statement
    outside while or for loop` exactly when both counters [__inWhile] and
    [__inFor] are zero, and accepts the directive otherwise.  Both are zero
    at the start; every routine that returns leaves the counters, the
    stack of named blocks, the tokens and the source as it found them;
    [__while] and [__for] call the other routines with their counter
    raised by one, and [__tdef] calls them with both counters at zero: a
    [break] directly in a named block that stands in a loop is refused. *)
Theorem break_needs_enclosing_loop :
  (forall stmt p tk,
     token_at pystmt p (_tokenX pystmt p) = Ok tk ->
     tokenText pystmt p false true 0 = Ok stmt ->
     __inWhile pystmt p = 0%Z -> __inFor pystmt p = 0%Z ->
     __break pystmt stmt p
     = Raise (SyntaxError (stmt ++ u " statement outside while or for loop")
                (start tk)))
  /\ (forall stmt p,
        tokenText pystmt p false true 0 = Ok stmt ->
        __inWhile pystmt p <> 0%Z \/ __inFor pystmt p <> 0%Z ->
        __break pystmt stmt p
        = Ok ([if ustr_eqb stmt (u "break")
               then N_break pystmt else N_continue pystmt],
              set_tokenX pystmt p (_tokenX pystmt p + 1)%Z))
  /\ (forall text toks ds,
        __inWhile pystmt (parser_init pystmt text toks ds) = 0%Z
        /\ __inFor pystmt (parser_init pystmt text toks ds) = 0%Z)
  /\ (forall fuel t p r p',
        run_task isPy310 pystmt ast_parse has_value fuel t p = Ok (r, p') ->
        frame p' = frame p)
  /\ (forall rec1 rec2 p,
        (forall t, keeps_frame (rec1 t)) ->
        (forall t q,
           __inWhile pystmt q = (__inWhile pystmt p + 1)%Z ->
           __inFor pystmt q = __inFor pystmt p ->
           rec1 t q = rec2 t q) ->
        __while pystmt ast_parse rec1 p = __while pystmt ast_parse rec2 p)
  /\ (forall rec1 rec2 p,
        (forall t, keeps_frame (rec1 t)) ->
        (forall t q,
           __inWhile pystmt q = __inWhile pystmt p ->
           __inFor pystmt q = (__inFor pystmt p + 1)%Z ->
           rec1 t q = rec2 t q) ->
        __for pystmt ast_parse rec1 p = __for pystmt ast_parse rec2 p)
  /\ (forall rec1 rec2 p,
        (forall t q,
           __inWhile pystmt q = 0%Z -> __inFor pystmt q = 0%Z ->
           rec1 t q = rec2 t q) ->
        __tdef pystmt ast_parse rec1 p = __tdef pystmt ast_parse rec2 p)
  /\ (forall fuel followers p tk,
        token_at pystmt p (_tokenX pystmt p) = Ok tk ->
        kind tk = u "break" ->
        tokenText pystmt p false true 0 = Ok (u "break") ->
        kind_in (u "break") followers = false ->
        __inWhile pystmt p = 0%Z -> __inFor pystmt p = 0%Z ->
        run_task isPy310 pystmt ast_parse has_value (S fuel)
          (T_loop pystmt followers) p
        = Raise (SyntaxError (u "break statement outside while or for loop")
                   (start tk))).
Proof.
  assert (H1 : forall stmt p tk,
     token_at pystmt p (_tokenX pystmt p) = Ok tk ->
     tokenText pystmt p false true 0 = Ok stmt ->
     __inWhile pystmt p = 0%Z -> __inFor pystmt p = 0%Z ->
     __break pystmt stmt p
     = Raise (SyntaxError (stmt ++ u " statement outside while or for loop")
                (start tk))).
  { intros stmt p tk Ht Hx Hw Hf. unfold __break, serror.
    rewrite Hx. cbn [bind].
    replace (ustr_eqb stmt stmt) with true
      by (symmetry; apply ustr_eqb_eq; reflexivity).
    rewrite Hw, Hf, Ht. reflexivity. }
  split; [exact H1|]. split.
  { intros stmt p Hx Hl. unfold __break. rewrite Hx. cbn [bind].
    replace (ustr_eqb stmt stmt) with true
      by (symmetry; apply ustr_eqb_eq; reflexivity).
    cbn [negb].
    replace ((__inWhile pystmt p =? 0)%Z && (__inFor pystmt p =? 0)%Z)
      with false.
    2:{ symmetry. apply andb_false_iff.
        destruct Hl as [Hl|Hl]; [left|right]; apply Z.eqb_neq; exact Hl. }
    cbn [bind].
    destruct (tokenText_token _ _ _ _ _ Hx) as [tk Htk].
    unfold tokenPop. rewrite Htk. reflexivity. }
  split; [intros; split; reflexivity|].
  split; [apply run_task_frame|].
  split; [apply __while_body_in_loop|].
  split; [apply __for_body_in_loop|].
  split; [apply __tdef_body_outside_loops|].
  intros fuel followers p tk Ht Hk Hx Hf Hw Hfo.
  cbn [run_task run_step]. unfold preppy_loop, cur_kind.
  rewrite Ht. cbn [bind]. rewrite Hk, Hf.
  assert (Hin : kind_in (u "break") (funcs isPy310) = true)
    by (destruct isPy310; reflexivity).
  rewrite Hin.
  change (handler pystmt ast_parse has_value
            (run_task isPy310 pystmt ast_parse has_value fuel)
            (u "break") p)
    with (__break pystmt (u "break") p).
  rewrite (H1 (u "break") p tk Ht Hx Hw Hfo). reflexivity.
Qed.

(** *** No statement is left without a body *)

Lemma raw_nodes_ok (n : list pystmt) :
  forallb node_ok (map (N_raw pystmt) n) = true.
Proof. induction n; [reflexivity|exact IHn]. Qed.

Lemma nonempty_app_r {A : Type} (l : list A) (x : A) :
  nonempty (l ++ [x]) = true.
Proof. destruct l; reflexivity. Qed.

Ltac ok_split :=
  unfold result_ok, task_ok, handler_ok in *;
  cbn [snd] in *;
  repeat match goal with
    | H : _ && _ = true |- _ =>
        apply andb_true_iff in H; destruct H
    end.

Ltac ok_done :=
  ok_split;
  cbn [forallb node_ok snd];
  rewrite ?forallb_app; cbn [forallb node_ok snd];
  unfold handler_ok; cbn [snd];
  rewrite ?raw_nodes_ok, ?nonempty_app_r;
  repeat match goal with
    | H : ?x = true |- context [?x] => rewrite H
    end;
  try reflexivity.

Lemma __def_ok : nodes_ok (__def pystmt ast_parse).
Proof. intros p r p' H. unfold __def in H. inv_ok. reflexivity. Qed.

Lemma __return_ok : nodes_ok (__return pystmt ast_parse).
Proof. intros p r p' H. unfold __return in H. inv_ok; apply raw_nodes_ok. Qed.

Lemma __break_ok (stmt : ustr) : nodes_ok (__break pystmt stmt).
Proof.
  intros p r p' H. unfold __break in H. inv_ok;
    destruct (ustr_eqb stmt (u "break")); reflexivity.
Qed.

Lemma __raise_ok : nodes_ok (__raise pystmt ast_parse).
Proof. intros p r p' H. unfold __raise in H. inv_ok; apply raw_nodes_ok. Qed.

Lemma __import_ok : nodes_ok (__import pystmt ast_parse).
Proof. intros p r p' H. unfold __import in H. inv_ok; reflexivity. Qed.

Lemma __script_ok (mode : ustr) : nodes_ok (__script pystmt ast_parse mode).
Proof.
  intros p r p' H. unfold __script in H. inv_ok;
    first [reflexivity | apply raw_nodes_ok].
Qed.

Lemma __const_ok : nodes_ok (__const pystmt).
Proof. intros p r p' H. unfold __const in H. inv_ok; reflexivity. Qed.

Lemma __expr_ok : nodes_ok (__expr pystmt ast_parse has_value).
Proof. intros p r p' H. unfold __expr in H. inv_ok; reflexivity. Qed.

Section OkStep.

Variable rec : task -> parser -> outcome.
Hypothesis rec_ok :
  forall t p r p', rec t p = Ok (r, p') ->
                   task_ok t = true -> result_ok t r = true.

Ltac inv_nodes :=
  repeat (inv_ok;
          repeat match goal with
            | H : rec _ _ = Ok ?v |- _ => is_var v; destruct v
            | H : rec _ _ = Ok (_, _) |- _ =>
                apply rec_ok in H; [|solve [reflexivity | ok_done]]
            end).

Lemma __tdef_ok : nodes_ok (__tdef pystmt ast_parse rec).
Proof.
  intros p r p' H. unfold __tdef, preppy in H. inv_nodes. ok_done.
Qed.

Lemma loop_orelse_ok (end_kw : ustr) :
  nodes_ok (loop_orelse pystmt rec end_kw).
Proof.
  intros p r p' H. unfold loop_orelse, preppy in H. inv_nodes; ok_done.
Qed.

Lemma __while_ok : nodes_ok (__while pystmt ast_parse rec).
Proof.
  intros p r p' H. unfold __while, preppy in H. inv_nodes.
  match goal with
  | H : loop_orelse _ _ _ _ = Ok ?v |- _ =>
      try (is_var v; destruct v); apply loop_orelse_ok in H
  end.
  inv_nodes. ok_done.
Qed.

Lemma __for_ok : nodes_ok (__for pystmt ast_parse rec).
Proof.
  intros p r p' H. unfold __for, preppy in H. inv_nodes.
  match goal with
  | H : loop_orelse _ _ _ _ = Ok ?v |- _ =>
      try (is_var v; destruct v); apply loop_orelse_ok in H
  end.
  inv_nodes. ok_done.
Qed.

Lemma __with_ok : nodes_ok (__with pystmt ast_parse rec).
Proof.
  intros p r p' H. unfold __with, preppy in H. inv_nodes. ok_done.
Qed.

Lemma if_turn_ok : nodes_ok (if_turn pystmt ast_parse rec).
Proof.
  intros p r p' H. unfold if_turn, preppy in H. inv_nodes; ok_done.
Qed.

Lemma try_turn_ok body handlers orelse :
  task_ok (T_try_loop pystmt body handlers orelse) = true ->
  nodes_ok (try_turn pystmt ast_parse rec body handlers orelse).
Proof.
  intros Hok p r p' H. unfold try_turn, preppy in H. inv_nodes; ok_done.
Qed.

Lemma __try_ok : nodes_ok (__try pystmt rec).
Proof.
  intros p r p' H. unfold __try, preppy in H. inv_nodes; ok_done.
Qed.

Lemma match_skip_ok : nodes_ok (match_skip pystmt rec).
Proof.
  intros p r p' H. unfold match_skip in H. inv_nodes; ok_done.
Qed.

Lemma __match_ok : nodes_ok (__match pystmt ast_parse rec).
Proof.
  intros p r p' H. unfold __match, preppy in H. inv_nodes; ok_done.
Qed.

Lemma case_turn_ok : nodes_ok (case_turn pystmt ast_parse rec).
Proof.
  intros p r p' H. unfold case_turn, preppy in H. inv_nodes; ok_done.
Qed.

Lemma __case_ok : nodes_ok (__case pystmt rec).
Proof.
  intros p r p' H. unfold __case in H. inv_nodes; ok_done.
Qed.

Lemma handler_ok_nodes (t : ustr) :
  nodes_ok (handler pystmt ast_parse has_value rec t).
Proof.
  intros p r p' H. unfold handler, __if, __eval, __continue, __from,
    __assert in H.
  repeat match type of H with
    | (if ?c then _ else _) = _ =>
        destruct c;
        [ first [ eapply __const_ok; eassumption
                | eapply __expr_ok; eassumption
                | eapply __while_ok; eassumption
                | (apply rec_ok in H; [ok_done | reflexivity])
                | eapply __for_ok; eassumption
                | eapply __script_ok; eassumption
                | eapply __def_ok; eassumption
                | eapply __break_ok; eassumption
                | eapply __try_ok; eassumption
                | eapply __raise_ok; eassumption
                | eapply __with_ok; eassumption
                | eapply __import_ok; eassumption
                | eapply __tdef_ok; eassumption
                | eapply __return_ok; eassumption
                | eapply __match_ok; eassumption
                | eapply __case_ok; eassumption ] | ]
    end.
  discriminate.
Qed.

Lemma run_step_ok (t : task) (p : parser) (r : list pnode) (p' : parser) :
  run_step isPy310 pystmt ast_parse has_value rec t p = Ok (r, p') ->
  task_ok t = true -> result_ok t r = true.
Proof.
  intros H Hok. destruct t; cbn [run_step] in H.
  - unfold preppy_body in H. inv_nodes; ok_split;
      destruct fixEmpty;
      match goal with
      | Hl : forallb node_ok ?l = true |- _ =>
          destruct l; [reflexivity | rewrite Hl; reflexivity]
      end.
  - unfold preppy_loop in H. inv_ok.
    + reflexivity.
    + match goal with
      | Hh : handler _ _ _ _ _ _ = Ok ?v |- _ =>
          try (is_var v; destruct v); apply handler_ok_nodes in Hh
      end.
      inv_nodes. ok_done.
  - apply if_turn_ok in H. ok_done.
  - apply try_turn_ok in H; [ok_done | exact Hok].
  - apply match_skip_ok in H. ok_done.
  - apply case_turn_ok in H. ok_done.
Qed.

End OkStep.

Lemma run_task_ok (fuel : nat) (t : task) (p : parser) (r : list pnode)
  (p' : parser) :
  run_task isPy310 pystmt ast_parse has_value fuel t p = Ok (r, p') ->
  task_ok t = true -> result_ok t r = true.
Proof.
  revert t p r p'. induction fuel as [|fuel IH]; intros t p r p' H Hok.
  - discriminate.
  - cbn [run_task] in H. eapply run_step_ok; eauto.
Qed.

(** The loop of [__preppy] returns on a follower. *)
Lemma loop_stops_at_follower (fuel : nat) (followers : list ustr)
  (p : parser) (r : list pnode) (p' : parser) :
  run_task isPy310 pystmt ast_parse has_value fuel
    (T_loop pystmt followers) p = Ok (r, p') ->
  exists k, cur_kind pystmt p' = Ok k /\ kind_in k followers = true.
Proof.
  revert p r. induction fuel as [|fuel IH]; intros p r H; [discriminate|].
  cbn [run_task run_step] in H. unfold preppy_loop in H.
  destruct (cur_kind pystmt p) as [k|] eqn:Ek; cbn [bind] in H;
    [|discriminate].
  destruct (kind_in k followers) eqn:Ef.
  - inversion H; subst. eauto.
  - destruct (if kind_in k _ then _ else _) as [[nodes q]|];
      cbn [bind] in H; [|discriminate].
    destruct (run_task isPy310 pystmt ast_parse has_value fuel
                (T_loop pystmt followers) q) as [[more q']|] eqn:E;
      cbn [bind] in H; [|discriminate].
    inversion H; subst. eapply IH; eauto.
Qed.

End ParserProperties.

(** C4 as stated fails in both directions: a [return] in the body of a
    template that starts with the parameter block [def(a)] is refused, and
    a [return] in a named sub-block is accepted in a template that has no
    parameter block. *)
Lemma return_in_parameter_block_refused :
  SampleAst.parse (u "{{def(a)}}{{return}}")
  = Raise (SyntaxError (u "return statement outside while or for loop") 12)
  /\ is_ok (SampleAst.parse (u "{{def f(x)}}{{return}}{{enddef}}")) = true.
Proof. split; vm_compute; reflexivity. Qed.

Lemma return_needs_named_block_witness :
  let toks := [ {| kind := u "tdef"; start := 2; end_ := 10 |};
                {| kind := u "return"; start := 14; end_ := 20 |};
                {| kind := u "enddef"; start := 24; end_ := 30 |};
                {| kind := u "eof"; start := 32; end_ := 32 |} ] in
  let outside := set_tokenX ustr
                   (parser_init ustr (u "{{def f(x)}}{{return}}{{enddef}}")
                      toks (-1)) 1 in
  let inside := set_inTdef ustr outside [(0%Z, 0%Z)] in
  __return ustr SampleAst.ast_parse outside
  = Raise (SyntaxError (u "return statement outside while or for loop") 14)
  /\ __return ustr SampleAst.ast_parse inside
     = Ok (map (N_raw ustr) [u "return"],
           set_tokenX ustr inside (_tokenX ustr inside + 1)%Z)
  /\ handler ustr SampleAst.ast_parse SampleAst.has_value
       (run_task true ustr SampleAst.ast_parse SampleAst.has_value 9)
       (u "with") inside
     = handler ustr SampleAst.ast_parse SampleAst.has_value
         (run_by_depth true ustr SampleAst.ast_parse SampleAst.has_value 9 1)
         (u "with") inside
  /\ SampleAst.parse (u "{{def f(x)}}{{return}}{{enddef}}")
     = parse_by_depth true ustr SampleAst.ast_parse SampleAst.has_value
         (fun _ => false) (u "{{def f(x)}}{{return}}{{enddef}}").
Proof.
  cbv zeta.
  pose proof (return_needs_named_block true (fun _ => false) ustr
                SampleAst.ast_parse SampleAst.has_value)
    as (H1 & H2 & _ & H4 & _ & _ & _ & _ & H9 & _ & H11 & H12).
  split; [|split; [|split]].
  - apply (H1 _ {| kind := u "return"; start := 14; end_ := 20 |});
      reflexivity.
  - apply (H2 _ (u "return") [u "return"]).
    + discriminate.
    + reflexivity.
    + reflexivity.
  - apply H9.
    + intros t p r p'. apply H4.
    + reflexivity.
    + intros t q Hq. rewrite H11, Hq. reflexivity.
  - apply H12.
Defined.

(** * Further properties *)

Lemma split_on_not_nil (sep : N) (s : ustr) : split_on sep s <> [].
Proof.
  destruct s as [|c s]; simpl; [discriminate|].
  destruct (c =? sep); [discriminate|].
  destruct (split_on sep s); discriminate.
Qed.

Lemma split_on_length (sep : N) (s : ustr) :
  length (split_on sep s) = S (str_count sep s).
Proof.
  induction s as [|c s IH]; simpl; [reflexivity|].
  destruct (N.eqb_spec c sep) as [->|Hc].
  - simpl. rewrite IH. reflexivity.
  - destruct (split_on sep s) eqn:E; simpl in *; [discriminate|]. exact IH.
Qed.

Lemma split_on_no_sep (sep : N) (s : ustr) :
  ~ In sep s -> split_on sep s = [s].
Proof.
  induction s as [|c s IH]; simpl; intros H; [reflexivity|].
  destruct (N.eqb_spec c sep) as [->|Hc]; [tauto|].
  rewrite IH by tauto. reflexivity.
Qed.

Lemma split_on_app (sep : N) (k v : ustr) :
  ~ In sep k ->
  split_on sep (k ++ sep :: v) = k :: split_on sep v.
Proof.
  induction k as [|c k IH]; simpl; intros H.
  - rewrite N.eqb_refl. reflexivity.
  - destruct (N.eqb_spec c sep) as [->|Hc]; [tauto|].
    rewrite IH by tauto. reflexivity.
Qed.

Lemma split_on_head (sep : N) (s k : ustr) (rest : list ustr) :
  split_on sep s = k :: rest ->
  ~ In sep k /\
  match rest with
  | [] => s = k
  | _ :: _ => exists v, s = k ++ sep :: v /\ split_on sep v = rest
  end.
Proof.
  revert k rest. induction s as [|c s IH]; simpl; intros k rest H.
  - inversion H; subst. split; [intros []|reflexivity].
  - destruct (N.eqb_spec c sep) as [->|Hc].
    + inversion H; subst. split; [intros []|].
      pose proof (split_on_not_nil sep s) as Hn.
      destruct (split_on sep s) eqn:E; [congruence|].
      exists s. split; [reflexivity|exact E].
    + destruct (split_on sep s) as [|w ws] eqn:E.
      * exfalso. exact (split_on_not_nil sep s E).
      * inversion H; subst. destruct (IH w rest eq_refl) as [Hin Hr].
        split; [simpl; intros [?|?]; [congruence|tauto]|].
        destruct rest as [|r rest]; [congruence|].
        destruct Hr as [v [-> Hv]]. exists v. split; [reflexivity|exact Hv].
Qed.

Lemma starts_with_app (p s : ustr) : starts_with p (p ++ s) = true.
Proof. induction p; simpl; [reflexivity|]. rewrite N.eqb_refl. exact IHp. Qed.

Lemma extractKeywords_snoc (args : list ustr) (arg : ustr) :
  extractKeywords (args ++ [arg]) = kw_step (extractKeywords args) arg.
Proof. unfold extractKeywords. rewrite fold_left_app. reflexivity. Qed.

Lemma kw_step_other (key : ustr) (d : gmap (list N) ustr) (a : ustr) :
  str_count 61 a <> 1%nat \/ starts_with (key ++ [61]) a = false ->
  kw_step d a !! key = d !! key.
Proof.
  intros H. unfold kw_step.
  pose proof (split_on_length 61 a) as Hl.
  destruct (split_on 61 a) as [|k [|v [|x r]]] eqn:E; try reflexivity.
  simpl in Hl. destruct H as [H|H]; [lia|].
  destruct (split_on_head _ _ _ _ E) as [Hk [v' [-> Hv]]].
  destruct (decide (k = key)) as [->|Hne].
  - replace (key ++ 61 :: v') with ((key ++ [61]) ++ v') in H
      by (rewrite <- app_assoc; reflexivity).
    rewrite starts_with_app in H. discriminate.
  - apply lookup_insert_ne. exact Hne.
Qed.

Lemma kw_fold_other (key : ustr) (rest : list ustr) (d : gmap (list N) ustr) :
  Forall (fun a => str_count 61 a <> 1%nat
                   \/ starts_with (key ++ [61]) a = false) rest ->
  fold_left (fun d arg =>
       match split_on 61 arg with
       | [key; value] => <[key := value]> d
       | _ => d
       end) rest d !! key = d !! key.
Proof.
  revert d. induction rest as [|a rest IH]; intros d H; [reflexivity|].
  inversion H; subst. simpl. rewrite IH by assumption.
  apply (kw_step_other key d a). assumption.
Qed.

Lemma has_char_In (c : N) (s : ustr) :
  existsb (N.eqb c) s = false -> ~ In c s.
Proof.
  induction s as [|d s IH]; simpl; intros H; [tauto|].
  apply orb_false_iff in H. destruct H as [Hd Hs].
  apply N.eqb_neq in Hd. intros [E|E]; [congruence|exact (IH Hs E)].
Qed.

(** X1: [extractKeywords] keeps the arguments that hold exactly one
    equals sign: the value found under [key] is the one of the last argument
    [key=value], whatever stands before it, when the arguments after it
    are malformed (no equals sign, or more than one) or name another key;
    and a list of such arguments alone leaves [key] out of the
    dictionary. *)
Theorem extractKeywords_last_wins (args rest : list ustr) (key value : ustr) :
  existsb (N.eqb 61) key = false ->
  existsb (N.eqb 61) value = false ->
  forallb (other_arg key) rest = true ->
  extractKeywords (args ++ (key ++ 61 :: value) :: rest) !! key = Some value
  /\ extractKeywords rest !! key = None.
Proof.
  intros Hk Hv Hrest.
  apply has_char_In in Hk. apply has_char_In in Hv.
  assert (Hr : Forall (fun a => str_count 61 a <> 1%nat
                   \/ starts_with (key ++ [61]) a = false) rest).
  { apply List.Forall_forall. intros a Ha.
    rewrite forallb_forall in Hrest. specialize (Hrest a Ha).
    unfold other_arg in Hrest. apply orb_true_iff in Hrest.
    destruct Hrest as [H|H]; apply negb_true_iff in H.
    - left. apply Nat.eqb_neq. exact H.
    - right. exact H. }
  unfold extractKeywords. split.
  - rewrite fold_left_app. simpl. rewrite kw_fold_other by assumption.
    rewrite split_on_app by assumption. rewrite split_on_no_sep by assumption.
    apply lookup_insert_eq.
  - rewrite kw_fold_other by assumption. apply lookup_empty.
Qed.

Lemma extractKeywords_last_wins_witness :
  extractKeywords [u "a=1"; u "b"; u "a=2"; u "a=3=4"; u "c=5"] !! u "a"
  = Some (u "2")
  /\ extractKeywords [u "a=3=4"; u "c=5"] !! u "a" = None.
Proof.
  apply (extractKeywords_last_wins [u "a=1"; u "b"] [u "a=3=4"; u "c=5"]
           (u "a") (u "2")); reflexivity.
Defined.

Lemma to_N_byte_of (n : N) : n < 256 -> Byte.to_N (byte_of n) = n.
Proof.
  intros H. unfold byte_of. rewrite N.mod_small by exact H.
  destruct (Byte.of_N n) eqn:E.
  - apply Byte.to_of_N. exact E.
  - apply Byte.of_N_None_iff in E. lia.
Qed.

Lemma to_N_byte_of_mod (n : N) : Byte.to_N (byte_of n) = n mod 256.
Proof.
  unfold byte_of.
  assert (H : n mod 256 < 256) by (apply N.mod_lt; discriminate).
  destruct (Byte.of_N (n mod 256)) eqn:E.
  - apply Byte.to_of_N. exact E.
  - apply Byte.of_N_None_iff in E. lia.
Qed.

Lemma unpack_pack_L (n : N) :
  n < 4294967296 -> unpack_L (pack_L n) = Some n.
Proof.
  intros H. unfold pack_L, unpack_L. rewrite !to_N_byte_of_mod.
  replace (n / 65536) with (n / 256 / 256)
    by (rewrite N.Div0.div_div; reflexivity).
  replace (n / 16777216) with (n / 256 / 256 / 256)
    by (rewrite !N.Div0.div_div; reflexivity).
  f_equal.
  pose proof (N.div_mod n 256). pose proof (N.div_mod (n / 256) 256).
  pose proof (N.div_mod (n / 256 / 256) 256).
  assert (n / 256 / 256 / 256 < 256).
  { rewrite !N.Div0.div_div. apply N.Div0.div_lt_upper_bound. exact H. }
  rewrite (N.mod_small (n / 256 / 256 / 256)) by assumption.
  lia.
Qed.

Lemma land_mask_mod (n : N) : N.land n 0xFFFFFFFF = n mod 4294967296.
Proof. change 0xFFFFFFFF with (N.ones 32). rewrite N.land_ones. reflexivity. Qed.

(** X2: what [getTimeStamp] reads back from a compiled file written by
    [getModule] (with a magic number of four bytes).  Before Python 3.7 it
    is the time written, modulo 2^32.  From Python 3.7 on the four bytes
    read at offset 4 are the flags, which are zero: the time stamp is 0,
    whatever the time was, and [rl_get_module] discards the module whenever
    [preppyTime] is not 0. *)
Theorem getTimeStamp_of_written_file (isPy37 : bool) (magic : bstr)
  (now size : N) (marshalled : bstr) :
  length magic = 4%nat ->
  getTimeStamp (Some (pyc_file isPy37 magic now size marshalled))
  = Some (if isPy37 then 0 else now mod 4294967296)
  /\ (isPy37 = true ->
      forall preppyTime,
        preppyTime <> Some 0 ->
        rl_get_module_keeps preppyTime
          (Some (pyc_file isPy37 magic now size marshalled)) = false).
Proof.
  intros Hm.
  assert (E : getTimeStamp (Some (pyc_file isPy37 magic now size marshalled))
              = Some (if isPy37 then 0 else now mod 4294967296)).
  { destruct magic as [|m0 [|m1 [|m2 [|m3 [|m4 magic]]]]]; try discriminate.
    unfold getTimeStamp, pyc_file.
    destruct isPy37.
    - reflexivity.
    - cbn [length skipn app firstn].
      rewrite land_mask_mod.
      change (firstn 4 _) with (pack_L (now mod 4294967296)).
      apply unpack_pack_L. apply N.mod_lt. discriminate. }
  split; [exact E|].
  intros -> pt Hpt. unfold rl_get_module_keeps. rewrite E.
  destruct pt as [pt|]; simpl; [|reflexivity].
  apply negb_false_iff. apply N.ltb_lt.
  destruct (N.eq_dec pt 0) as [->|]; [congruence|lia].
Qed.

Lemma getTimeStamp_of_written_file_witness :
  getTimeStamp
    (Some (pyc_file true (map byte_of [0xCB; 0x0D; 0x0D; 0x0A])
             1700000000 19 []))
  = Some 0
  /\ (true = true ->
      forall preppyTime,
        preppyTime <> Some 0 ->
        rl_get_module_keeps preppyTime
          (Some (pyc_file true (map byte_of [0xCB; 0x0D; 0x0D; 0x0A])
                   1700000000 19 [])) = false).
Proof.
  apply (getTimeStamp_of_written_file true
           (map byte_of [0xCB; 0x0D; 0x0D; 0x0A]) 1700000000 19 []).
  reflexivity.
Defined.

Lemma str_rfind_count (c : N) (s : ustr) :
  (str_count c s = 0%nat /\ str_rfind c s = (-1)%Z)
  \/ ((0 < str_count c s)%nat /\ (0 <= str_rfind c s)%Z).
Proof.
  induction s as [|d s IH]; simpl; [left; split; reflexivity|].
  destruct IH as [[Hc Hr]|[Hc Hr]].
  - rewrite Hc, Hr. simpl. destruct (d =? c); [right|left]; split; lia.
  - right. destruct (0 <=? str_rfind c s)%Z eqn:E; [|lia]. split; lia.
Qed.

Lemma split_on_first_line (s : ustr) :
  nth 0 (split_on 10 s) [] = line_rest s.
Proof.
  induction s as [|c s IH]; [reflexivity|].
  unfold line_rest in *. simpl.
  destruct (c =? 10); simpl; [reflexivity|].
  destruct (split_on 10 s) as [|w ws]; simpl in *; congruence.
Qed.

Lemma slice_cons (c : N) (s : ustr) (a b : nat) :
  slice (c :: s) (S a) (S b) = slice s a b.
Proof. reflexivity. Qed.

Lemma slice_cons_0 (c : N) (s : ustr) (b : nat) :
  slice (c :: s) 0 (S b) = c :: slice s 0 b.
Proof. unfold slice. simpl. rewrite Nat.sub_0_r. reflexivity. Qed.

Lemma line_locate (text : ustr) (pos : nat) :
  (pos <= length text)%nat ->
  (line_start text pos <= pos)%nat
  /\ nth (str_count 10 (firstn pos text)) (split_on 10 text) []
     = slice text (line_start text pos) pos ++ line_rest (skipn pos text).
Proof.
  unfold line_start.
  revert pos. induction text as [|c t IH]; intros pos Hpos.
  - destruct pos; [|simpl in Hpos; lia]. simpl. split; [lia|reflexivity].
  - destruct pos as [|p].
    + simpl firstn. simpl str_count. simpl str_rfind. simpl Z.to_nat.
      split; [lia|]. rewrite split_on_first_line. reflexivity.
    + simpl in Hpos. destruct (IH p ltac:(lia)) as [IH1 IH2].
      cbn [firstn str_count str_rfind skipn].
      destruct (str_rfind_count 10 (firstn p t)) as [[Hc Hr]|[Hc Hr]].
      * rewrite Hc, Hr in *. cbn [Z.leb Z.compare].
        change (Z.to_nat (-1 + 1)) with 0%nat in IH2.
        cbn [split_on].
        destruct (N.eqb_spec c 10) as [->|Hne].
        -- change (Z.to_nat (0 + 1)) with 1%nat. split; [lia|].
           cbn [Nat.add nth]. rewrite slice_cons. exact IH2.
        -- change (Z.to_nat (-1 + 1)) with 0%nat. split; [lia|].
           cbn [Nat.add].
           destruct (split_on 10 t) as [|w ws] eqn:E.
           ++ exfalso. exact (split_on_not_nil 10 _ E).
           ++ cbn [nth] in *. rewrite slice_cons_0. rewrite IH2. reflexivity.
      * destruct (0 <=? str_rfind 10 (firstn p t))%Z eqn:E; [|lia].
        replace (Z.to_nat (str_rfind 10 (firstn p t) + 1 + 1))
          with (S (Z.to_nat (str_rfind 10 (firstn p t) + 1))) by lia.
        split; [lia|]. rewrite slice_cons.
        destruct (str_count 10 (firstn p t)) as [|k] eqn:Ek; [lia|].
        cbn [split_on].
        destruct (N.eqb_spec c 10) as [->|Hne].
        -- cbn [Nat.add nth]. exact IH2.
        -- cbn [Nat.add].
           destruct (split_on 10 t) as [|w ws] eqn:Es.
           ++ simpl in IH2. destruct k; simpl; exact IH2.
           ++ cbn [nth] in *. exact IH2.
Qed.

Lemma str_rfind_lower (c : N) (s : ustr) : (-1 <= str_rfind c s)%Z.
Proof. destruct (str_rfind_count c s) as [[_ H]|[_ H]]; lia. Qed.

(** X3: the line number and the column offset the parser gives to the
    offset [pos] of the source locate it: the column is between 0 and
    [pos], and the line of that number (counted from 1) is made of the
    [col] characters before [pos] followed by the characters from [pos] to
    the end of the line. *)
Theorem lineno_colOffset_locate (text : ustr) (pos : nat) :
  (pos <= length text)%nat ->
  let col := __colOffset text pos in
  (0 <= col <= Z.of_nat pos)%Z
  /\ nth (__lineno text pos - 1) (split_on 10 text) []
     = slice text (pos - Z.to_nat col) pos ++ line_rest (skipn pos text).
Proof.
  intros Hpos col.
  destruct (line_locate text pos Hpos) as [H1 H2].
  pose proof (str_rfind_lower 10 (firstn pos text)) as Hl.
  assert (Hcol : col = (Z.of_nat pos - Z.of_nat (line_start text pos))%Z).
  { unfold col, __colOffset, line_start. lia. }
  split; [lia|].
  unfold __lineno. replace (str_count 10 (firstn pos text) + 1 - 1)%nat
    with (str_count 10 (firstn pos text)) by lia.
  rewrite H2. f_equal. f_equal. lia.
Qed.

Lemma lineno_colOffset_locate_witness :
  let text := u "ab" ++ [10] ++ u "cd{{x}}e" ++ [10] ++ u "f" in
  let col := __colOffset text 7 in
  (0 <= col <= 7)%Z
  /\ nth (__lineno text 7 - 1) (split_on 10 text) []
     = slice text (7 - Z.to_nat col) 7 ++ line_rest (skipn 7 text).
Proof.
  apply (lineno_colOffset_locate
           (u "ab" ++ [10] ++ u "cd{{x}}e" ++ [10] ++ u "f") 7).
  vm_compute. lia.
Defined.



Lemma split_on_lines_no_sep (sep : N) (s l : ustr) :
  In l (split_on sep s) -> ~ In sep l.
Proof.
  revert l. induction s as [|ch s IH]; intros l H.
  - simpl in H. destruct H as [<-|[]]. intros [].
  - cbn [split_on] in H. destruct (N.eqb_spec ch sep) as [->|Hne].
    + destruct H as [<-|H]; [intros []|exact (IH _ H)].
    + destruct (split_on sep s) as [|w ws0] eqn:E.
      * destruct H as [<-|[]]. intros [E1|[]]. congruence.
      * destruct H as [<-|H].
        -- intros [E1|E1]; [congruence|].
           exact (IH w (or_introl eq_refl) E1).
        -- exact (IH l (or_intror H)).
Qed.






(** A message that names a line of its own is rewritten. *)
Lemma lexerror_text_rewrites_line :
  lexerror_text (fun _ => false) (u "t.prep")
    (u "ab" ++ [10] ++ u "cd{{if}}e") (u "Bad if (<string>, line 1)") 7
  = u "cd{{if}}e" ++ [10] ++ u "    " ++ [10]
    ++ u "Bad if (<string>, line 2) (near line 2 of t.prep)".
Proof. reflexivity. Qed.

Lemma swrite_entry (target : sink) (qFunc : convfn) (v : pyval)
  (st st' : Run.state) (r : res unit) :
  Run.__swrite__ target qFunc v st = (r, st') ->
  match r with
  | Ok _ => exists o, Run.written st' = Run.written st ++ [(target, o)]
                      /\ exists v', call qFunc v' = Ok o
  | Raise _ => Run.written st' = Run.written st
  end.
Proof.
  unfold Run.__swrite__.
  destruct (__wsscontroller__.x (Run.wss st) v) as [w v'].
  destruct (call qFunc v') as [o|e] eqn:E; intros H; inversion H; subst.
  - exists o. split; [reflexivity|]. exists v'. exact E.
  - reflexivity.
Qed.

Lemma lwrite_entry (target : sink) (lconv : convfn) (v : pyval)
  (st st' : Run.state) (r : res unit) :
  Run.__lwrite__ target lconv v st = (r, st') ->
  match r with
  | Ok _ => exists o, Run.written st' = Run.written st ++ [(target, o)]
                      /\ exists v', call lconv v' = Ok o
  | Raise _ => Run.written st' = Run.written st
  end.
Proof.
  unfold Run.__lwrite__.
  destruct (__wsscontroller__.c (Run.wss st) v) as [w [v'|e]]; cbn [bind].
  - destruct (call lconv v') as [o|e] eqn:E; intros H; inversion H; subst.
    + exists o. split; [reflexivity|]. exists v'. exact E.
    + reflexivity.
  - intros H; inversion H; subst. reflexivity.
Qed.

Lemma op_entry (target : sink) (qFunc lconv : convfn) (op : write_op)
  (st st' : Run.state) (r : res unit) :
  match op with
  | Op_literal t => Run.__lwrite__ target lconv t st
  | Op_expr v => Run.__swrite__ target qFunc v st
  | Op_dnl =>
      let '(w, v) := __wsscontroller__.dnl (Run.wss st) in
      Run.__swrite__ target qFunc v
        {| Run.written := Run.written st; Run.wss := w |}
  | Op_dws =>
      let '(w, v) := __wsscontroller__.dws (Run.wss st) in
      Run.__swrite__ target qFunc v
        {| Run.written := Run.written st; Run.wss := w |}
  end = (r, st') ->
  match r with
  | Ok _ => exists e, Run.written st' = Run.written st ++ [e]
                      /\ entry_of qFunc lconv target op e
  | Raise _ => Run.written st' = Run.written st
  end.
Proof.
  intros H. destruct op; cbn [__wsscontroller__.dnl __wsscontroller__.dws] in H.
  - apply lwrite_entry in H. destruct r; [|exact H].
    destruct H as [o [Hw Hc]]. exists (target, o). split; [exact Hw|].
    split; [reflexivity|exact Hc].
  - apply swrite_entry in H. destruct r; [|exact H].
    destruct H as [o [Hw Hc]]. exists (target, o). split; [exact Hw|].
    split; [reflexivity|exact Hc].
  - apply swrite_entry in H. destruct r; [|exact H].
    destruct H as [o [Hw Hc]]. exists (target, o). split; [exact Hw|].
    split; [reflexivity|exact Hc].
  - apply swrite_entry in H. destruct r; [|exact H].
    destruct H as [o [Hw Hc]]. exists (target, o). split; [exact Hw|].
    split; [reflexivity|exact Hc].
Qed.

(** What the compiled body has written when it stops: one entry for each
    call made before the one that raised, all to the same sink. *)
Lemma code_written (target : sink) (qFunc lconv : convfn)
  (body : list write_op) (st st' : Run.state) (r : res unit) :
  Run.__code__ target qFunc lconv body st = (r, st') ->
  exists done new,
    Run.written st' = Run.written st ++ new
    /\ Forall2 (entry_of qFunc lconv target) done new
    /\ match r with
       | Ok _ => done = body
       | Raise _ => exists rest, body = done ++ rest /\ rest <> []
       end.
Proof.
  revert st. induction body as [|op body IH]; intros st H.
  - simpl in H. inversion H; subst. exists [], []. rewrite app_nil_r.
    repeat split. constructor.
  - cbn [Run.__code__] in H.
    match type of H with
    | (let '(_, _) := ?x in _) = _ => destruct x as [r1 st1] eqn:E1
    end.
    apply op_entry in E1. destruct r1 as [[]|e1].
    + destruct E1 as [e [Hw He]].
      destruct (IH _ H) as [done [new [Hw' [Hf Hr]]]].
      exists (op :: done), (e :: new). split; [|split].
      * rewrite Hw', Hw, <- app_assoc. reflexivity.
      * constructor; assumption.
      * destruct r; [congruence|].
        destruct Hr as [rest [-> Hrest]]. exists rest. split; [reflexivity|exact Hrest].
    + inversion H; subst. exists [], []. rewrite app_nil_r.
      split; [exact E1|]. split; [constructor|].
      exists (op :: body). split; [reflexivity|discriminate].
Qed.

(** X5: everything a call of [run] writes goes to one sink: the callback
    when one is supplied, else the output file when it is given and true,
    else [sys.stdout] (also for an output file object that is false).  No
    more values are written than the compiled body makes calls, and a call
    that returns has written exactly one value for each of them, the
    directives [.dnl] and [.dws] included. *)
Theorem run_writes_to_one_sink (isbytes : bool) (body : list write_op)
  (a : Run.args) (r : res unit) (st : Run.state) :
  Run.run isbytes body a = (r, st) ->
  Forall (fun e => fst e = run_sink a) (Run.written st)
  /\ (length (Run.written st) <= length body)%nat
  /\ (r = Ok tt -> length (Run.written st) = length body).
Proof.
  unfold Run.run, run_sink.
  destruct (__get_conv__ _ _ _) as [[qf lc]|e].
  2:{ intros H; inversion H; subst. simpl. repeat split; [constructor|lia|discriminate]. }
  assert (G : forall target,
             Run.__code__ target qf lc body
               {| Run.written := []; Run.wss := __wsscontroller__.init |}
             = (r, st) ->
             Forall (fun e => fst e = target) (Run.written st)
             /\ (length (Run.written st) <= length body)%nat
             /\ (r = Ok tt -> length (Run.written st) = length body)).
  { intros target H. apply code_written in H.
    destruct H as [done [new [Hw [Hf Hr]]]]. simpl in Hw. rewrite Hw.
    pose proof (Forall2_length _ _ _ Hf) as Hl.
    split; [|split].
    - clear -Hf. induction Hf as [|op0 e0 ops es He Hf IH]; constructor; auto.
      destruct He; assumption.
    - destruct r.
      + subst. lia.
      + destruct Hr as [rest [-> _]]. rewrite length_app. lia.
    - intros ->. subst. symmetry. exact Hl. }
  destruct (Run.__write__ a).
  - destruct (Run.outputfile a).
    + intros H; inversion H; subst. simpl. repeat split; [constructor|lia|discriminate].
    + apply G.
  - destruct (Run.outputfile a) as [[]|]; apply G.
Qed.

Lemma run_writes_to_one_sink_witness :
  let a := {| Run.dictionary := ∅; Run.__write__ := false;
              Run.quoteFunc := None; Run.outputfile := Some false;
              Run.lquoteFunc := None |} in
  let body := [Op_literal (PStr (u "a<")); Op_expr (PStr (u "b"))] in
  Forall (fun e => fst e = SysStdout) (Run.written (snd (Run.run false body a)))
  /\ (length (Run.written (snd (Run.run false body a))) <= 2)%nat
  /\ (fst (Run.run false body a) = Ok tt ->
      length (Run.written (snd (Run.run false body a))) = 2%nat).
Proof.
  intros a body.
  apply (run_writes_to_one_sink false body a). reflexivity.
Defined.

Lemma join_empty_text (buf : list pyval) :
  Forall (fun v => is_unicodeT v = true) buf ->
  join_empty (PStr []) buf = Ok (PStr (concat (map text_of buf))).
Proof.
  intros H. unfold join_empty. cbn [is_unicodeT].
  replace (forallb is_unicodeT buf) with true; [reflexivity|].
  symmetry. apply forallb_forall. apply List.Forall_forall. exact H.
Qed.

Lemma join_empty_bytes (buf : list pyval) :
  Forall (fun v => is_bytesT v = true) buf ->
  join_empty (PBytes []) buf = Ok (PBytes (concat (map bytes_of buf))).
Proof.
  intros H. unfold join_empty. cbn [is_unicodeT is_bytesT].
  replace (forallb is_bytesT buf) with true; [reflexivity|].
  symmetry. apply forallb_forall. apply List.Forall_forall. exact H.
Qed.

Lemma py_str_text (v r : pyval) : py_str v = Ok r -> is_unicodeT r = true.
Proof. destruct v; simpl; intros H; inversion H; reflexivity. Qed.

Lemma py_bytes_bytes (v r : pyval) : py_bytes v = Ok r -> is_bytesT r = true.
Proof.
  destruct v; simpl; try discriminate; try (intros H; inversion H; reflexivity).
  destruct bcv as [[]|]; try discriminate. intros H; inversion H; reflexivity.
Qed.

Lemma bytes_not_text (v : pyval) : is_bytesT v = true -> is_unicodeT v = false.
Proof. destruct v; simpl; congruence. Qed.

Lemma text_not_bytes (v : pyval) : is_unicodeT v = true -> is_bytesT v = false.
Proof. destruct v; simpl; congruence. Qed.

(** X6: with the default quote functions, when [run] returns,
    [getOutputFromKeywords] returns the concatenation of the values written,
    as bytes for a bytes template and as text otherwise: the join never
    fails, every value written has the type of the template. *)
Theorem getOutput_default_joins (isbytes : bool) (body : list write_op)
  (kwds : gmap (list N) pyval) (st : Run.state) :
  Run.run isbytes body
    {| Run.dictionary := kwds; Run.__write__ := true;
       Run.quoteFunc := None; Run.outputfile := None;
       Run.lquoteFunc := None |} = (Ok tt, st) ->
  getOutputFromKeywords isbytes body None None kwds
  = Ok (if isbytes
        then PBytes (concat (map bytes_of (map snd (Run.written st))))
        else PStr (concat (map text_of (map snd (Run.written st))))).
Proof.
  intros H. unfold getOutputFromKeywords. rewrite H. cbn [bind].
  unfold Run.run in H. cbn [Run.quoteFunc Run.lquoteFunc Run.__write__
                            Run.outputfile __get_conv__] in H.
  destruct isbytes; cbn [__get_conv__ bind fst call] in *.
  - apply code_written in H. destruct H as [done [new [Hw [Hf _]]]].
    simpl in Hw. rewrite Hw.
    change (bStdConv (PStr [])) with (Ok (A := pyval) (PBytes [])). cbn [bind].
    apply join_empty_bytes.
    clear -Hf. induction Hf as [|op0 e0 ops es He Hf IH]; constructor; auto.
    destruct He as [_ [v Hv]]. destruct (is_swrite op0).
    + exact (bStdConv_byte_oriented _ _ Hv).
    + exact (py_bytes_bytes _ _ Hv).
  - apply code_written in H. destruct H as [done [new [Hw [Hf _]]]].
    simpl in Hw. rewrite Hw.
    change (uStdConv (PStr [])) with (Ok (A := pyval) (PStr [])). cbn [bind].
    apply join_empty_text.
    clear -Hf. induction Hf as [|op0 e0 ops es He Hf IH]; constructor; auto.
    destruct He as [_ [v Hv]]. destruct (is_swrite op0).
    + exact (uStdConv_text_oriented _ _ Hv).
    + exact (py_str_text _ _ Hv).
Qed.

Lemma getOutput_default_joins_witness :
  getOutputFromKeywords false
    [Op_literal (PStr (u "a<")); Op_expr (PStr (u "b")); Op_dnl;
     Op_literal (PStr ([10] ++ u "c"))] None None ∅
  = Ok (PStr (u "a<bc")).
Proof.
  apply (getOutput_default_joins false
           [Op_literal (PStr (u "a<")); Op_expr (PStr (u "b")); Op_dnl;
            Op_literal (PStr ([10] ++ u "c"))] ∅
           {| Run.written := [(Callback, PStr (u "a<")); (Callback, PStr (u "b"));
                              (Callback, PIgnore []); (Callback, PStr (u "c"))];
              Run.wss := {| __wsscontroller__.ws := 0 |} |}).
  reflexivity.
Defined.

(** X7: when [getOutputFromKeywords] is given a literal converter only,
    and the type of its result on the empty text is not the type of the
    template, then a run that returns and has written the value of an
    expression or of a directive ends in a [TypeError]: [run] derives its
    quote function from the literal converter, but the joiner is taken
    from the default quote function of the template. *)
Theorem getOutput_lquote_only_mismatch (isbytes : bool)
  (body : list write_op) (kwds : gmap (list N) pyval) (l : convfn)
  (probe : pyval) (st : Run.state) :
  call l (PStr []) = Ok probe ->
  is_bytesT probe = negb isbytes ->
  existsb is_swrite body = true ->
  Run.run isbytes body
    {| Run.dictionary := kwds; Run.__write__ := true;
       Run.quoteFunc := None; Run.outputfile := None;
       Run.lquoteFunc := Some l |} = (Ok tt, st) ->
  getOutputFromKeywords isbytes body None (Some l) kwds = Raise TypeError.
Proof.
  intros Hp Ht Hb H. unfold getOutputFromKeywords. rewrite H. cbn [bind].
  unfold Run.run in H. cbn [Run.quoteFunc Run.lquoteFunc Run.__write__
                            Run.outputfile __get_conv__] in H.
  rewrite Hp in H. cbn [bind] in H. rewrite Ht in H.
  apply code_written in H. destruct H as [done [new [Hw [Hf ->]]]].
  simpl in Hw. rewrite Hw.
  apply existsb_exists in Hb. destruct Hb as [op [Hin Hop]].
  assert (He : exists e, In e new /\ exists v,
               call (if negb isbytes then F_bStdConv else F_uStdConv) v
               = Ok (snd e)).
  { clear -Hf Hin Hop.
    induction Hf as [|op0 e0 ops es He Hf IH]; [destruct Hin|].
    destruct Hin as [->|Hin].
    - exists e0. split; [left; reflexivity|].
      destruct He as [_ Hv]. rewrite Hop in Hv. exact Hv.
    - destruct (IH Hin) as [e [He' Hv]].
      exists e. split; [right; exact He'|exact Hv]. }
  destruct He as [e [He [v Hv]]].
  destruct isbytes; cbn [negb __get_conv__ bind fst call] in *.
  - change (bStdConv (PStr [])) with (Ok (A := pyval) (PBytes [])). cbn [bind].
    unfold join_empty. cbn [is_unicodeT is_bytesT].
    replace (forallb is_bytesT (map snd new)) with false; [reflexivity|].
    symmetry. apply not_true_is_false. intros Hall.
    rewrite forallb_forall in Hall.
    specialize (Hall (snd e) (in_map snd _ _ He)).
    pose proof (uStdConv_text_oriented _ _ Hv) as Hu.
    apply text_not_bytes in Hu. congruence.
  - change (uStdConv (PStr [])) with (Ok (A := pyval) (PStr [])). cbn [bind].
    unfold join_empty. cbn [is_unicodeT].
    replace (forallb is_unicodeT (map snd new)) with false; [reflexivity|].
    symmetry. apply not_true_is_false. intros Hall.
    rewrite forallb_forall in Hall.
    specialize (Hall (snd e) (in_map snd _ _ He)).
    pose proof (bStdConv_byte_oriented _ _ Hv) as Hu.
    apply bytes_not_text in Hu. congruence.
Qed.

Lemma getOutput_lquote_only_mismatch_witness :
  getOutputFromKeywords false [Op_expr (PStr (u "b"))] None (Some F_asUtf8) ∅
  = Raise TypeError.
Proof.
  apply (getOutput_lquote_only_mismatch false [Op_expr (PStr (u "b"))] ∅
           F_asUtf8 (PBytes [])
           {| Run.written := [(Callback, PBytes (map byte_of [98]))];
              Run.wss := {| __wsscontroller__.ws := 0 |} |});
    reflexivity.
Defined.

Ltac bool_eval :=
  repeat match goal with
  | |- context [?a <? ?b] =>
      first [ replace (a <? b) with true by (symmetry; apply N.ltb_lt; lia)
            | replace (a <? b) with false by (symmetry; apply N.ltb_ge; lia) ]
  | |- context [?a <=? ?b] =>
      first [ replace (a <=? b) with true by (symmetry; apply N.leb_le; lia)
            | replace (a <=? b) with false by (symmetry; apply N.leb_gt; lia) ]
  end.

Lemma utf8_decode_encode_cp (c : N) (b r : bstr) :
  utf8_encode_cp c = Some b ->
  utf8_decode (b ++ r) = option_map (cons c) (utf8_decode r).
Proof.
  unfold utf8_encode_cp.
  destruct (N.ltb_spec c 0x80) as [H1|H1].
  { intros H; inversion H; subst. cbn [app utf8_decode].
    rewrite to_N_byte_of by lia.
    replace (c <? 128) with true by (symmetry; apply N.ltb_lt; lia).
    reflexivity. }
  pose proof (N.div_mod c 64 ltac:(discriminate)) as Hd.
  pose proof (N.mod_lt c 64 ltac:(discriminate)) as Hm.
  pose proof (N.div_mod (c / 64) 64 ltac:(discriminate)) as Hd2.
  pose proof (N.mod_lt (c / 64) 64 ltac:(discriminate)) as Hm2.
  pose proof (N.div_mod (c / 64 / 64) 64 ltac:(discriminate)) as Hd3.
  pose proof (N.mod_lt (c / 64 / 64) 64 ltac:(discriminate)) as Hm3.
  replace (c / 4096) with (c / 64 / 64)
    by (rewrite N.Div0.div_div; reflexivity).
  replace (c / 262144) with (c / 64 / 64 / 64)
    by (rewrite !N.Div0.div_div; reflexivity).
  set (m := c mod 64) in *. set (d := c / 64) in *.
  set (m2 := d mod 64) in *. set (d2 := d / 64) in *.
  set (m3 := d2 mod 64) in *. set (d3 := d2 / 64) in *.
  clearbody m d m2 d2 m3 d3.
  destruct (N.ltb_spec c 0x800) as [H2|H2].
  { intros H; inversion H; subst. cbn [app utf8_decode].
    rewrite !to_N_byte_of by lia.
    unfold is_cont. cbv zeta.
    bool_eval. cbn [andb negb orb].
    f_equal. f_equal. lia. }
  destruct (N.ltb_spec c 0x10000) as [H3|H3].
  { destruct (is_surrogate c) eqn:Hs; [discriminate|].
    intros H; inversion H; subst b. cbn [app utf8_decode].
    rewrite !to_N_byte_of by lia.
    unfold is_cont. cbv zeta.
    bool_eval. cbn [andb negb orb].
    replace ((224 + d2 - 224) * 4096 + (128 + m2 - 128) * 64
             + (128 + m - 128)) with c by lia.
    rewrite Hs. bool_eval. reflexivity. }
  destruct (N.ltb_spec c 0x110000) as [H4|H4]; [|discriminate].
  intros H; inversion H; subst b. cbn [app utf8_decode].
  rewrite !to_N_byte_of by lia.
  unfold is_cont. cbv zeta.
  bool_eval. cbn [andb negb orb].
  replace ((240 + d3 - 240) * 262144 + (128 + m3 - 128) * 4096
           + (128 + m2 - 128) * 64 + (128 + m - 128)) with c by lia.
  bool_eval. reflexivity.
Qed.

Lemma utf8_decode_encode (s : ustr) (b : bstr) :
  utf8_encode s = Some b -> utf8_decode b = Some s.
Proof.
  revert b. induction s as [|c s IH]; intros b; cbn [utf8_encode].
  - intros H; inversion H. reflexivity.
  - destruct (utf8_encode_cp c) as [bc|] eqn:Ec; [|discriminate].
    destruct (utf8_encode s) as [bs|]; [|discriminate].
    intros H; inversion H; subst.
    rewrite (utf8_decode_encode_cp c bc bs Ec), (IH bs eq_refl). reflexivity.
Qed.

(** X8: [asUtf8] and [asUnicode] are inverse on text: when [asUtf8]
    returns on a text value, [asUnicode] and [uStdConv] give the text back
    from the bytes, and [asUtf8] leaves the bytes as they are. *)
Theorem asUnicode_asUtf8_round_trip (v r : pyval) :
  is_unicodeT v = true ->
  asUtf8 v = Ok r ->
  asUnicode r = Ok (PStr (text_of v)) /\ uStdConv r = Ok (PStr (text_of v))
  /\ asUtf8 r = Ok r.
Proof.
  intros Hv. unfold asUtf8.
  replace (is_bytesT v) with false by (destruct v; simpl in *; congruence).
  destruct v; try discriminate; cbn [py_encode text_of];
    destruct (utf8_encode s) as [b|] eqn:E; try discriminate;
    intros H; inversion H; subst;
    unfold asUnicode, uStdConv; cbn; rewrite (utf8_decode_encode _ _ E);
    repeat split; reflexivity.
Qed.

Lemma asUnicode_asUtf8_round_trip_witness :
  asUnicode (PBytes (map byte_of [0xC3; 0xA9; 0xE2; 0x82; 0xAC]))
  = Ok (PStr [0xE9; 0x20AC])
  /\ uStdConv (PBytes (map byte_of [0xC3; 0xA9; 0xE2; 0x82; 0xAC]))
     = Ok (PStr [0xE9; 0x20AC])
  /\ asUtf8 (PBytes (map byte_of [0xC3; 0xA9; 0xE2; 0x82; 0xAC]))
     = Ok (PBytes (map byte_of [0xC3; 0xA9; 0xE2; 0x82; 0xAC])).
Proof.
  apply (asUnicode_asUtf8_round_trip (PStr [0xE9; 0x20AC])); reflexivity.
Defined.

Lemma flat_map_xml_no_angle (s : ustr) :
  existsb (fun ch => (ch =? 60) || (ch =? 62)) (flat_map xml_char s) = false.
Proof.
  induction s as [|b s IH]; [reflexivity|].
  cbn [flat_map]. rewrite existsb_app, IH, orb_false_r.
  unfold xml_char.
  destruct (b =? 38) eqn:E1; [reflexivity|].
  destruct (b =? 62) eqn:E2; [reflexivity|].
  destruct (b =? 60) eqn:E3; [reflexivity|].
  cbn. rewrite E2, E3. reflexivity.
Qed.

Lemma py_xmlEscape_safe (v r : pyval) :
  py_xmlEscape v = Ok r ->
  is_unicodeT r = true
  /\ existsb (fun ch => (ch =? 60) || (ch =? 62)) (text_of r) = false.
Proof.
  destruct v; simpl; try discriminate; intros H; inversion H; subst;
    (split; [reflexivity|]); cbn [text_of]; rewrite xmlEscape_chars;
    apply flat_map_xml_no_angle.
Qed.

Lemma quote_core (s1 r : pyval) :
  (if is_safeBase s1 then
     match s1 with
     | PSafeString _ => py_decode s1
     | _ => Ok s1
     end
   else
     s2 <- (if negb (is_unicodeT s1) then py_decode s1 else Ok s1) ;;
     py_xmlEscape s2) = Ok r ->
  is_unicodeT r = true
  /\ (is_safeBase s1 = false ->
      existsb (fun ch => (ch =? 60) || (ch =? 62)) (text_of r) = false).
Proof.
  destruct (is_safeBase s1) eqn:Es.
  - intros H. split; [|discriminate].
    destruct s1; try discriminate Es.
    + inversion H; reflexivity.
    + exact (py_decode_text _ _ H).
  - intros H.
    destruct (if negb (is_unicodeT s1) then py_decode s1 else Ok s1)
      as [s2|e]; cbn [bind] in H; [|discriminate].
    destruct (py_xmlEscape_safe _ _ H) as [H1 H2]. split; auto.
Qed.

(** X9: what [uStdQuote] returns is always text, and for every value
    that is not marked safe once converted (a string, or any object
    through its [__str__], its [__bytes__] or [str]) that text holds
    neither [<] nor [>]. *)
Theorem uStdQuote_output_has_no_markup (v r : pyval) :
  uStdQuote v = Ok r ->
  is_unicodeT r = true
  /\ (is_safeBase (converted v) = false ->
      existsb (fun ch => (ch =? 60) || (ch =? 62)) (text_of r) = false).
Proof.
  unfold uStdQuote, converted.
  destruct v as [| s | b | s | b | s | ucv bcv sv];
    [intros H; inversion H; subst; split; reflexivity | ..];
    apply quote_core.
Qed.

Lemma uStdQuote_output_has_no_markup_witness :
  is_unicodeT (PStr (u "a&lt;b&gt;")) = true
  /\ (is_safeBase (converted (PObj (Some (PStr (u "a<b>"))) None (u "x")))
      = false ->
      existsb (fun ch => (ch =? 60) || (ch =? 62))
        (text_of (PStr (u "a&lt;b&gt;"))) = false).
Proof.
  apply (uStdQuote_output_has_no_markup
           (PObj (Some (PStr (u "a<b>"))) None (u "x"))).
  reflexivity.
Defined.

Lemma starts_with_absent (c : N) (old s : ustr) :
  In c old -> ~ In c s -> starts_with old s = false.
Proof.
  revert s. induction old as [|a old IH]; intros s Ho Hs; [destruct Ho|].
  destruct s as [|b s]; [reflexivity|]. simpl.
  destruct (N.eqb_spec a b) as [->|Hne]; [|reflexivity]. simpl.
  destruct Ho as [->|Ho]; [exfalso; apply Hs; left; reflexivity|].
  apply IH; [exact Ho|]. intros H. apply Hs. right. exact H.
Qed.

Lemma replace_absent (c : N) (old new s : ustr) :
  In c old -> ~ In c s -> str_replace old new s = s.
Proof.
  intros Ho Hs. unfold str_replace.
  destruct old as [|a old]; [destruct Ho|].
  induction s as [|b s IH]; [reflexivity|].
  cbn [replace_from].
  rewrite (starts_with_absent c (a :: old) (b :: s) Ho Hs).
  f_equal. apply IH. intros H. apply Hs. right. exact H.
Qed.

(** X10: [unescape] leaves a text that holds no dollar sign as it is:
    braces alone are never touched. *)
Theorem unescape_without_dollar (s : ustr) :
  existsb (N.eqb 36) s = false -> unescape s = s.
Proof.
  intros H. apply has_char_In in H.
  unfold unescape, UNESCAPES. cbn [fold_left fst snd].
  rewrite (replace_absent 36 (u "{${") _ s); [|right; left; reflexivity|exact H].
  rewrite (replace_absent 36 (u "}$}") _ s); [|right; left; reflexivity|exact H].
  apply (replace_absent 36); [left; reflexivity|exact H].
Qed.

Lemma unescape_without_dollar_witness :
  unescape (u "a {x} }} b") = u "a {x} }} b".
Proof. apply (unescape_without_dollar (u "a {x} }} b")). reflexivity. Defined.

Lemma lstrip_class_suffix (cls s : ustr) :
  exists pre, s = pre ++ lstrip_class cls s
              /\ forallb (in_class cls) pre = true.
Proof.
  induction s as [|ch s IH]; [exists []; split; reflexivity|].
  simpl. destruct (in_class cls ch) eqn:E.
  - destruct IH as [pre [Hs Hp]]. exists (ch :: pre). split.
    + simpl. f_equal. exact Hs.
    + simpl. rewrite E. exact Hp.
  - exists []. split; reflexivity.
Qed.

Lemma in_class_wsc_nl (ch : N) :
  in_class (wsc ++ [10]) ch = droppable ch.
Proof.
  unfold in_class, droppable. rewrite existsb_app. cbn [existsb].
  rewrite orb_false_r. reflexivity.
Qed.

Lemma forallb_impl (p q : N -> bool) (l : ustr) :
  (forall x, p x = true -> q x = true) ->
  forallb p l = true -> forallb q l = true.
Proof.
  intros Hpq. induction l; simpl; [auto|].
  intros H. apply andb_true_iff in H. destruct H as [Ha Hl].
  rewrite (Hpq _ Ha). auto.
Qed.

(** X11: when [c] returns on a text literal, the result is the literal
    minus a prefix made only of characters of the class [wsc] and of line
    feeds; in the normal state the prefix is empty. *)
Theorem c_drops_leading_space_only (w : t) (s : ustr) (w' : t) (r : pyval) :
  c w (PStr s) = (w', Ok r) ->
  exists pre rest,
    r = PStr rest /\ s = pre ++ rest /\ forallb droppable pre = true
    /\ (ws w = 0%Z -> pre = []).
Proof.
  unfold c. intros H. inversion H as [[Hw Hr]]. clear H Hw.
  destruct (ws w =? 0)%Z eqn:E0.
  { inversion Hr; subst. exists [], s. repeat split. }
  apply Z.eqb_neq in E0.
  cbn [is_bytesT bind] in Hr. unfold pats_sub, pats in Hr.
  destruct (ws w =? 1)%Z eqn:E1.
  - cbn [bind] in Hr.
    destruct (lstrip_class_suffix wsc s) as [pre [Hs Hp]].
    destruct (lstrip_class wsc s) as [|c0 tl] eqn:El; [discriminate|].
    cbn [bind] in Hr.
    assert (Hp' : forallb droppable pre = true).
    { revert Hp. apply forallb_impl. intros x Hx. unfold droppable.
      rewrite Hx. reflexivity. }
    destruct (N.eqb_spec c0 10) as [->|Hne]; cbn [bind] in Hr;
      inversion Hr; subst r.
    + exists (pre ++ [10]), tl. split; [reflexivity|]. split.
      * rewrite <- app_assoc. exact Hs.
      * split; [|intros; contradiction]. rewrite forallb_app, Hp'. reflexivity.
    + exists pre, (c0 :: tl). split; [reflexivity|]. split; [exact Hs|].
      split; [exact Hp'|intros; contradiction].
  - destruct (ws w =? 2)%Z eqn:E2; [|discriminate].
    cbn [bind] in Hr. inversion Hr; subst r.
    destruct (lstrip_class_suffix (wsc ++ [10]) s) as [pre [Hs Hp]].
    exists pre, (lstrip_class (wsc ++ [10]) s).
    split; [reflexivity|]. split; [exact Hs|].
    split; [|intros; contradiction].
    revert Hp. apply forallb_impl. intros x. rewrite in_class_wsc_nl. auto.
Qed.

Lemma c_drops_leading_space_only_witness :
  exists pre rest,
    PStr (u "  x ") = PStr rest
    /\ [32; 9; 10] ++ u "  x " = pre ++ rest
    /\ forallb droppable pre = true
    /\ (ws {| ws := 1 |} = 0%Z -> pre = []).
Proof.
  apply (c_drops_leading_space_only {| ws := 1 |} ([32; 9; 10] ++ u "  x ")
           {| ws := 0 |} (PStr (u "  x "))).
  reflexivity.
Defined.

(** X12: the suppression of white space lasts for one write: a literal
    that follows another literal, or an expression whose value is not an
    [ignore], is passed to the literal converter as it is, whatever the
    state of the controller was before, and the controller is in its normal
    state afterwards. *)
Theorem only_next_literal_is_stripped (target : sink) (qFunc lconv : convfn)
  (op : write_op) (lit : pyval) (st st' : Run.state) :
  match op with
  | Op_literal _ => true
  | Op_expr v => negb (is_ignore v)
  | _ => false
  end = true ->
  Run.__code__ target qFunc lconv [op; Op_literal lit] st = (Ok tt, st') ->
  exists first o,
    call lconv lit = Ok o
    /\ Run.written st' = Run.written st ++ [first; (target, o)]
    /\ Run.wss st' = {| ws := 0 |}.
Proof.
  intros Hop H. cbn [Run.__code__] in H.
  assert (G : forall st1 : Run.state,
            Run.wss st1 = {| ws := 0 |} ->
            (let '(r, st2) := Run.__lwrite__ target lconv lit st1 in
             match r with
             | Ok _ => (Ok tt, st2)
             | Raise e => (Raise e, st2)
             end) = (Ok tt, st') ->
            exists o, call lconv lit = Ok o
                      /\ Run.written st' = Run.written st1 ++ [(target, o)]
                      /\ Run.wss st' = {| ws := 0 |}).
  { intros st1 Hw. unfold Run.__lwrite__. rewrite Hw. cbn [c ws Z.eqb bind].
    destruct (call lconv lit) as [o|e]; intros H1; inversion H1; subst.
    exists o. repeat split. }
  destruct op as [t0|v| |]; try discriminate.
  - unfold Run.__lwrite__ at 1 in H.
    destruct (c (Run.wss st) t0) as [w1 r1] eqn:Ec.
    assert (Hw1 : w1 = {| ws := 0 |}) by (unfold c in Ec; inversion Ec; reflexivity).
    destruct (v' <- r1 ;; call lconv v') as [o1|e1]; [|discriminate].
    apply G in H; [|exact Hw1].
    destruct H as [o [Hc [Hw Hs]]]. exists (target, o1), o.
    split; [exact Hc|]. split; [|exact Hs].
    rewrite Hw. cbn. rewrite <- app_assoc. reflexivity.
  - unfold Run.__swrite__ at 1 in H.
    assert (Hx : x (Run.wss st) v = ({| ws := 0 |}, v))
      by (destruct v; try discriminate; reflexivity).
    rewrite Hx in H.
    destruct (call qFunc v) as [o1|e1]; [|discriminate].
    apply G in H; [|reflexivity].
    destruct H as [o [Hc [Hw Hs]]]. exists (target, o1), o.
    split; [exact Hc|]. split; [|exact Hs].
    rewrite Hw. cbn. rewrite <- app_assoc. reflexivity.
Qed.

Lemma only_next_literal_is_stripped_witness :
  let st := {| Run.written := [(SysStdout, PIgnore [])];
               Run.wss := {| ws := 1 |} |} in
  let st' := {| Run.written := [(SysStdout, PIgnore []);
                                (SysStdout, PStr (u "a"));
                                (SysStdout, PStr ([10] ++ u "b"))];
                Run.wss := {| ws := 0 |} |} in
  exists first o,
    call F_unicodeT (PStr ([10] ++ u "b")) = Ok o
    /\ Run.written st' = Run.written st ++ [first; (SysStdout, o)]
    /\ Run.wss st' = {| ws := 0 |}.
Proof.
  intros st st'.
  apply (only_next_literal_is_stripped SysStdout F_uStdConv F_unicodeT
           (Op_expr (PStr (u "a"))) (PStr ([10] ++ u "b")) st st');
    reflexivity.
Defined.

(** X13: on a string the constructors [SafeString] and [SafeUnicode]
    return the same value, which is marked safe, is bytes exactly when the
    argument is and has its characters; [uStdQuote] does not escape it (and
    decodes it when it is bytes). *)
Theorem safe_constructors_follow_argument (v : pyval) :
  is_strTypes v = true ->
  exists r,
    SafeString_new v = Ok r /\ SafeUnicode_new v = Ok r
    /\ is_safeBase r = true
    /\ is_bytesT r = is_bytesT v
    /\ text_of r = text_of v /\ bytes_of r = bytes_of v
    /\ uStdQuote r = (if is_bytesT v then py_decode v else Ok r).
Proof.
  destruct v; try discriminate; intros _.
  - exists (PSafeUnicode s). repeat split.
  - exists (PSafeString b). repeat split.
  - exists (PSafeUnicode s). repeat split.
  - exists (PSafeString b). repeat split.
  - exists (PSafeUnicode s). repeat split.
Qed.

Lemma safe_constructors_follow_argument_witness :
  exists r,
    SafeString_new (PStr (u "<b>")) = Ok r
    /\ SafeUnicode_new (PStr (u "<b>")) = Ok r
    /\ is_safeBase r = true
    /\ is_bytesT r = false
    /\ text_of r = u "<b>" /\ bytes_of r = []
    /\ uStdQuote r = Ok r.
Proof.
  apply (safe_constructors_follow_argument (PStr (u "<b>"))). reflexivity.
Defined.

Lemma ms_ok_weaken (lo lo' : nat) (ms : list pat_match) (hi : nat) :
  (lo <= lo')%nat -> ms_ok lo' ms hi -> ms_ok lo ms hi.
Proof. destruct ms; simpl; [auto|]. intros H [H1 H2]. split; [lia|exact H2]. Qed.

Lemma take_while_length (p : N -> bool) (s : ustr) :
  (length (take_while p s) <= length s)%nat.
Proof. induction s; simpl; [lia|]. destruct (p a); simpl; lia. Qed.

Lemma starts_with_two_length (a b c : N) (s : ustr) :
  starts_with [a; b] (c :: s) = true -> (1 <= length s)%nat.
Proof.
  destruct s; simpl; [|lia]. rewrite andb_false_r. discriminate.
Qed.

Lemma finditer_from_ok (s : ustr) (pos skip : nat) :
  ms_ok (pos + skip) (finditer_from s pos skip) (pos + length s).
Proof.
  revert pos skip. induction s as [|c s IH]; intros pos skip; [exact I|].
  cbn [finditer_from length].
  replace (pos + S (length s))%nat with (S pos + length s)%nat by lia.
  destruct skip as [|k].
  - destruct (starts_with (u "{{") (c :: s)) eqn:Eo.
    + apply starts_with_two_length in Eo.
      pose proof (take_while_length is_space (skipn 1 s)) as Hl.
      rewrite length_skipn in Hl.
      cbn [ms_ok m_start m_end].
      repeat split; try lia.
      eapply ms_ok_weaken; [|apply (IH (S pos))]. lia.
    + destruct (starts_with (u "}}") (c :: s)) eqn:Ec.
      * apply starts_with_two_length in Ec.
        cbn [ms_ok m_start m_end].
        repeat split; try lia.
        eapply ms_ok_weaken; [|apply (IH (S pos))]. lia.
      * eapply ms_ok_weaken; [|apply (IH (S pos) 0%nat)]. lia.
  - eapply ms_ok_weaken; [|apply (IH (S pos) k)]. lia.
Qed.

Lemma rt_ok_weaken (rt : list Token) (ix ix' : nat) :
  (ix <= ix')%nat -> rt_ok rt ix -> rt_ok rt ix'.
Proof.
  destruct rt; simpl; [auto|]. intros H [H1 [H2 H3]].
  split; [exact H1|]. split; [lia|exact H3].
Qed.

Lemma keyword_not_eof (py310 : bool) (t : ustr) :
  In t (start_keywords py310) \/ In t (end_keywords py310) ->
  ustr_eqb t (u "eof") = false.
Proof.
  intros [H|H]; destruct py310; vm_compute in H;
    repeat (destruct H as [<-|H]; [reflexivity|]); destruct H.
Qed.

Lemma def_kind_not_eof (t : ustr) :
  is_def_kind t = true -> ustr_eqb t (u "eof") = false.
Proof.
  unfold is_def_kind. destruct t as [|a t]; [reflexivity|].
  cbn [starts_with u list_ascii_of_string map ustr_eqb].
  change (N_of_ascii "d") with 100. change (N_of_ascii "e") with 101.
  intros H. apply andb_true_iff in H. destruct H as [H _].
  apply N.eqb_eq in H. subst a. reflexivity.
Qed.

Lemma classify_not_eof (py310 : bool) (ua : N -> bool) (ds : Z) (body : ustr)
  (i0 : nat) (t : ustr) (ds' : Z) :
  classify py310 ua ds body i0 = Ok (t, ds') ->
  ustr_eqb t (u "eof") = false.
Proof.
  unfold classify.
  destruct (_s_match py310 ua body) as [m|] eqn:Em.
  2:{ intros H; inversion H; reflexivity. }
  pose proof (s_match_inv _ _ _ _ Em) as Hm.
  destruct m as [t0 se| |t0 de|t0 ee].
  - destruct (_ && _); [discriminate|]. intros H; inversion H; subst.
    apply (keyword_not_eof py310). left. exact Hm.
  - intros H; inversion H; reflexivity.
  - destruct (is_empty de); [discriminate|].
    destruct (negb (ds =? 0)%Z).
    + destruct (0 <? ds)%Z; discriminate.
    + intros H; inversion H; subst. apply def_kind_not_eof. exact Hm.
  - assert (G : ustr_eqb t0 (u "eof") = false)
      by (apply (keyword_not_eof py310); right; exact Hm).
    destruct ee as [ee|].
    + destruct (_ && _); [discriminate|]. intros H; inversion H; subst. exact G.
    + intros H; inversion H; subst. exact G.
Qed.

Lemma lex_step_spans (py310 : bool) (ua : N -> bool) (text : ustr)
  (st st' : lexst) (i : pat_match) :
  lex_step py310 ua text st i = Ok st' ->
  (ix st <= m_start i)%nat -> (m_start i < m_end i)%nat ->
  rt_ok (rtokens st) (ix st) ->
  rt_ok (rtokens st') (ix st') /\ (ix st' <= m_end i)%nat.
Proof.
  unfold lex_step. intros H Hix Hm Hrt.
  destruct (m_open i).
  - destruct (state st); [discriminate|]. inversion H; subst; clear H.
    cbn [rtokens ix]. split; [|lia].
    destruct (Nat.eqb_spec (m_start i) (ix st)) as [E|E]; cbn [negb].
    + eapply rt_ok_weaken; [|exact Hrt]. lia.
    + cbn [rt_ok start end_ kind].
      repeat split; try lia; try exact Hrt; reflexivity.
  - destruct (state st).
    + destruct (classify _ _ _ _ _) as [[t ds]|e] eqn:Ec; [|discriminate].
      cbn [bind] in H. inversion H; subst; clear H.
      cbn [rtokens ix]. split; [|lia].
      destruct (Nat.eqb_spec (m_start i) (ix st)) as [E|E]; cbn [negb].
      * eapply rt_ok_weaken; [|exact Hrt]. lia.
      * cbn [rt_ok start end_ kind].
        repeat split; try lia; try exact Hrt.
        exact (classify_not_eof _ _ _ _ _ _ _ Ec).
    + inversion H; subst. split; [exact Hrt|lia].
Qed.

Lemma lex_loop_spans (py310 : bool) (ua : N -> bool) (text : ustr)
  (ms : list pat_match) (hi : nat) (st st' : lexst) :
  lex_loop py310 ua text st ms = Ok st' ->
  ms_ok (ix st) ms hi -> (ix st <= hi)%nat ->
  rt_ok (rtokens st) (ix st) ->
  rt_ok (rtokens st') (ix st') /\ (ix st' <= hi)%nat.
Proof.
  revert st. induction ms as [|i ms IH]; intros st H Hms Hhi Hrt.
  - inversion H; subst. auto.
  - cbn [lex_loop] in H.
    destruct (lex_step py310 ua text st i) as [st1|e] eqn:E1; [|discriminate].
    cbn [bind] in H. destruct Hms as [Ha [Hb [Hc Hd]]].
    destruct (lex_step_spans _ _ _ _ _ _ E1 Ha Hb Hrt) as [Hrt1 Hix1].
    apply (IH st1 H); [|lia|exact Hrt1].
    eapply ms_ok_weaken; [exact Hix1|exact Hd].
Qed.

Lemma spans_ok_weaken (lo lo' : nat) (toks : list Token) (hi : nat) :
  (lo <= lo')%nat -> spans_ok lo' toks hi = true -> spans_ok lo toks hi = true.
Proof.
  destruct toks as [|t ts]; cbn [spans_ok]; intros H H1.
  - apply Nat.leb_le in H1. apply Nat.leb_le. lia.
  - apply andb_true_iff in H1. destruct H1 as [H1 H4].
    apply andb_true_iff in H1. destruct H1 as [H1 H3].
    apply andb_true_iff in H1. destruct H1 as [H1 H2].
    apply Nat.leb_le in H1.
    rewrite H2, H3, H4. replace (lo <=? start t)%nat with true; [reflexivity|].
    symmetry. apply Nat.leb_le. lia.
Qed.

Lemma rt_ok_spans (rt : list Token) (ix : nat) (acc : list Token) (hi : nat) :
  rt_ok rt ix -> spans_ok ix acc hi = true ->
  spans_ok 0 (rev rt ++ acc) hi = true.
Proof.
  revert ix acc. induction rt as [|t rt IH]; intros ix acc Hrt Hacc.
  - simpl. eapply spans_ok_weaken; [|exact Hacc]. lia.
  - cbn [rev]. rewrite <- app_assoc. cbn [app].
    destruct Hrt as [H1 [H2 [H3 H4]]].
    apply (IH (start t)); [exact H4|].
    cbn [spans_ok]. rewrite Nat.leb_refl, H3.
    replace (start t <? end_ t)%nat with true
      by (symmetry; apply Nat.ltb_lt; lia).
    cbn [andb negb]. eapply spans_ok_weaken; [exact H2|exact Hacc].
Qed.

Lemma spans_ok_not_eof (lo : nat) (toks : list Token) (hi : nat) (t : Token) :
  spans_ok lo toks hi = true -> In t toks ->
  ustr_eqb (kind t) (u "eof") = false.
Proof.
  revert lo. induction toks as [|t0 ts IH]; intros lo H Hin; [destruct Hin|].
  cbn [spans_ok] in H.
  apply andb_true_iff in H. destruct H as [H H4].
  apply andb_true_iff in H. destruct H as [H H3].
  destruct Hin as [<-|Hin].
  - apply negb_true_iff. exact H3.
  - exact (IH _ H4 Hin).
Qed.

Lemma tokenize_spans (py310 : bool) (ua : N -> bool) (text : ustr)
  (toks : list Token) (ds : Z) :
  tokenize py310 ua text = Ok (toks, ds) ->
  exists body,
    toks = body ++ [{| kind := u "eof"; start := length text;
                       end_ := length text |}]
    /\ spans_ok 0 body (length text) = true.
Proof.
  unfold tokenize, tokenize_from.
  destruct (lex_loop _ _ _ _ _) as [st|e] eqn:El; [|discriminate].
  cbn [bind]. destruct (state st); [discriminate|].
  intros H. inversion H; subst; clear H.
  pose proof (finditer_from_ok text 0 0) as Hms. cbn [Nat.add] in Hms.
  destruct (lex_loop_spans _ _ _ _ (length text) _ _ El Hms
              ltac:(cbn; lia) I) as [Hrt Hix].
  cbn [rev].
  eexists. split; [reflexivity|].
  destruct (Nat.eqb_spec (ix st) (length text)) as [E|E]; cbn [negb].
  - rewrite <- (app_nil_r (rev (rtokens st))).
    apply (rt_ok_spans _ (ix st)); [exact Hrt|].
    cbn [spans_ok]. apply Nat.leb_le. lia.
  - rewrite <- (app_nil_r (rev _)).
    apply (rt_ok_spans _ (length text)).
    + cbn [rt_ok start end_ kind].
      repeat split; try lia; try exact Hrt; reflexivity.
    + cbn [spans_ok]. apply Nat.leb_refl.
Qed.

(** X14: the tokens of a template that lexes are in the order of the
    source: each spans one character at least, starts at or after the end
    of the one before and ends within the source; none of them is of kind
    [eof] but the last, which stands at the end of the source. *)
Theorem tokens_in_source_order (py310 : bool) (ua : N -> bool) (text : ustr)
  (toks : list Token) (ds : Z) :
  tokenize py310 ua text = Ok (toks, ds) ->
  exists body,
    toks = body ++ [{| kind := u "eof"; start := length text;
                       end_ := length text |}]
    /\ spans_ok 0 body (length text) = true.
Proof. apply tokenize_spans. Qed.

Lemma tokens_in_source_order_witness :
  exists body,
    [ {| kind := u "const"; start := 0; end_ := 2 |};
      {| kind := u "if"; start := 4; end_ := 8 |};
      {| kind := u "const"; start := 10; end_ := 11 |};
      {| kind := u "endif"; start := 13; end_ := 18 |};
      {| kind := u "eof"; start := 20; end_ := 20 |} ]
    = body ++ [{| kind := u "eof"; start := length (u "a {{if x}}y{{endif}}");
                  end_ := length (u "a {{if x}}y{{endif}}") |}]
    /\ spans_ok 0 body (length (u "a {{if x}}y{{endif}}")) = true.
Proof.
  apply (tokens_in_source_order true (fun _ => false)
           (u "a {{if x}}y{{endif}}") _ (-1)).
  reflexivity.
Defined.

Lemma finditer_no_open (s : ustr) (pos skip : nat) :
  holds_open s = false ->
  Forall (fun m => m_open m = false) (finditer_from s pos skip).
Proof.
  revert pos skip. induction s as [|c s IH]; intros pos skip H; [constructor|].
  cbn [holds_open] in H. apply orb_false_iff in H. destruct H as [Ho Hs].
  cbn [finditer_from]. destruct skip as [|k]; [|apply IH; exact Hs].
  rewrite Ho. destruct (starts_with (u "}}") (c :: s)).
  - constructor; [reflexivity|apply IH; exact Hs].
  - apply IH; exact Hs.
Qed.

Lemma lex_loop_closes_only (py310 : bool) (ua : N -> bool) (text : ustr)
  (ms : list pat_match) (st : lexst) :
  Forall (fun m => m_open m = false) ms -> state st = false ->
  lex_loop py310 ua text st ms = Ok st.
Proof.
  induction 1 as [|m ms Hm _ IH]; intros Hs; [reflexivity|].
  cbn [lex_loop]. unfold lex_step. rewrite Hm, Hs. cbn [bind]. exact (IH Hs).
Qed.

(** X15: a text that holds no opening delimiter lexes, whatever closing
    delimiters it holds, as one [const] token that spans it (none when the
    text is empty) followed by [eof], and [_defSeen] stays 0. *)
Theorem text_without_tag_is_one_literal (py310 : bool) (ua : N -> bool)
  (text : ustr) :
  holds_open text = false ->
  tokenize py310 ua text
  = Ok ((if is_empty text then []
         else [{| kind := u "const"; start := 0; end_ := length text |}])
        ++ [{| kind := u "eof"; start := length text; end_ := length text |}],
        0%Z).
Proof.
  intros H. unfold tokenize, tokenize_from, finditer.
  rewrite lex_loop_closes_only;
    [|apply finditer_no_open; exact H|reflexivity].
  cbn [bind state ix rtokens defSeen].
  destruct text; reflexivity.
Qed.

Lemma text_without_tag_is_one_literal_witness :
  tokenize true (fun _ => false) (u "a }} { b")
  = Ok ([{| kind := u "const"; start := 0; end_ := 8 |};
         {| kind := u "eof"; start := 8; end_ := 8 |}], 0%Z).
Proof.
  apply (text_without_tag_is_one_literal true (fun _ => false) (u "a }} { b")).
  reflexivity.
Defined.

Lemma finditer_from_skip (s : ustr) (pos k : nat) :
  finditer_from s pos k = finditer_from (skipn k s) (pos + k) 0.
Proof.
  revert s pos. induction k as [|k IH]; intros s pos.
  - rewrite Nat.add_0_r. reflexivity.
  - destruct s as [|c s]; [reflexivity|].
    cbn [finditer_from skipn]. rewrite IH. f_equal. lia.
Qed.

Lemma holds_close_skipn (s : ustr) (k : nat) :
  holds_close s = false -> holds_close (skipn k s) = false.
Proof.
  revert s. induction k as [|k IH]; intros s H; [exact H|].
  destruct s as [|c s]; [exact H|].
  cbn [holds_close] in H. apply orb_false_iff in H. destruct H as [_ H].
  cbn [skipn]. apply IH. exact H.
Qed.

Lemma holds_open_find (s : ustr) (pos : nat) :
  holds_open s = true ->
  exists i, str_find_from (u "{{") s pos = Some i /\ (pos <= i)%nat.
Proof.
  revert pos. induction s as [|c s IH]; intros pos H; [discriminate|].
  cbn [holds_open] in H. cbn [str_find_from].
  destruct (starts_with (u "{{") (c :: s)).
  - exists pos. split; [reflexivity|lia].
  - destruct (IH (S pos) H) as [i [Hi Hle]]. exists i. split; [exact Hi|lia].
Qed.

(** The first match of the pattern in a text without closing delimiter
    starts at the first opening delimiter and takes the white space after
    it; the search goes on behind it. *)
Lemma finditer_first_open (s : ustr) (pos i : nat) :
  holds_close s = false ->
  str_find_from (u "{{") s pos = Some i ->
  let e := (i - pos + 2
            + length (take_while is_space (skipn (i - pos + 2) s)))%nat in
  finditer_from s pos 0
  = {| m_start := i; m_end := pos + e; m_open := true |}
      :: finditer_from (skipn e s) (pos + e) 0.
Proof.
  revert pos. induction s as [|c s IH]; intros pos Hc Hf; [discriminate|].
  cbn [holds_close] in Hc. apply orb_false_iff in Hc. destruct Hc as [Hc0 Hc].
  cbn [str_find_from] in Hf. cbn [finditer_from].
  destruct (starts_with (u "{{") (c :: s)) eqn:Ho.
  - assert (i = pos) by congruence. subst i. clear Hf. replace (pos - pos + 2)%nat with 2%nat by lia.
    cbv zeta. cbn [skipn Nat.add]. rewrite finditer_from_skip.
    destruct s as [|d s];
      [cbn in Ho; rewrite andb_false_r in Ho; discriminate|]. cbn [skipn].
    f_equal; [f_equal; lia|]. f_equal. lia.
  - rewrite Hc0.
    assert (Hle : (S pos <= i)%nat).
    { clear -Hf. revert Hf. generalize (S pos). induction s as [|d s IHs];
        intros p; cbn [str_find_from].
      - cbn. discriminate.
      - destruct (starts_with (u "{{") (d :: s)).
        + intros [= <-]. lia.
        + intros H. specialize (IHs _ H). lia. }
    specialize (IH (S pos) Hc Hf). cbv zeta in IH |- *.
    replace (i - pos + 2)%nat with (S (i - S pos + 2)) by lia.
    cbn [skipn Nat.add]. rewrite IH. f_equal; [f_equal; lia|].
    f_equal. lia.
Qed.

Lemma finditer_no_more (s : ustr) (pos : nat) :
  holds_close s = false -> str_find_from (u "{{") s pos = None ->
  finditer_from s pos 0 = [].
Proof.
  revert pos. induction s as [|c s IH]; intros pos Hc Hf; [reflexivity|].
  cbn [holds_close] in Hc. apply orb_false_iff in Hc. destruct Hc as [Hc0 Hc].
  cbn [str_find_from] in Hf. cbn [finditer_from].
  destruct (starts_with (u "{{") (c :: s)); [discriminate|].
  rewrite Hc0. apply IH; assumption.
Qed.

(** X16: a text that holds an opening delimiter and no closing one does
    not lex.  The first match of the scan is the first `{{` with the white
    space behind it, and it ends at [e].  When another `{{` is found from
    [e] on, the lexer raises `Unexpected {{` at the offset of that second
    delimiter; when none is, it raises `Unterminated preppy token` at
    [e]. *)
Theorem unclosed_tag_is_refused (py310 : bool) (ua : N -> bool) (ds0 : Z)
  (text : ustr) :
  holds_open text = true -> holds_close text = false ->
  exists i,
    str_find (u "{{") text = Some i
    /\ let e := (i + 2 + length (take_while is_space (skipn (i + 2) text)))%nat in
       tokenize_from py310 ua ds0 text
       = match str_find_from (u "{{") (skipn e text) e with
         | Some j => Raise (SyntaxError (u "Unexpected {{") j)
         | None => Raise (SyntaxError (u "Unterminated preppy token") e)
         end.
Proof.
  intros Ho Hc. destruct (holds_open_find text 0 Ho) as [i [Hi _]].
  exists i. split; [exact Hi|]. cbv zeta.
  unfold tokenize_from, finditer.
  pose proof (finditer_first_open text 0 i Hc Hi) as E. cbv zeta in E.
  rewrite Nat.sub_0_r, Nat.add_0_l in E. rewrite E. clear E.
  set (e := (i + 2 + length (take_while is_space (skipn (i + 2) text)))%nat).
  cbn [lex_loop]. unfold lex_step at 1. cbn [m_open state bind].
  pose proof (holds_close_skipn text e Hc) as Hc'.
  destruct (str_find_from (u "{{") (skipn e text) e) as [j|] eqn:Hj.
  - rewrite (finditer_first_open _ e j Hc' Hj). cbn [lex_loop].
    unfold lex_step. cbn [m_open state m_start bind]. reflexivity.
  - rewrite (finditer_no_more _ e Hc' Hj).
    cbn [lex_loop bind state ix]. reflexivity.
Qed.

Lemma unclosed_tag_is_refused_witness :
  exists i,
    str_find (u "{{") (u "a {{  if x} b") = Some i
    /\ let e := (i + 2 + length (take_while is_space
                                   (skipn (i + 2) (u "a {{  if x} b"))))%nat in
       tokenize_from true (fun _ => false) 0 (u "a {{  if x} b")
       = match str_find_from (u "{{") (skipn e (u "a {{  if x} b")) e with
         | Some j => Raise (SyntaxError (u "Unexpected {{") j)
         | None => Raise (SyntaxError (u "Unterminated preppy token") e)
         end.
Proof.
  apply (unclosed_tag_is_refused true (fun _ => false) 0 (u "a {{  if x} b"));
    reflexivity.
Defined.

(** The two errors of an unclosed tag, on texts with one and with two
    opening delimiters. *)
Lemma unclosed_tag_unterminated_example :
  tokenize_from true (fun _ => false) 0 (u "a {{  if x} b")
  = Raise (SyntaxError (u "Unterminated preppy token") 6).
Proof. reflexivity. Qed.

Lemma unclosed_tag_unexpected_example :
  tokenize_from true (fun _ => false) 0 (u "a {{ if {{x")
  = Raise (SyntaxError (u "Unexpected {{") 8).
Proof. reflexivity. Qed.

Lemma kind_in_In (k : ustr) (l : list ustr) :
  kind_in k l = true -> In k l.
Proof.
  unfold kind_in. intros H. apply existsb_exists in H.
  destruct H as [k' [Hin He]]. apply ustr_eqb_eq in He. subst. exact Hin.
Qed.

Lemma differ_starts_with (k kw s : ustr) :
  differ k kw = true -> starts_with k (kw ++ s) = false.
Proof.
  revert kw. induction k as [|a k IH]; intros kw H; [discriminate|].
  destruct kw as [|b kw]; [discriminate|].
  cbn [differ] in H. cbn [app starts_with].
  destruct (N.eqb_spec a b) as [->|Hne]; [|reflexivity].
  cbn [negb orb andb] in *. apply IH. exact H.
Qed.

Lemma skipn_length_app (kw s : ustr) : skipn (length kw) (kw ++ s) = s.
Proof. induction kw; [reflexivity|exact IHkw]. Qed.

Lemma first_keyword_apart (kws : list ustr) (ok : ustr -> bool)
  (kw s : ustr) :
  forallb (fun k => (ustr_eqb k kw && negb (ok s)) || differ k kw) kws = true ->
  first_keyword kws ok (kw ++ s) = None.
Proof.
  induction kws as [|k kws IH]; intros H; [reflexivity|].
  cbn [forallb] in H. apply andb_true_iff in H. destruct H as [Hk Hr].
  cbn [first_keyword]. rewrite (IH Hr).
  apply orb_true_iff in Hk. destruct Hk as [Hk|Hk].
  - apply andb_true_iff in Hk. destruct Hk as [He Ho].
    apply ustr_eqb_eq in He. subst k.
    rewrite skipn_length_app. apply negb_true_iff in Ho. rewrite Ho.
    rewrite andb_false_r. reflexivity.
  - rewrite (differ_starts_with _ _ _ Hk). reflexivity.
Qed.

(** A start keyword shares no prefix with another keyword of the
    pattern [_s], nor with the word [def]. *)
Lemma kw_apart_all (py310 : bool) (kw : ustr) :
  In kw (start_keywords py310) ->
  forallb (fun k => ustr_eqb k kw || differ k kw) (start_keywords py310)
  = true
  /\ forallb (fun k => differ k kw) (end_keywords py310) = true
  /\ differ (u "def") kw = true.
Proof.
  intros H. destruct py310; vm_compute in H;
    repeat (destruct H as [<-|H];
            [repeat split; vm_compute; reflexivity|]);
    destruct H.
Qed.

Lemma alternatives_apart (ua : N -> bool) (kw : ustr) (c0 : N) (rest : ustr)
  (ks ke : list ustr) :
  forallb (fun k => ustr_eqb k kw || differ k kw) ks = true ->
  forallb (fun k => differ k kw) ke = true ->
  differ (u "def") kw = true ->
  is_space c0 = false ->
  match first_keyword ks startend_ok (kw ++ c0 :: rest) with
  | Some (t, rest0) => Some (M_start t (take_while is_space rest0))
  | None =>
      if tdef_matches ua (kw ++ c0 :: rest) then Some M_tdef
      else
        match def_match (kw ++ c0 :: rest) with
        | Some m => Some m
        | None =>
            match first_keyword ke (fun _ => true) (kw ++ c0 :: rest) with
            | Some (t, rest0) =>
                Some (M_end t (if ws_eol rest0 then None else Some rest0))
            | None => None
            end
        end
  end = None.
Proof.
  intros Hs He Hd Hc.
  rewrite (first_keyword_apart ks startend_ok kw (c0 :: rest)).
  2:{ rewrite forallb_forall in Hs. apply forallb_forall. intros k Hin.
      specialize (Hs k Hin). unfold startend_ok. rewrite Hc.
      rewrite andb_true_r. exact Hs. }
  unfold tdef_matches, def_match.
  rewrite (differ_starts_with _ _ (c0 :: rest) Hd).
  rewrite (first_keyword_apart ke (fun _ => true) kw (c0 :: rest)).
  2:{ rewrite forallb_forall in He. apply forallb_forall. intros k Hin.
      rewrite (He k Hin). apply orb_true_r. }
  reflexivity.
Qed.

Lemma keyword_prefix_no_match (py310 : bool) (ua : N -> bool)
  (kw : ustr) (c0 : N) (rest : ustr) :
  In kw (start_keywords py310) ->
  is_space c0 = false ->
  _s_match py310 ua (kw ++ c0 :: rest) = None.
Proof.
  intros Hk Hc. destruct (kw_apart_all py310 kw Hk) as (Hs & He & Hd).
  exact (alternatives_apart ua kw c0 rest _ _ Hs He Hd Hc).
Qed.

(** X17: a tag whose text is a block-start keyword immediately followed
    by a character that is not white space (an identifier such as
    [format] or [iffy(x)]) is an expression, not a directive. *)
Theorem keyword_prefix_is_expression (py310 : bool) (ua : N -> bool) (ds : Z)
  (kw : ustr) (c0 : N) (rest : ustr) (i0 : nat) :
  kind_in kw (start_keywords py310) = true ->
  is_space c0 = false ->
  classify py310 ua ds (kw ++ c0 :: rest) i0 = Ok (u "expr", ds).
Proof.
  intros Hk Hc. apply kind_in_In in Hk.
  unfold classify. rewrite (keyword_prefix_no_match py310 ua kw c0 rest Hk Hc).
  reflexivity.
Qed.

Lemma keyword_prefix_is_expression_witness :
  classify true (fun _ => false) 0 (u "for" ++ 109 :: u "at(x)") 12
  = Ok (u "expr", 0%Z).
Proof.
  apply (keyword_prefix_is_expression true (fun _ => false) 0 (u "for") 109
           (u "at(x)") 12); reflexivity.
Defined.

Lemma split_join_lines (ls : list ustr) :
  ls <> [] -> (forall l, In l ls -> ~ In 10 l) ->
  split_on 10 (join_lines ls) = ls.
Proof.
  induction ls as [|l ls IH]; intros Hne Hl; [congruence|].
  destruct ls as [|l2 ls'].
  - cbn [join_lines]. apply split_on_no_sep. apply Hl. left. reflexivity.
  - change (join_lines (l :: l2 :: ls'))
      with (l ++ 10 :: join_lines (l2 :: ls')).
    rewrite split_on_app by (apply Hl; left; reflexivity).
    f_equal. apply IH; [discriminate|].
    intros l0 H0. apply Hl. right. exact H0.
Qed.

Lemma count_blank_split (lines : list ustr) :
  forallb blank_or_comment (firstn (count_blank lines) lines) = true
  /\ length (firstn (count_blank lines) lines) = count_blank lines
  /\ match skipn (count_blank lines) lines with
     | [] => forallb blank_or_comment lines = true
     | l0 :: _ => blank_or_comment l0 = false
                  /\ forallb blank_or_comment lines = false
     end.
Proof.
  induction lines as [|l ls IH]; [repeat split|].
  cbn [count_blank]. destruct (blank_or_comment l) eqn:E.
  - cbn [firstn skipn forallb length]. rewrite E. cbn [andb].
    destruct IH as [H1 [H2 H3]]. split; [exact H1|]. split; [lia|exact H3].
  - cbn [firstn skipn forallb length]. rewrite E. repeat split.
Qed.

Lemma str_find_from_bound (sub s : ustr) (pos i : nat) :
  str_find_from sub s pos = Some i -> (pos <= i <= pos + length s)%nat.
Proof.
  revert pos. induction s as [|ch s IH]; intros pos; cbn [str_find_from].
  - destruct (starts_with sub []); [|discriminate].
    intros H; inversion H; subst. cbn. lia.
  - destruct (starts_with sub (ch :: s)).
    + intros H; inversion H; subst. cbn. lia.
    + intros H. apply IH in H. cbn [length]. lia.
Qed.

Lemma dedent_lines_spec (indent : ustr) (ffw : nat) (lines out : list ustr) :
  dedent_lines indent ffw lines = Ok out ->
  out = map (dedent_line ffw) lines
  /\ forall l, In l lines -> blank_or_comment l = false ->
               firstn ffw l = indent.
Proof.
  revert out. induction lines as [|l ls IH]; intros out H.
  - inversion H; subst. split; [reflexivity|intros l []].
  - cbn [dedent_lines] in H.
    destruct (blank_or_comment l) eqn:Eb.
    + destruct (dedent_lines indent ffw ls) as [r|e]; cbn [bind] in H;
        [|discriminate].
      inversion H; subst. destruct (IH r eq_refl) as [IH1 IH2].
      split; [cbn [map]; unfold dedent_line at 1; rewrite Eb, <- IH1;
              reflexivity|].
      intros l0 [<-|Hin] Hb; [congruence|exact (IH2 _ Hin Hb)].
    + destruct (ustr_eqb (firstn ffw l) indent) eqn:Ee; cbn [negb] in H;
        [|discriminate].
      apply ustr_eqb_eq in Ee.
      destruct (dedent_lines indent ffw ls) as [r|e]; cbn [bind] in H;
        [|discriminate].
      inversion H; subst. destruct (IH r eq_refl) as [IH1 IH2].
      split; [cbn [map]; unfold dedent_line at 1; rewrite Eb, <- IH1;
              reflexivity|].
      intros l0 [<-|Hin] Hb; [reflexivity|exact (IH2 _ Hin Hb)].
Qed.

Lemma map_dedent_blank (n : nat) (ls : list ustr) :
  forallb blank_or_comment ls = true ->
  map (dedent_line n) ls = repeat [] (length ls).
Proof.
  induction ls as [|l ls IH]; [reflexivity|].
  cbn [forallb map length repeat]. intros H.
  apply andb_true_iff in H. destruct H as [Hl Hs].
  unfold dedent_line at 1. rewrite Hl, (IH Hs). reflexivity.
Qed.

Lemma dedent_line_no_nl (n : nat) (l : ustr) :
  ~ In 10 l -> ~ In 10 (dedent_line n l).
Proof.
  intros H. unfold dedent_line. destruct (blank_or_comment l); [intros []|].
  intros Hin. apply H. rewrite <- (firstn_skipn n l).
  apply in_or_app. right. exact Hin.
Qed.

(** X18: when [dedent] returns [(n, out)] on a text whose lines are all
    blank or comments, [n] is 0 and [out] is empty; otherwise [out] has the
    lines of the text in the same number and order, a blank or comment
    line made empty and every other line without its first [n]
    characters, and the lines that hold code all start with the same [n]
    characters. *)
Theorem dedent_line_by_line (text : ustr) (n : nat) (out : ustr) :
  dedent text = Ok (n, out) ->
  let lines := split_on 10 text in
  if forallb blank_or_comment lines then n = O /\ out = []
  else
    split_on 10 out = map (dedent_line n) lines
    /\ exists indent,
         length indent = n
         /\ forall l, In l lines -> blank_or_comment l = false ->
                      firstn n l = indent.
Proof.
  intros H. cbv zeta. unfold dedent in H. cbv zeta in H.
  set (lines := split_on 10 text) in *.
  destruct (count_blank_split lines) as [Hb [Hlen Hrest]].
  pose proof (firstn_skipn (count_blank lines) lines) as Hsplit.
  destruct (skipn (count_blank lines) lines) as [|line0 rest] eqn:Es.
  - rewrite Hrest. inversion H; subst. split; reflexivity.
  - destruct Hrest as [Hb0 Hall]. rewrite Hall.
    destruct (str_find _ line0) as [ffw|] eqn:Ef; [|discriminate].
    destruct (dedent_lines _ ffw (line0 :: rest)) as [linesout|e] eqn:Ed;
      cbn [bind] in H; [|discriminate].
    inversion H; subst n out; clear H.
    apply str_find_from_bound in Ef.
    assert (Hn : length (firstn ffw line0) = ffw)
      by (rewrite length_firstn; lia).
    rewrite Hn.
    destruct (dedent_lines_spec _ _ _ _ Ed) as [Ho Hi].
    assert (Hno : forall l, In l lines -> ~ In 10 l)
      by (intros l; apply split_on_lines_no_sep).
    split.
    + rewrite split_join_lines.
      * rewrite <- Hsplit at 2. rewrite map_app.
        rewrite (map_dedent_blank _ _ Hb), Hlen, Ho. reflexivity.
      * subst linesout. destruct (count_blank lines); discriminate.
      * intros l Hin. apply in_app_or in Hin. destruct Hin as [Hin|Hin].
        -- apply repeat_spec in Hin. subst l. intros [].
        -- subst linesout. apply in_map_iff in Hin.
           destruct Hin as [l0 [<- Hin]]. apply dedent_line_no_nl.
           apply Hno. rewrite <- Hsplit. apply in_or_app. right. exact Hin.
    + exists (firstn ffw line0). split; [exact Hn|].
      intros l Hin Hbl. rewrite <- Hsplit in Hin.
      apply in_app_or in Hin. destruct Hin as [Hin|Hin].
      * rewrite forallb_forall in Hb. rewrite (Hb l Hin) in Hbl. discriminate.
      * exact (Hi l Hin Hbl).
Qed.

Lemma dedent_line_by_line_witness :
  let text := u "  a" ++ [10; 10] ++ u "  # c" ++ [10] ++ u "  b" in
  let lines := split_on 10 text in
  if forallb blank_or_comment lines then 2%nat = O /\ u "a" ++ [10; 10; 10] ++ u "b" = []
  else
    split_on 10 (u "a" ++ [10; 10; 10] ++ u "b") = map (dedent_line 2) lines
    /\ exists indent,
         length indent = 2%nat
         /\ forall l, In l lines -> blank_or_comment l = false ->
                      firstn 2 l = indent.
Proof.
  apply (dedent_line_by_line
           (u "  a" ++ [10; 10] ++ u "  # c" ++ [10] ++ u "  b") 2
           (u "a" ++ [10; 10; 10] ++ u "b")).
  reflexivity.
Defined.

Section GetModuleFurther.

Variable md5_hexdigest : bstr -> ustr.
Variable code_body : Type.
Variable compile_body : pyval -> ustr -> res code_body.
Variable path_split : ustr -> ustr * ustr.
Variable path_isabs : ustr -> bool.
Variable path_abs_norm : ustr -> ustr.
Variable path_splitext : ustr -> ustr * ustr.
Variable path_join : ustr -> ustr -> ustr.
Variable disk : Type.
Variable rl_get_module : disk -> ustr -> ustr -> option (Cache.module code_body).
Variable open_source : disk -> ustr -> option ustr.
Variable write_pyc : disk -> ustr -> Cache.codeobject code_body -> option disk.

Local Abbreviation getModule :=
  (Cache.getModule md5_hexdigest code_body compile_body path_split
     path_isabs path_abs_norm path_splitext path_join disk rl_get_module
     open_source write_pyc).
Local Abbreviation resolve :=
  (Cache.resolve md5_hexdigest path_split path_isabs path_abs_norm
     path_splitext).
Local Abbreviation rebuild :=
  (Cache.rebuild code_body compile_body path_join disk write_pyc).
Local Abbreviation getMd5 := (Cache.getMd5 md5_hexdigest).
Local Abbreviation world := (Cache.world code_body disk).

(** X22: [getModule] on an object with a [read] method, with [savePyc]
    true (the default) and a text that is not cached yet: when the
    compilation succeeds the call raises [UnboundLocalError] (the
    directory [dir] was never assigned), after it compiled and before
    anything is cached or written. *)
Theorem file_object_with_savePyc_raises (a : Cache.args) (w : world)
  (content : pyval) (name_attr : option ustr) (cs : ustr) :
  Cache.name a = Cache.Name_file content name_attr ->
  Cache.sourcetext a = None ->
  getMd5 content = Ok cs ->
  Cache.source_module _ _ w content = None ->
  Cache.savePyc a <> 0%Z ->
  exists fname,
    getModule a w
    = match compile_body content fname with
      | Ok _ => (Raise UnboundLocalError,
                 Cache.add_event _ _ (Cache.Ev_compile fname) w)
      | Raise e => (Raise e, Cache.add_event _ _ (Cache.Ev_compile fname) w)
      end.
Proof.
  intros Hn Hs Hc Hm Hp.
  apply Z.eqb_neq in Hp.
  exists (u "<input text "
          ++ match name_attr with
             | Some (c0 :: n) => c0 :: n
             | _ => u "_preppy_" ++ cs
             end ++ u ">").
  unfold Cache.getModule, Cache.resolve. rewrite Hn, Hs. cbn [bind].
  destruct name_attr as [[|c0 n]|]; rewrite Hc; cbn [bind]; rewrite ?Hc;
    cbn [is_empty]; rewrite Hm; unfold Cache.rebuild;
    try change (is_empty (u "_preppy_" ++ cs)) with false; cbv iota;
    (destruct (compile_body content _); [|reflexivity]);
    rewrite Hp; reflexivity.
Qed.

Lemma put_module_keeps_disk (ex : option nat) (m : Cache.module code_body)
  (w w1 : world) (r : nat) :
  Cache.put_module _ _ ex m w = (r, w1) ->
  Cache.log _ _ w1 = Cache.log _ _ w
  /\ Cache.the_disk _ _ w1 = Cache.the_disk _ _ w.
Proof.
  unfold Cache.put_module. destruct ex; intros H; inversion H; subst;
    split; reflexivity.
Qed.

Lemma rebuild_disk_use (a : Cache.args) (name : ustr) (dir : option ustr)
  (sp : Z) (text : pyval) (fname cs : ustr) (nsf : bool) (w w' : world)
  (r : res nat) :
  rebuild a name dir sp text fname cs nsf w = (r, w') ->
  exists new,
    Cache.log _ _ w' = Cache.log _ _ w ++ new
    /\ existsb is_read_event new = false
    /\ (sp = 0%Z ->
        existsb is_write_event new = false
        /\ Cache.the_disk _ _ w' = Cache.the_disk _ _ w).
Proof.
  unfold Cache.rebuild. intros H.
  destruct (compile_body text fname) as [body|e].
  2:{ inversion H; subst. exists [Cache.Ev_compile fname].
      repeat split. }
  destruct (Z.eqb_spec sp 0) as [E0|E0]; cbn [negb] in H.
  - destruct (Cache.put_module _ _ _ _ _) as [r0 w0] eqn:Ep.
    apply put_module_keeps_disk in Ep. destruct Ep as [El Ed].
    cbn [Cache.log Cache.the_disk Cache.add_event] in El, Ed.
    exists [Cache.Ev_compile fname].
    inversion H; subst r w'; clear H.
    assert (G : forall w2 : world,
               Cache.log _ _ w2 = Cache.log _ _ w0
               /\ Cache.the_disk _ _ w2 = Cache.the_disk _ _ w0 ->
               Cache.log _ _ w2 = Cache.log _ _ w ++ [Cache.Ev_compile fname]
               /\ existsb is_read_event [Cache.Ev_compile fname] = false
               /\ (sp = 0%Z ->
                   existsb is_write_event [Cache.Ev_compile fname] = false
                   /\ Cache.the_disk _ _ w2 = Cache.the_disk _ _ w)).
    { intros w2 [H1 H2]. rewrite H1, H2, El, Ed. repeat split. }
    apply G.
    destruct (negb (Cache.importModule a =? 0)%Z); [|split; reflexivity].
    destruct nsf; [|split; reflexivity].
    destruct (Cache.text_key text); split; reflexivity.
  - destruct dir as [d|].
    2:{ inversion H; subst. exists [Cache.Ev_compile fname].
        repeat split; intros; contradiction. }
    cbn [Cache.the_disk Cache.add_event] in H.
    destruct (write_pyc _ _ _) as [d'|].
    + destruct (Cache.put_module _ _ _ _ _) as [r0 w0] eqn:Ep.
      apply put_module_keeps_disk in Ep. destruct Ep as [El Ed].
      cbn [Cache.log Cache.the_disk Cache.add_event Cache.set_disk] in El.
      exists [Cache.Ev_compile fname;
              Cache.Ev_write (path_join d (name ++ u ".pyc"))].
      inversion H; subst r w'; clear H.
      split; [|split; [reflexivity|intros; contradiction]].
      rewrite <- app_assoc in El. cbn [app] in El. rewrite <- El.
      destruct (negb (Cache.importModule a =? 0)%Z); [|reflexivity].
      destruct nsf; [|reflexivity].
      destruct (Cache.text_key text); reflexivity.
    + inversion H; subst.
      exists [Cache.Ev_compile fname;
              Cache.Ev_write (path_join d (name ++ u ".pyc"))].
      split; [cbn; rewrite <- app_assoc; reflexivity|].
      split; [reflexivity|intros; contradiction].
Qed.

(** X23: a call of [getModule] with a name and a source text loads no
    compiled file and opens no source file; with [savePyc=0] and no
    [savefile] it writes no file either and leaves the disk as it is. *)
Theorem text_backed_call_reads_no_file (a : Cache.args) (w w' : world)
  (n : ustr) (text : pyval) (r : res nat) :
  Cache.name a = Cache.Name_str n ->
  Cache.sourcetext a = Some text ->
  getModule a w = (r, w') ->
  exists new,
    Cache.log _ _ w' = Cache.log _ _ w ++ new
    /\ existsb is_read_event new = false
    /\ (Cache.savePyc a = 0%Z -> Cache.savefile a = false ->
        existsb is_write_event new = false
        /\ Cache.the_disk _ _ w' = Cache.the_disk _ _ w).
Proof.
  intros Hn Hs H.
  unfold Cache.getModule, Cache.resolve in H. rewrite Hn, Hs in H.
  assert (Hsame : exists new, Cache.log _ _ w = Cache.log _ _ w ++ new
            /\ existsb is_read_event new = false
            /\ (Cache.savePyc a = 0%Z -> Cache.savefile a = false ->
                existsb is_write_event new = false
                /\ Cache.the_disk _ _ w = Cache.the_disk _ _ w)).
  { exists []. rewrite app_nil_r. repeat split. }
  destruct (if is_bytesT text then option_res (py_decode text)
            else Ok (Some text)) as [t0|e] eqn:Et; cbn [bind] in H.
  2:{ inversion H; subst. exact Hsame. }
  destruct (path_split n) as [extraDir n1].
  assert (Ht0 : exists t1, t0 = Some t1).
  { destruct (is_bytesT text).
    - destruct (py_decode text); inversion Et; eauto.
    - inversion Et; eauto. }
  destruct Ht0 as [t1 ->].
  destruct (getMd5 t1) as [cs|e]; [|inversion H; subst; exact Hsame].
  destruct (Cache.source_module _ _ w t1); [inversion H; subst; exact Hsame|].
  apply rebuild_disk_use in H. destruct H as [new [Hl [Hr Hw]]].
  exists new. split; [exact Hl|]. split; [exact Hr|].
  intros E1 E2. apply Hw. rewrite E1, E2. reflexivity.
Qed.

End GetModuleFurther.

Lemma file_object_with_savePyc_raises_witness :
  exists fname,
    SampleCache.getModule
      {| Cache.name := Cache.Name_file (PStr (u "Hello")) None;
         Cache.directory := u "."; Cache.source_extension := u ".prep";
         Cache.savefile := false; Cache.sourcetext := None;
         Cache.force := 0; Cache.savePyc := 1; Cache.importModule := 1;
         Cache._existing_module := None |} SampleCache.empty_world
    = match SampleCache.compile_body (PStr (u "Hello")) fname with
      | Ok _ => (Raise UnboundLocalError,
                 Cache.add_event _ _ (Cache.Ev_compile fname)
                   SampleCache.empty_world)
      | Raise e => (Raise e,
                    Cache.add_event _ _ (Cache.Ev_compile fname)
                      SampleCache.empty_world)
      end.
Proof.
  apply (file_object_with_savePyc_raises SampleCache.md5 pyval
           SampleCache.compile_body SampleCache.path_split
           SampleCache.path_isabs SampleCache.path_abs_norm
           SampleCache.path_splitext SampleCache.path_join (list ustr)
           SampleCache.rl_get_module SampleCache.open_source
           SampleCache.write_pyc _ _ (PStr (u "Hello")) None
           (SampleCache.md5 (map byte_of [72; 101; 108; 108; 111; 52; 46; 51; 46; 48])));
    first [reflexivity | discriminate].
Defined.

Lemma text_backed_call_reads_no_file_witness :
  let a := {| Cache.name := Cache.Name_str (u "t");
              Cache.directory := u "."; Cache.source_extension := u ".prep";
              Cache.savefile := false;
              Cache.sourcetext := Some (PStr (u "Hello"));
              Cache.force := 0; Cache.savePyc := 0; Cache.importModule := 1;
              Cache._existing_module := None |} in
  let w' := snd (SampleCache.getModule a SampleCache.empty_world) in
  exists new,
    Cache.log _ _ w' = Cache.log _ _ SampleCache.empty_world ++ new
    /\ existsb is_read_event new = false
    /\ (Cache.savePyc a = 0%Z -> Cache.savefile a = false ->
        existsb is_write_event new = false
        /\ Cache.the_disk _ _ w' = Cache.the_disk _ _ SampleCache.empty_world).
Proof.
  intros a w'.
  apply (text_backed_call_reads_no_file SampleCache.md5 pyval
           SampleCache.compile_body SampleCache.path_split
           SampleCache.path_isabs SampleCache.path_abs_norm
           SampleCache.path_splitext SampleCache.path_join (list ustr)
           SampleCache.rl_get_module SampleCache.open_source
           SampleCache.write_pyc a SampleCache.empty_world w' (u "t")
           (PStr (u "Hello"))
           (fst (SampleCache.getModule a SampleCache.empty_world)));
    reflexivity.
Defined.

Lemma first_keyword_hit (kws : list ustr) (ok : ustr -> bool) (kw s : ustr) :
  forallb (fun k => ustr_eqb k kw || differ k kw) kws = true ->
  In kw kws -> ok s = true ->
  first_keyword kws ok (kw ++ s) = Some (kw, s).
Proof.
  induction kws as [|k kws IH]; intros Ha Hin Hok; [destruct Hin|].
  cbn [forallb] in Ha. apply andb_true_iff in Ha. destruct Ha as [Hk Hr].
  cbn [first_keyword].
  apply orb_true_iff in Hk. destruct Hk as [Hk|Hk].
  - apply ustr_eqb_eq in Hk. subst k.
    rewrite starts_with_app, skipn_length_app, Hok. reflexivity.
  - rewrite (differ_starts_with _ _ _ Hk). cbn [andb].
    destruct Hin as [->|Hin]; [|exact (IH Hr Hin Hok)].
    exfalso. clear -Hk. induction kw as [|a kw IHk]; [discriminate|].
    cbn [differ] in Hk. rewrite N.eqb_refl in Hk. exact (IHk Hk).
Qed.

Lemma start_keyword_match (py310 : bool) (ua : N -> bool) (kw s : ustr) :
  In kw (start_keywords py310) ->
  startend_ok s = true ->
  _s_match py310 ua (kw ++ s) = Some (M_start kw (take_while is_space s)).
Proof.
  intros Hk Hs. destruct (kw_apart_all py310 kw Hk) as (Ha & _ & _).
  unfold _s_match.
  rewrite (first_keyword_hit _ startend_ok kw s Ha Hk Hs). reflexivity.
Qed.

(** X25: a tag that is a block-start keyword alone is a lex error `Bad
    <keyword>`, unless the keyword is one of [continue], [break], [try],
    [except], [return] and [raise]; followed by white space, and whatever
    comes after it, every block-start keyword gives a token of its
    kind. *)
Theorem start_keyword_needs_text (py310 : bool) (ua : N -> bool) (ds : Z)
  (kw : ustr) (i0 : nat) :
  kind_in kw (start_keywords py310) = true ->
  classify py310 ua ds kw i0
  = (if kind_in kw (words "continue break try except return raise")
     then Ok (kw, ds)
     else Raise (SyntaxError (u "Bad " ++ kw) i0))
  /\ forall c0 rest,
       is_space c0 = true ->
       classify py310 ua ds (kw ++ c0 :: rest) i0 = Ok (kw, ds).
Proof.
  intros Hk. apply kind_in_In in Hk. split.
  - unfold classify.
    pose proof (start_keyword_match py310 ua kw [] Hk eq_refl) as Hm.
    rewrite app_nil_r in Hm. rewrite Hm. cbn [take_while is_empty andb].
    destruct (kind_in kw _); reflexivity.
  - intros c0 rest Hc. unfold classify.
    rewrite (start_keyword_match py310 ua kw (c0 :: rest) Hk Hc).
    cbn [take_while]. rewrite Hc. reflexivity.
Qed.

Lemma start_keyword_needs_text_witness :
  classify true (fun _ => false) 0 (u "if") 4
  = Raise (SyntaxError (u "Bad if") 4)
  /\ forall c0 rest,
       is_space c0 = true ->
       classify true (fun _ => false) 0 (u "if" ++ c0 :: rest) 4
       = Ok (u "if", 0%Z).
Proof.
  apply (start_keyword_needs_text true (fun _ => false) 0 (u "if") 4).
  reflexivity.
Defined.

(** ** The parser on a whole template *)

Section ParseWhole.

Variable isPy310 : bool.
Variable unicode_isalnum : N -> bool.
Variable pystmt : Type.
Variable ast_parse : ustr -> option (list pystmt).
Variable has_value : pystmt -> bool.

Lemma eof_is_last (body : list Token) (lo hi : nat) (e tk : Token) (i : nat) :
  spans_ok lo body hi = true ->
  nth_error (body ++ [e]) i = Some tk ->
  ustr_eqb (kind tk) (u "eof") = true ->
  i = length body.
Proof.
  intros Hs Hn Hk.
  destruct (Nat.lt_ge_cases i (length body)) as [Hlt|Hge].
  - rewrite nth_error_app1 in Hn by exact Hlt.
    apply nth_error_In in Hn.
    rewrite (spans_ok_not_eof _ _ _ _ Hs Hn) in Hk. discriminate.
  - assert (Hl : (i < length (body ++ [e]))%nat)
      by (apply nth_error_Some; congruence).
    rewrite length_app in Hl. cbn in Hl. lia.
Qed.

(** X20: when [parse] returns, the cursor of the parser stands after
    the last token, the tokens and the source are those of the lexer, and
    the counters of nesting and the stack of named blocks are back at
    their initial values. *)
Theorem parse_reads_every_token (text : ustr) (nodes : list (pnode pystmt))
  (p : parser pystmt) :
  parse isPy310 unicode_isalnum pystmt ast_parse has_value text
  = Ok (nodes, p) ->
  exists toks ds,
    tokenize isPy310 unicode_isalnum text = Ok (toks, ds)
    /\ frame p = frame (parser_init pystmt text toks ds)
    /\ _tokenX pystmt p = Z.of_nat (length toks).
Proof.
  unfold parse.
  destruct (tokenize isPy310 unicode_isalnum text) as [[toks ds]|e] eqn:Et;
    cbn [bind]; [|discriminate].
  intros H. exists toks, ds. split; [reflexivity|].
  split; [exact (run_task_frame _ _ _ _ _ _ _ _ _ H)|].
  unfold parse_fuel in H.
  replace (4 * length toks + 4)%nat with (S (4 * length toks + 3)) in H by lia.
  cbn [run_task run_step] in H. unfold preppy_body in H.
  set (p0 := parser_init pystmt text toks ds) in *.
  destruct (run_task isPy310 pystmt ast_parse has_value
              (4 * length toks + 3) (T_loop pystmt [u "eof"]) p0)
    as [[C p1]|e] eqn:El; cbn [bind] in H; [|discriminate].
  destruct (tokenPop pystmt p1) as [[tk q]|e] eqn:Ep; cbn [bind] in H;
    [|discriminate].
  inversion H; subst; clear H. cbn [snd].
  apply tokenPop_ok in Ep. subst. cbn [_tokenX set_tokenX].
  destruct (loop_stops_at_follower _ _ _ _ _ _ _ _ _ El) as [k [Hk Hf]].
  pose proof (run_task_frame _ _ _ _ _ _ _ _ _ El) as Hfr.
  assert (Htoks : _tokens pystmt p1 = toks)
    by (unfold frame in Hfr; inversion Hfr; reflexivity).
  assert (Hpr : progress (advance (T_loop pystmt [u "eof"]) p0) p0
                  (run_task isPy310 pystmt ast_parse has_value
                     (4 * length toks + 3) (T_loop pystmt [u "eof"]) p0)).
  { apply run_task_progress; [cbn; lia|].
    unfold need, left_over, p0. cbn. lia. }
  destruct Hpr as [_ Hpr]. destruct (Hpr _ _ El) as [_ Hx].
  cbn [advance] in Hx. change (_tokenX pystmt p0) with 0%Z in Hx.
  unfold cur_kind, token_at in Hk. rewrite Htoks in Hk.
  destruct (_tokenX pystmt p1 <? 0)%Z eqn:Eneg; [lia|]. rewrite Eneg in Hk.
  destruct (nth_error toks (Z.to_nat (_tokenX pystmt p1))) as [tk1|] eqn:En;
    cbn [bind] in Hk; [|discriminate].
  inversion Hk; subst k; clear Hk.
  cbn [kind_in existsb] in Hf. rewrite orb_false_r in Hf.
  destruct (tokenize_spans _ _ _ _ _ Et) as [body [-> Hs]].
  pose proof (eof_is_last _ _ _ _ _ _ Hs En Hf) as Hi.
  rewrite length_app. cbn [length]. lia.
Qed.

(** X21: no routine of the parser returns a statement with an empty
    body: the body of an [if], [while], [for], [with], named block,
    [try], [except] clause and [case], and the cases of a [match], hold a
    statement at least ([pass] when the template gives none). *)
Theorem statements_have_bodies :
  (forall fuel t p r p',
     run_task isPy310 pystmt ast_parse has_value fuel t p = Ok (r, p') ->
     task_ok t = true -> result_ok t r = true)
  /\ (forall text nodes p,
        parse isPy310 unicode_isalnum pystmt ast_parse has_value text
        = Ok (nodes, p) ->
        forallb node_ok nodes = true).
Proof.
  split; [apply run_task_ok|].
  intros text nodes p H. unfold parse in H.
  destruct (tokenize isPy310 unicode_isalnum text) as [[toks ds]|e];
    cbn [bind] in H; [|discriminate].
  apply run_task_ok in H; [|reflexivity].
  unfold result_ok in H. rewrite andb_true_r in H. exact H.
Qed.

(** X24: the parser terminates on every template: the bound put on the
    recursion of the model, four times the number of tokens plus four, is
    never what [parse] returns. *)
Theorem parse_terminates (text : ustr) :
  out_of_fuel (parse isPy310 unicode_isalnum pystmt ast_parse has_value text)
  = false.
Proof.
  destruct (parse isPy310 unicode_isalnum pystmt ast_parse has_value text)
    as [v|e] eqn:E; [reflexivity|].
  destruct e; try reflexivity.
  exfalso. exact (parse_never_out_of_fuel _ _ _ _ _ _ E).
Qed.

End ParseWhole.

Lemma parse_reads_every_token_witness :
  exists toks ds,
    tokenize true (fun _ => false) (u "{{def f(x)}}{{return}}{{enddef}}")
    = Ok (toks, ds)
    /\ frame (snd (match SampleAst.parse
                           (u "{{def f(x)}}{{return}}{{enddef}}") with
                   | Ok r => r
                   | Raise _ => ([], parser_init ustr [] [] 0)
                   end))
       = frame (parser_init ustr (u "{{def f(x)}}{{return}}{{enddef}}")
                  toks ds)
    /\ _tokenX ustr (snd (match SampleAst.parse
                                  (u "{{def f(x)}}{{return}}{{enddef}}") with
                          | Ok r => r
                          | Raise _ => ([], parser_init ustr [] [] 0)
                          end))
       = Z.of_nat (length toks).
Proof.
  apply (parse_reads_every_token true (fun _ => false) ustr
           SampleAst.ast_parse SampleAst.has_value
           (u "{{def f(x)}}{{return}}{{enddef}}")
           (fst (match SampleAst.parse
                         (u "{{def f(x)}}{{return}}{{enddef}}") with
                 | Ok r => r
                 | Raise _ => ([], parser_init ustr [] [] 0)
                 end))).
  vm_compute. reflexivity.
Defined.

Lemma statements_have_bodies_witness :
  forallb node_ok
    [N_block ustr (u "def f(x):" ++ [9] ++ u "pass")
       [N_pass ustr; N_return_empty ustr] []] = true.
Proof.
  pose proof (statements_have_bodies true (fun _ => false) ustr
                SampleAst.ast_parse SampleAst.has_value) as [_ H].
  apply (H (u "{{def f(x)}}{{enddef}}") _
           (snd (match SampleAst.parse (u "{{def f(x)}}{{enddef}}") with
                 | Ok r => r
                 | Raise _ => ([], parser_init ustr [] [] 0)
                 end))).
  vm_compute. reflexivity.
Defined.

Lemma break_needs_enclosing_loop_witness :
  let toks := [ {| kind := u "break"; start := 2; end_ := 7 |};
                {| kind := u "eof"; start := 9; end_ := 9 |} ] in
  let outside := parser_init ustr (u "{{break}}") toks (-1) in
  let inside := set_loops ustr outside 1 0 in
  __break ustr (u "break") outside
  = Raise (SyntaxError (u "break statement outside while or for loop") 2)
  /\ __break ustr (u "break") inside
     = Ok ([N_break ustr], set_tokenX ustr inside (_tokenX ustr inside + 1)%Z).
Proof.
  cbv zeta.
  pose proof (break_needs_enclosing_loop true ustr SampleAst.ast_parse
                SampleAst.has_value) as (H1 & H2 & _).
  split.
  - apply (H1 (u "break") _ {| kind := u "break"; start := 2; end_ := 7 |});
      reflexivity.
  - apply (H2 (u "break")).
    + reflexivity.
    + left. discriminate.
Defined.
